(** * Unmanaged-cluster configuration: resolution, mapping parsers, env names

    Shallow embedding of package [config] of the unmanaged-cluster plugin
    (cli/cmd/plugin/unmanaged-cluster/config): the two mapping parsers
    [ParsePortMappings] and [ParseInstallPackageMappings], the reflective
    field setters, [fieldNameToEnvName], [sanatizeKubeconfigPath] and
    [InitializeConfiguration].

    Go strings are byte sequences: they are modelled by [string] (a list of
    8-bit [ascii] characters).  Go's [int] is the 64-bit signed integer and is
    modelled by [Z] with its range written out where the source depends on
    it ([strconv.Atoi]).  A Go panic is an explicit outcome of the [result]
    type. *)

From Stdlib Require Import ZArith Ascii String List Bool Lia.
From stdpp Require Import base option list strings gmap.

Local Open Scope Z_scope.
Import ListNotations.

(** ** Outcomes of code that may panic *)

Inductive result (A : Type) : Type :=
| Ok (a : A)
| Panic (msg : string).
Arguments Ok {A} a.
Arguments Panic {A} msg.

Definition rbind {A B} (r : result A) (k : A -> result B) : result B :=
  match r with
  | Ok a => k a
  | Panic m => Panic m
  end.

Notation "'do' x <- c1 ; c2" := (rbind c1 (fun x => c2))
  (at level 10, x name, c1 at level 100, c2 at level 200).

(** ** Package [strings] (the functions the source calls) *)

Module strings.

Definition is_upper (c : ascii) : bool :=
  let n := N_of_ascii c in ((65 <=? n) && (n <=? 90))%N.

Definition is_lower (c : ascii) : bool :=
  let n := N_of_ascii c in ((97 <=? n) && (n <=? 122))%N.

Definition lower_byte (c : ascii) : ascii :=
  if is_upper c then ascii_of_N (N_of_ascii c + 32) else c.

Definition upper_byte (c : ascii) : ascii :=
  if is_lower c then ascii_of_N (N_of_ascii c - 32) else c.

Fixpoint map_bytes (f : ascii -> ascii) (s : string) : string :=
  match s with
  | EmptyString => EmptyString
  | String c r => String (f c) (map_bytes f r)
  end.

(** [strings.ToLower] and [strings.ToUpper] on ASCII letters; bytes outside
    the ASCII letters are left as they are. Go maps the other letters by
    Unicode rune: no rune outside ASCII is mapped to a letter of "tcp",
    "udp" or "sctp", so the protocol test is decided as in Go, and the
    field names given to [ToUpper] are ASCII. Only the text carried by a
    protocol error can differ from Go's, for input outside ASCII. *)
Definition ToLower (s : string) : string := map_bytes lower_byte s.
Definition ToUpper (s : string) : string := map_bytes upper_byte s.

(** [strings.Split(s, sep)] for a separator of one byte, which is how the
    source always calls it. The result is never empty. *)
Fixpoint Split (s : string) (sep : ascii) : list string :=
  match s with
  | EmptyString => [EmptyString]
  | String c r =>
      if Ascii.eqb c sep then EmptyString :: Split r sep
      else match Split r sep with
           | w :: ws => String c w :: ws
           | [] => [String c EmptyString]
           end
  end.

(** [strings.Join(elems, sep)] *)
Fixpoint Join (elems : list string) (sep : string) : string :=
  match elems with
  | [] => EmptyString
  | [e] => e
  | e :: rest => e +:+ sep +:+ Join rest sep
  end.

(** [strings.HasPrefix] *)
Definition HasPrefix (s pre : string) : bool := String.prefix pre s.

(** Number of occurrences of a byte. *)
Fixpoint count (c : ascii) (s : string) : nat :=
  match s with
  | EmptyString => 0%nat
  | String d r => ((if Ascii.eqb d c then 1 else 0) + count c r)%nat
  end.

End strings.

(** ** Package [strconv] *)

Module strconv.

Definition maxInt : Z := 2 ^ 63 - 1.
Definition minInt : Z := - 2 ^ 63.

Definition digit (c : ascii) : option Z :=
  let n := Z.of_N (N_of_ascii c) in
  if (48 <=? n) && (n <=? 57) then Some (n - 48) else None.

Fixpoint digits (s : string) (acc : Z) : option Z :=
  match s with
  | EmptyString => Some acc
  | String c r =>
      match digit c with
      | Some d => digits r (acc * 10 + d)
      | None => None
      end
  end.

(** [strconv.Atoi]: optional sign, at least one decimal digit, nothing
    else, and the value within the 64-bit [int]; [None] is a non-nil
    error. *)
Definition Atoi (s : string) : option Z :=
  let '(neg, body) :=
    match s with
    | String "-"%char r => (true, r)
    | String "+"%char r => (false, r)
    | _ => (false, s)
    end in
  match body with
  | EmptyString => None
  | _ =>
      match digits body 0 with
      | Some n =>
          let v := if neg then - n else n in
          if (minInt <=? v) && (v <=? maxInt) then Some v else None
      | None => None
      end
  end.

(** [strconv.ParseBool]: [None] is a non-nil error. *)
Definition ParseBool (s : string) : option bool :=
  if existsb (String.eqb s) ["1"; "t"; "T"; "TRUE"; "true"; "True"] then Some true
  else if existsb (String.eqb s) ["0"; "f"; "F"; "FALSE"; "false"; "False"] then Some false
  else None.

End strconv.

(** ** Data model *)

Definition ProtocolTCP : string := "tcp".
Definition ProtocolUDP : string := "udp".
Definition ProtocolSCTP : string := "sctp".

Record PortMap : Type := mkPortMap {
  ListenAddress : string;
  HostPort : Z;
  ContainerPort : Z;
  Protocol : string
}.

Record InstallPackage : Type := mkInstallPackage {
  Name : string;
  Config : string;
  Version : string;
  Namespace : string
}.

(** The errors the package builds with [fmt.Errorf], one constructor per
    format string, carrying the formatted operand. *)
Inductive error : Type :=
| ErrProtocol (p : string)
| ErrContainerPort3 (part : string)
| ErrHostPort3 (part : string)
| ErrContainerPort2 (part : string)
| ErrHostPort2 (part : string)
| ErrContainerPort1 (part : string)
| ErrInvalidPortMapping (parts : list string)
| ErrNoParts (mapping : string)
| ErrTooManyParts (mapping : string)
| ErrClusterName
| ErrReadFile (path : string)
| ErrUnmarshal (path : string).

(** ** Mapping parsers *)

Definition zeroPortMap : PortMap := mkPortMap "" 0 0 "".

Definition part (parts : list string) (i : nat) : string := nth i parts "".

(** Body of the loop of [ParsePortMappings] for one mapping string [pm]:
    [inl] is the record appended to [mappings], [inr] the error returned. *)
Definition parsePortMapping (pm : string) : PortMap + error :=
  let result := zeroPortMap in
  let parts := strings.Split pm "/" in
  let checked : PortMap + error :=
    if (length parts =? 2)%nat then
      let p := strings.ToLower (part parts 1) in
      if negb (String.eqb p ProtocolTCP) && negb (String.eqb p ProtocolUDP)
         && negb (String.eqb p ProtocolSCTP)
      then inr (ErrProtocol p)
      else inl (mkPortMap (ListenAddress result) (HostPort result) (ContainerPort result) p)
    else inl result in
  match checked with
  | inr e => inr e
  | inl result =>
      let parts := strings.Split (part parts 0) ":" in
      match length parts with
      | 3%nat =>
          match strconv.Atoi (part parts 1) with
          | None => inr (ErrContainerPort3 (part parts 1))
          | Some containerPort =>
              match strconv.Atoi (part parts 2) with
              | None => inr (ErrHostPort3 (part parts 2))
              | Some hostPort =>
                  inl (mkPortMap (part parts 0) hostPort containerPort (Protocol result))
              end
          end
      | 2%nat =>
          match strconv.Atoi (part parts 0) with
          | None => inr (ErrContainerPort2 (part parts 0))
          | Some containerPort =>
              match strconv.Atoi (part parts 1) with
              | None => inr (ErrHostPort2 (part parts 1))
              | Some hostPort =>
                  inl (mkPortMap (ListenAddress result) hostPort containerPort (Protocol result))
              end
          end
      | 1%nat =>
          match strconv.Atoi (part parts 0) with
          | None => inr (ErrContainerPort1 (part parts 0))
          | Some p =>
              inl (mkPortMap (ListenAddress result) (HostPort result) p (Protocol result))
          end
      | _ => inr (ErrInvalidPortMapping parts)
      end
  end.

(** The loop of [ParsePortMappings], with the slice [mappings] built so far. *)
Fixpoint parsePortMappingsFrom (mappings : list PortMap) (portMappings : list string)
  : list PortMap * option error :=
  match portMappings with
  | [] => (mappings, None)
  | pm :: rest =>
      match parsePortMapping pm with
      | inr e => ([], Some e)
      | inl result => parsePortMappingsFrom (mappings ++ [result]) rest
      end
  end.

(** [ParsePortMappings]: the pair returned is (slice, error), a nil slice
    being the empty list. *)
Definition ParsePortMappings (portMappings : list string) : list PortMap * option error :=
  parsePortMappingsFrom [] portMappings.

Definition zeroInstallPackage : InstallPackage := mkInstallPackage "" "" "" "".

(** Body of the inner loop of [ParseInstallPackageMappings]. *)
Definition parseInstallPackage (installPackage : string) : InstallPackage + error :=
  let parts := strings.Split installPackage ":" in
  match length parts with
  | 0%nat => inr (ErrNoParts installPackage)
  | 1%nat => inl (mkInstallPackage (part parts 0) "" "" "")
  | 2%nat => inl (mkInstallPackage (part parts 0) "" (part parts 1) "")
  | 3%nat => inl (mkInstallPackage (part parts 0) (part parts 2) (part parts 1) "")
  | 4%nat => inl (mkInstallPackage (part parts 0) (part parts 2) (part parts 1) (part parts 3))
  | _ => inr (ErrTooManyParts installPackage)
  end.

(** The inner loop, over the comma-separated mappings of one string. *)
Fixpoint parseInstallPackagesFrom (result : list InstallPackage) (installPackages : list string)
  : list InstallPackage + error :=
  match installPackages with
  | [] => inl result
  | installPackage :: rest =>
      match parseInstallPackage installPackage with
      | inr e => inr e
      | inl ip => parseInstallPackagesFrom (result ++ [ip]) rest
      end
  end.

(** The outer loop, over the strings given. *)
Fixpoint parseInstallPackageMapsFrom (result : list InstallPackage) (installPackageMaps : list string)
  : list InstallPackage * option error :=
  match installPackageMaps with
  | [] => (result, None)
  | installPackageMap :: rest =>
      match parseInstallPackagesFrom result (strings.Split installPackageMap ",") with
      | inr e => ([], Some e)
      | inl result' => parseInstallPackageMapsFrom result' rest
      end
  end.

Definition ParseInstallPackageMappings (installPackageMaps : list string)
  : list InstallPackage * option error :=
  parseInstallPackageMapsFrom [] installPackageMaps.

(** What the parser does with the text before the first slash, once the
    protocol has been settled. *)
Definition parseColonParts (proto : string) (text : string) : PortMap + error :=
  let parts := strings.Split text ":" in
  match parts with
  | [p] =>
      match strconv.Atoi p with
      | None => inr (ErrContainerPort1 p)
      | Some c => inl (mkPortMap "" 0 c proto)
      end
  | [c; h] =>
      match strconv.Atoi c with
      | None => inr (ErrContainerPort2 c)
      | Some c' =>
          match strconv.Atoi h with
          | None => inr (ErrHostPort2 h)
          | Some h' => inl (mkPortMap "" h' c' proto)
          end
      end
  | [a; c; h] =>
      match strconv.Atoi c with
      | None => inr (ErrContainerPort3 c)
      | Some c' =>
          match strconv.Atoi h with
          | None => inr (ErrHostPort3 h)
          | Some h' => inl (mkPortMap a h' c' proto)
          end
      end
  | _ => inr (ErrInvalidPortMapping parts)
  end.

Definition validProtocol (p : string) : bool :=
  String.eqb p ProtocolTCP || String.eqb p ProtocolUDP || String.eqb p ProtocolSCTP.


(** ** Package [regexp], for the one expression the source compiles *)

Module regexp.

(** The longest prefix made of bytes outside A-Z: what [[^A-Z]*] consumes. *)
Fixpoint notUpperPrefix (s : string) : string :=
  match s with
  | EmptyString => EmptyString
  | String c r => if strings.is_upper c then EmptyString else String c (notUpperPrefix r)
  end.

(** [regexp.MustCompile("[A-Z][^A-Z]*").FindAllString(s, -1)]: the
    successive leftmost matches, each one an upper-case ASCII letter and
    the following bytes up to the next upper-case letter; what comes
    before the first upper-case letter matches nothing and is skipped. *)
Fixpoint FindAllString (s : string) : list string :=
  match s with
  | EmptyString => []
  | String c r =>
      if strings.is_upper c then String c (notUpperPrefix r) :: FindAllString r
      else FindAllString r
  end.

End regexp.

(** [fieldNameToEnvName] *)
Definition fieldNameToEnvName (field : string) : string :=
  let namedArray := ["TANZU"] in
  let allWords := regexp.FindAllString field in
  let namedArray := namedArray ++ map strings.ToUpper allWords in
  strings.Join namedArray "_".

(** The decomposition the specification words describe: the name is a
    prefix without upper-case letters followed by runs, each an upper-case
    letter and then no upper-case letter up to the next run or the end. *)
Fixpoint noUpper (s : string) : bool :=
  match s with
  | EmptyString => true
  | String c r => negb (strings.is_upper c) && noUpper r
  end.

Definition isCapitalizedRun (w : string) : Prop :=
  exists c rest, w = String c rest /\ strings.is_upper c = true /\ noUpper rest = true.

Fixpoint concatStrings (ws : list string) : string :=
  match ws with
  | [] => EmptyString
  | w :: rest => w +:+ concatStrings rest
  end.

Definition capitalizedRuns (name : string) (ws : list string) : Prop :=
  exists pre, noUpper pre = true /\ name = pre +:+ concatStrings ws
              /\ Forall isCapitalizedRun ws.

(** ** Package [path/filepath] on Unix *)

Module filepath.

Definition rooted (path : string) : bool :=
  match path with
  | String "/"%char _ => true
  | _ => false
  end.

(** The elements kept by [Clean], last one first in [out]: empty and "."
    elements are dropped, ".." removes the element before it, is dropped
    at the root and is kept at the start of a path that is not rooted. *)
Fixpoint cleanElements (isRooted : bool) (elems : list string) (out : list string)
  : list string :=
  match elems with
  | [] => rev out
  | e :: rest =>
      if String.eqb e "" || String.eqb e "." then cleanElements isRooted rest out
      else if String.eqb e ".." then
        match out with
        | top :: out' =>
            if String.eqb top ".." then cleanElements isRooted rest (e :: out)
            else cleanElements isRooted rest out'
        | [] =>
            if isRooted then cleanElements isRooted rest []
            else cleanElements isRooted rest [e]
        end
      else cleanElements isRooted rest (e :: out)
  end.

(** [filepath.Clean], by its documented rules. *)
Definition Clean (path : string) : string :=
  if String.eqb path "" then "."
  else
    let r := rooted path in
    let body := strings.Join (cleanElements r (strings.Split path "/") []) "/" in
    if r then String "/" body
    else if String.eqb body "" then "." else body.

(** [filepath.Join]: the elements from the first one that is not empty,
    joined with the separator and cleaned; the empty string when there
    is none. *)
Fixpoint Join (elem : list string) : string :=
  match elem with
  | [] => ""
  | e :: rest =>
      if String.eqb e "" then Join rest else Clean (strings.Join elem "/")
  end.

End filepath.

(** ** Dynamically typed values: [interface{}] and [reflect.Value] *)

#[local] Unset Elimination Schemes.
Inductive value : Type :=
| VNil
| VBool (b : bool)
| VInt (n : Z)
| VString (s : string)
| VStrings (l : list string)
| VPortMap (p : PortMap)
| VPortMaps (l : list PortMap)
| VInstallPackage (p : InstallPackage)
| VInstallPackages (l : list InstallPackage)
| VMap (m : list (string * value)).
#[local] Set Elimination Schemes.

(** ** The configuration *)

Record UnmanagedClusterConfig : Type := mkConfig {
  ClusterName : string;
  KubeconfigPath : string;
  ExistingClusterKubeconfig : string;
  NodeImage : string;
  Provider : string;
  ProviderConfiguration : list (string * value);
  Cni : string;
  CNIConfiguration : list (string * value);
  PodCidr : string;
  ServiceCidr : string;
  TkrLocation : string;
  AdditionalPackageRepos : list string;
  PortsToForward : list PortMap;
  SkipPreflightChecks : bool;
  ControlPlaneNodeCount : string;
  WorkerNodeCount : string;
  InstallPackages : list InstallPackage;
  LogFile : string
}.

(** [&UnmanagedClusterConfig{}] *)
Definition zeroConfig : UnmanagedClusterConfig :=
  mkConfig "" "" "" "" "" [] "" [] "" "" "" [] [] false "" "" [] "".

(** The struct fields in declaration order, as [reflect] enumerates them. *)
Inductive field : Type :=
| FClusterName | FKubeconfigPath | FExistingClusterKubeconfig | FNodeImage
| FProvider | FProviderConfiguration | FCni | FCNIConfiguration | FPodCidr
| FServiceCidr | FTkrLocation | FAdditionalPackageRepos | FPortsToForward
| FSkipPreflightChecks | FControlPlaneNodeCount | FWorkerNodeCount
| FInstallPackages | FLogFile.

Definition fields : list field :=
  [FClusterName; FKubeconfigPath; FExistingClusterKubeconfig; FNodeImage;
   FProvider; FProviderConfiguration; FCni; FCNIConfiguration; FPodCidr;
   FServiceCidr; FTkrLocation; FAdditionalPackageRepos; FPortsToForward;
   FSkipPreflightChecks; FControlPlaneNodeCount; FWorkerNodeCount;
   FInstallPackages; FLogFile].

(** [field.Name] *)
Definition fieldName (f : field) : string :=
  match f with
  | FClusterName => "ClusterName"
  | FKubeconfigPath => "KubeconfigPath"
  | FExistingClusterKubeconfig => "ExistingClusterKubeconfig"
  | FNodeImage => "NodeImage"
  | FProvider => "Provider"
  | FProviderConfiguration => "ProviderConfiguration"
  | FCni => "Cni"
  | FCNIConfiguration => "CNIConfiguration"
  | FPodCidr => "PodCidr"
  | FServiceCidr => "ServiceCidr"
  | FTkrLocation => "TkrLocation"
  | FAdditionalPackageRepos => "AdditionalPackageRepos"
  | FPortsToForward => "PortsToForward"
  | FSkipPreflightChecks => "SkipPreflightChecks"
  | FControlPlaneNodeCount => "ControlPlaneNodeCount"
  | FWorkerNodeCount => "WorkerNodeCount"
  | FInstallPackages => "InstallPackages"
  | FLogFile => "LogFile"
  end.

(** [field.Tag.Get("yaml")] *)
Definition yamlTag (f : field) : string :=
  match f with
  | FCNIConfiguration => "CniConfiguration"
  | _ => fieldName f
  end.

(** The name every setter computes first: the yaml tag, or the field's
    name when there is no tag. *)
Definition canonicalName (f : field) : string :=
  let fieldName' := yamlTag f in
  if String.eqb fieldName' "" then fieldName f else fieldName'.

(** Keys of the command arguments that are not struct fields. *)
Definition ClusterConfigFile : string := "ClusterConfigFile".
Definition Tty : string := "Tty".

Definition defaultConfigValues : gmap string value :=
  list_to_map
    [("Provider", VString "kind");
     ("Cni", VString "calico");
     ("PodCidr", VString "10.244.0.0/16");
     ("ServiceCidr", VString "10.96.0.0/16");
     (Tty, VString "true");
     ("ControlPlaneNodeCount", VString "1");
     ("WorkerNodeCount", VString "0")].

(** ** Package [reflect] on the configuration struct *)

Module reflect.

(** [element.Field(i).Interface()], also [element.FieldByName(field.Name)]
    read as a value. *)
Definition FieldByName (c : UnmanagedClusterConfig) (f : field) : value :=
  match f with
  | FClusterName => VString (ClusterName c)
  | FKubeconfigPath => VString (KubeconfigPath c)
  | FExistingClusterKubeconfig => VString (ExistingClusterKubeconfig c)
  | FNodeImage => VString (NodeImage c)
  | FProvider => VString (Provider c)
  | FProviderConfiguration => VMap (ProviderConfiguration c)
  | FCni => VString (Cni c)
  | FCNIConfiguration => VMap (CNIConfiguration c)
  | FPodCidr => VString (PodCidr c)
  | FServiceCidr => VString (ServiceCidr c)
  | FTkrLocation => VString (TkrLocation c)
  | FAdditionalPackageRepos => VStrings (AdditionalPackageRepos c)
  | FPortsToForward => VPortMaps (PortsToForward c)
  | FSkipPreflightChecks => VBool (SkipPreflightChecks c)
  | FControlPlaneNodeCount => VString (ControlPlaneNodeCount c)
  | FWorkerNodeCount => VString (WorkerNodeCount c)
  | FInstallPackages => VInstallPackages (InstallPackages c)
  | FLogFile => VString (LogFile c)
  end.

Definition storeString (f : field) (s : string) (c : UnmanagedClusterConfig)
  : UnmanagedClusterConfig :=
  {| ClusterName := match f with FClusterName => s | _ => ClusterName c end;
     KubeconfigPath := match f with FKubeconfigPath => s | _ => KubeconfigPath c end;
     ExistingClusterKubeconfig :=
       match f with FExistingClusterKubeconfig => s | _ => ExistingClusterKubeconfig c end;
     NodeImage := match f with FNodeImage => s | _ => NodeImage c end;
     Provider := match f with FProvider => s | _ => Provider c end;
     ProviderConfiguration := ProviderConfiguration c;
     Cni := match f with FCni => s | _ => Cni c end;
     CNIConfiguration := CNIConfiguration c;
     PodCidr := match f with FPodCidr => s | _ => PodCidr c end;
     ServiceCidr := match f with FServiceCidr => s | _ => ServiceCidr c end;
     TkrLocation := match f with FTkrLocation => s | _ => TkrLocation c end;
     AdditionalPackageRepos := AdditionalPackageRepos c;
     PortsToForward := PortsToForward c;
     SkipPreflightChecks := SkipPreflightChecks c;
     ControlPlaneNodeCount :=
       match f with FControlPlaneNodeCount => s | _ => ControlPlaneNodeCount c end;
     WorkerNodeCount := match f with FWorkerNodeCount => s | _ => WorkerNodeCount c end;
     InstallPackages := InstallPackages c;
     LogFile := match f with FLogFile => s | _ => LogFile c end |}.

Definition storeOther (c : UnmanagedClusterConfig)
    (provider cni : list (string * value)) (repos : list string)
    (ports : list PortMap) (skip : bool) (pkgs : list InstallPackage)
  : UnmanagedClusterConfig :=
  {| ClusterName := ClusterName c;
     KubeconfigPath := KubeconfigPath c;
     ExistingClusterKubeconfig := ExistingClusterKubeconfig c;
     NodeImage := NodeImage c;
     Provider := Provider c;
     ProviderConfiguration := provider;
     Cni := Cni c;
     CNIConfiguration := cni;
     PodCidr := PodCidr c;
     ServiceCidr := ServiceCidr c;
     TkrLocation := TkrLocation c;
     AdditionalPackageRepos := repos;
     PortsToForward := ports;
     SkipPreflightChecks := skip;
     ControlPlaneNodeCount := ControlPlaneNodeCount c;
     WorkerNodeCount := WorkerNodeCount c;
     InstallPackages := pkgs;
     LogFile := LogFile c |}.

Definition storeRepos (l : list string) (c : UnmanagedClusterConfig) :=
  storeOther c (ProviderConfiguration c) (CNIConfiguration c)
    l (PortsToForward c) (SkipPreflightChecks c) (InstallPackages c).
Definition storePorts (l : list PortMap) (c : UnmanagedClusterConfig) :=
  storeOther c (ProviderConfiguration c) (CNIConfiguration c)
    (AdditionalPackageRepos c) l (SkipPreflightChecks c) (InstallPackages c).
Definition storeSkip (b : bool) (c : UnmanagedClusterConfig) :=
  storeOther c (ProviderConfiguration c) (CNIConfiguration c)
    (AdditionalPackageRepos c) (PortsToForward c) b (InstallPackages c).
Definition storePackages (l : list InstallPackage) (c : UnmanagedClusterConfig) :=
  storeOther c (ProviderConfiguration c) (CNIConfiguration c)
    (AdditionalPackageRepos c) (PortsToForward c) (SkipPreflightChecks c) l.
Definition storeProviderConfiguration (m : list (string * value))
    (c : UnmanagedClusterConfig) :=
  storeOther c m (CNIConfiguration c)
    (AdditionalPackageRepos c) (PortsToForward c) (SkipPreflightChecks c)
    (InstallPackages c).
Definition storeCNIConfiguration (m : list (string * value))
    (c : UnmanagedClusterConfig) :=
  storeOther c (ProviderConfiguration c) m
    (AdditionalPackageRepos c) (PortsToForward c) (SkipPreflightChecks c)
    (InstallPackages c).

(** [element.FieldByName(field.Name).Set(x)]: the value must be assignable
    to the field's type, otherwise [Set] panics. *)
Definition Set_ (c : UnmanagedClusterConfig) (f : field) (x : value)
  : result UnmanagedClusterConfig :=
  match f, FieldByName c f, x with
  | _, VString _, VString s => Ok (storeString f s c)
  | FSkipPreflightChecks, _, VBool b => Ok (storeSkip b c)
  | FAdditionalPackageRepos, _, VStrings l => Ok (storeRepos l c)
  | FPortsToForward, _, VPortMaps l => Ok (storePorts l c)
  | FInstallPackages, _, VInstallPackages l => Ok (storePackages l c)
  | FProviderConfiguration, _, VMap m => Ok (storeProviderConfiguration m c)
  | FCNIConfiguration, _, VMap m => Ok (storeCNIConfiguration m c)
  | _, _, _ => Panic "reflect.Set: value is not assignable to the type of the field"
  end.

(** [SetString] and [SetBool] panic on a field of another kind. *)
Definition SetString (c : UnmanagedClusterConfig) (f : field) (s : string)
  : result UnmanagedClusterConfig :=
  match FieldByName c f with
  | VString _ => Ok (storeString f s c)
  | _ => Panic "reflect: call of reflect.Value.SetString on a Value that is no string"
  end.

Definition SetBool (c : UnmanagedClusterConfig) (f : field) (b : bool)
  : result UnmanagedClusterConfig :=
  match FieldByName c f with
  | VBool _ => Set_ c f (VBool b)
  | _ => Panic "reflect: call of reflect.Value.SetBool on a Value that is no bool"
  end.

(** [reflect.Append(s, x)]: [s] must be a slice and [x] assignable to its
    element type; a slice is not assignable to its own element type. *)
Definition Append (s x : value) : result value :=
  match s, x with
  | VStrings l, VString v => Ok (VStrings (l ++ [v]))
  | VPortMaps l, VPortMap v => Ok (VPortMaps (l ++ [v]))
  | VInstallPackages l, VInstallPackage v => Ok (VInstallPackages (l ++ [v]))
  | VStrings _, _ | VPortMaps _, _ | VInstallPackages _, _ =>
      Panic "reflect.Set: value is not assignable to the element type of the slice"
  | _, _ => Panic "reflect: call of reflect.Append on a Value that is no slice"
  end.

(** [Value.String()]: the string of a string Value; for other kinds Go
    gives a text of the form "<T Value>", which is not empty. *)
Definition String_ (v : value) : string :=
  match v with
  | VString s => s
  | _ => "<Value>"
  end.

(** [Value.Len()] panics on a Value that has no length. *)
Definition Len (v : value) : result nat :=
  match v with
  | VString s => Ok (String.length s)
  | VStrings l => Ok (length l)
  | VPortMaps l => Ok (length l)
  | VInstallPackages l => Ok (length l)
  | VMap m => Ok (length m)
  | _ => Panic "reflect: call of reflect.Value.Len on a Value without length"
  end.

End reflect.

(** Type assertions [value.(T)]: a panic when the dynamic type differs. *)
Definition assertBool (v : value) : result bool :=
  match v with VBool b => Ok b | _ => Panic "interface conversion: not a bool" end.
Definition assertString (v : value) : result string :=
  match v with VString s => Ok s | _ => Panic "interface conversion: not a string" end.
Definition assertStrings (v : value) : result (list string) :=
  match v with VStrings l => Ok l | _ => Panic "interface conversion: not a []string" end.
Definition assertPortMaps (v : value) : result (list PortMap) :=
  match v with VPortMaps l => Ok l | _ => Panic "interface conversion: not a []PortMap" end.
Definition assertInstallPackages (v : value) : result (list InstallPackage) :=
  match v with
  | VInstallPackages l => Ok l
  | _ => Panic "interface conversion: not a []InstallPackage"
  end.

(** [value != ""] on an interface value: false only for the empty string. *)
Definition notEmptyString (v : value) : bool :=
  match v with
  | VString s => negb (String.eqb s "")
  | _ => true
  end.

(** [os.Getenv]: the empty string for a variable that is not set. *)
Definition Getenv (environ : gmap string string) (key : string) : string :=
  default "" (environ !! key).

(** ** The process environment the package reads *)

Record OS : Type := mkOS {
  (** the environment variables that are set *)
  environ : gmap string string;
  (** [os.ReadFile]: the content of the files that can be read *)
  files : gmap string string;
  (** [user.Current()]: the home directory of the current user, [None] when
      the lookup fails (the source drops the error and keeps the nil user) *)
  currentUserHomeDir : option string
}.

(** ** Field setters *)

(** The loop that appends the values one by one to the slice field:
    [oldSlice := FieldByName; newSlice := reflect.Append(oldSlice, val);
    FieldByName.Set(newSlice)]. *)
Fixpoint appendEach (element : UnmanagedClusterConfig) (f : field) (vals : list value)
  : result UnmanagedClusterConfig :=
  match vals with
  | [] => Ok element
  | val :: rest =>
      let oldSlice := reflect.FieldByName element f in
      do newSlice <- reflect.Append oldSlice val;
      do element' <- reflect.Set_ element f newSlice;
      appendEach element' f rest
  end.

Definition setBoolValue (commandArgs : gmap string value) (os : OS)
    (element : UnmanagedClusterConfig) (f : field) : result UnmanagedClusterConfig :=
  let fieldName := canonicalName f in
  match commandArgs !! fieldName with
  | Some value =>
      do b <- assertBool value;
      reflect.SetBool element f b
  | None =>
      let value := Getenv (environ os) (fieldNameToEnvName fieldName) in
      if negb (String.eqb value "") then
        let b := default false (strconv.ParseBool value) in
        reflect.SetBool element f b
      else
        match defaultConfigValues !! fieldName with
        | Some value =>
            do b <- assertBool value;
            reflect.SetBool element f b
        | None => Ok element
        end
  end.

Definition setStringValue (commandArgs : gmap string value) (os : OS)
    (element : UnmanagedClusterConfig) (f : field) : result UnmanagedClusterConfig :=
  let fieldName := canonicalName f in
  let fromEnv :=
    let value := Getenv (environ os) (fieldNameToEnvName fieldName) in
    if negb (String.eqb value "") then reflect.SetString element f value
    else Ok element in
  do element <-
    match commandArgs !! fieldName with
    | Some value =>
        if notEmptyString value then
          do s <- assertString value;
          reflect.SetString element f s
        else fromEnv
    | None => fromEnv
    end;
  if String.eqb (reflect.String_ (reflect.FieldByName element f)) "" then
    match defaultConfigValues !! fieldName with
    | Some value =>
        do s <- assertString value;
        reflect.SetString element f s
    | None => Ok element
    end
  else Ok element.

Definition setStringSliceValue (commandArgs : gmap string value) (os : OS)
    (element : UnmanagedClusterConfig) (f : field) : result UnmanagedClusterConfig :=
  let fieldName := canonicalName f in
  let fromEnv :=
    let value := Getenv (environ os) (fieldNameToEnvName fieldName) in
    if negb (String.eqb value "") then
      let values := strings.Split value "," in
      appendEach element f (map VString values)
    else Ok element in
  do element <-
    match commandArgs !! fieldName with
    | Some slice =>
        do l <- assertStrings slice;
        if negb (length l =? 0)%nat then appendEach element f (map VString l)
        else fromEnv
    | None => fromEnv
    end;
  do n <- reflect.Len (reflect.FieldByName element f);
  if (n =? 0)%nat then
    match defaultConfigValues !! fieldName with
    | Some slice =>
        do l <- assertStrings slice;
        appendEach element f (map VString l)
    | None => Ok element
    end
  else Ok element.

Definition setPortMapSliceValue (commandArgs : gmap string value) (os : OS)
    (element : UnmanagedClusterConfig) (f : field) : result UnmanagedClusterConfig :=
  let fieldName := canonicalName f in
  let fromEnv :=
    let value := Getenv (environ os) (fieldNameToEnvName fieldName) in
    if negb (String.eqb value "") then
      let portMappings := fst (ParsePortMappings [value]) in
      let oldSlice := reflect.FieldByName element f in
      do newSlice <- reflect.Append oldSlice (VPortMaps portMappings);
      reflect.Set_ element f newSlice
    else Ok element in
  do element <-
    match commandArgs !! fieldName with
    | Some slice =>
        do l <- assertPortMaps slice;
        if negb (length l =? 0)%nat then appendEach element f (map VPortMap l)
        else fromEnv
    | None => fromEnv
    end;
  do n <- reflect.Len (reflect.FieldByName element f);
  if (n =? 0)%nat then
    match defaultConfigValues !! fieldName with
    | Some slice =>
        do l <- assertPortMaps slice;
        appendEach element f (map VPortMap l)
    | None => Ok element
    end
  else Ok element.

Definition setInstallPackageSliceValue (commandArgs : gmap string value) (os : OS)
    (element : UnmanagedClusterConfig) (f : field) : result UnmanagedClusterConfig :=
  let fieldName := canonicalName f in
  let fromEnv :=
    let value := Getenv (environ os) (fieldNameToEnvName fieldName) in
    if negb (String.eqb value "") then
      let installPackages := fst (ParseInstallPackageMappings [value]) in
      let oldSlice := reflect.FieldByName element f in
      do newSlice <- reflect.Append oldSlice (VInstallPackages installPackages);
      reflect.Set_ element f newSlice
    else Ok element in
  do element <-
    match commandArgs !! fieldName with
    | Some slice =>
        do l <- assertInstallPackages slice;
        if negb (length l =? 0)%nat then appendEach element f (map VInstallPackage l)
        else fromEnv
    | None => fromEnv
    end;
  do n <- reflect.Len (reflect.FieldByName element f);
  if (n =? 0)%nat then
    match defaultConfigValues !! fieldName with
    | Some slice =>
        do l <- assertInstallPackages slice;
        appendEach element f (map VInstallPackage l)
    | None => Ok element
    end
  else Ok element.

(** [path[2:]] *)
Definition dropTwo (path : string) : string :=
  match path with
  | String _ (String _ r) => r
  | _ => ""
  end.

(** [sanatizeKubeconfigPath]; [usr.HomeDir] on the nil user is a panic. *)
Definition sanatizeKubeconfigPath (os : OS) (path : string) : result string :=
  let builder := "" in
  do bp <-
    (if strings.HasPrefix path "~/" then
       match currentUserHomeDir os with
       | Some homeDir => Ok (filepath.Join [builder; homeDir], dropTwo path)
       | None => Panic "invalid memory address or nil pointer dereference"
       end
     else Ok (builder, path));
  Ok (filepath.Join [fst bp; snd bp]).

(** ** The resolver *)

Section Resolver.

(** [yaml.Unmarshal(data, config)] of gopkg.in/yaml.v3, which is not part
    of the package: the configuration after decoding [data] onto it, or
    [None] for an error. *)
Variable yaml_Unmarshal : string -> UnmanagedClusterConfig -> option UnmanagedClusterConfig.

(** First part of [InitializeConfiguration]: the configuration after the
    optional file, or the error returned. *)
Definition loadConfigFile (commandArgs : gmap string value) (os : OS)
  : UnmanagedClusterConfig + error :=
  let config := zeroConfig in
  match commandArgs !! ClusterConfigFile with
  | Some (VString configFile) =>
      if negb (String.eqb configFile "") then
        match files os !! configFile with
        | None => inr (ErrReadFile configFile)
        | Some configData =>
            match yaml_Unmarshal configData config with
            | None => inr (ErrUnmarshal configFile)
            | Some config' => inl config'
            end
        end
      else inl config
  | _ => inl config
  end.

(** The loop over the fields with its type switch. *)
Fixpoint setFields (commandArgs : gmap string value) (os : OS)
    (element : UnmanagedClusterConfig) (fs : list field) : result UnmanagedClusterConfig :=
  match fs with
  | [] => Ok element
  | f :: rest =>
      do element' <-
        match reflect.FieldByName element f with
        | VBool _ => setBoolValue commandArgs os element f
        | VString _ => setStringValue commandArgs os element f
        | VStrings _ => setStringSliceValue commandArgs os element f
        | VInstallPackages _ => setInstallPackageSliceValue commandArgs os element f
        | VPortMaps _ => setPortMapSliceValue commandArgs os element f
        | _ => Ok element
        end;
      setFields commandArgs os element' rest
  end.

(** [InitializeConfiguration]: the pair (config, error) returned, nil
    being [None], or a panic. *)
Definition InitializeConfiguration (commandArgs : gmap string value) (os : OS)
  : result (option UnmanagedClusterConfig * option error) :=
  match loadConfigFile commandArgs os with
  | inr err => Ok (None, Some err)
  | inl config =>
      do config <- setFields commandArgs os config fields;
      if String.eqb (ClusterName config) "" then Ok (None, Some ErrClusterName)
      else
        do path <- sanatizeKubeconfigPath os (ExistingClusterKubeconfig config);
        Ok (Some (reflect.storeString FExistingClusterKubeconfig path config), None)
  end.

End Resolver.

(** ** What the specification says a string field resolves to *)

(** The explicit argument when it is a non-empty string, else the
    environment variable when it is not empty, else the value from the
    file, else the registered default, else the empty string. *)
Definition stringPrecedence (arg : option value) (env : string) (file : string)
    (dflt : option value) : string :=
  match arg with
  | Some (VString a) =>
      if negb (String.eqb a "") then a
      else if negb (String.eqb env "") then env
      else if negb (String.eqb file "") then file
      else match dflt with Some (VString d) => d | _ => "" end
  | _ =>
      if negb (String.eqb env "") then env
      else if negb (String.eqb file "") then file
      else match dflt with Some (VString d) => d | _ => "" end
  end.

(** The kinds of field the type switch tells apart. *)
Definition isStringField (f : field) : bool :=
  match reflect.FieldByName zeroConfig f with VString _ => true | _ => false end.

(** The command arguments hold, under a field's name, a value of the
    field's type. *)
Definition sameType (v w : value) : bool :=
  match v, w with
  | VBool _, VBool _ | VString _, VString _ | VStrings _, VStrings _
  | VPortMaps _, VPortMaps _ | VInstallPackages _, VInstallPackages _
  | VMap _, VMap _ => true
  | _, _ => false
  end.

Definition wellTyped (commandArgs : gmap string value) (f : field) : bool :=
  match commandArgs !! canonicalName f with
  | Some v => sameType v (reflect.FieldByName zeroConfig f)
  | None => true
  end.

(** The string held by a field. *)
Definition getString (c : UnmanagedClusterConfig) (f : field) : string :=
  reflect.String_ (reflect.FieldByName c f).

(** [default false]: the value of [b, _ := strconv.ParseBool(value)]. *)
Definition boolOfEnv (value : string) : bool := default false (strconv.ParseBool value).

(** What the slice setters leave in a field that held [file]: the explicit
    elements, or else the elements from the environment, after the ones
    already there, and the default when nothing is there at all. *)
Definition sliceResolution {A} (arg : list A) (env : list A) (file : list A)
    (dflt : list A) : list A :=
  let merged := if negb (length arg =? 0)%nat then file ++ arg else file ++ env in
  if (length merged =? 0)%nat then dflt else merged.

Definition argStrings (commandArgs : gmap string value) (name : string) : list string :=
  match commandArgs !! name with Some (VStrings l) => l | _ => [] end.
Definition argPortMaps (commandArgs : gmap string value) (name : string) : list PortMap :=
  match commandArgs !! name with Some (VPortMaps l) => l | _ => [] end.
Definition argInstallPackages (commandArgs : gmap string value) (name : string)
  : list InstallPackage :=
  match commandArgs !! name with Some (VInstallPackages l) => l | _ => [] end.

Definition envStrings (os : OS) (name : string) : list string :=
  let value := Getenv (environ os) (fieldNameToEnvName name) in
  if negb (String.eqb value "") then strings.Split value "," else [].

(** The environment layer of a mapping field is not in play: the variable
    is unset or empty, or the explicit argument holds elements. *)
Definition mappingEnvUnused (commandArgs : gmap string value) (os : OS) (f : field) : bool :=
  String.eqb (Getenv (environ os) (fieldNameToEnvName (canonicalName f))) ""
  || match commandArgs !! canonicalName f with
     | Some (VPortMaps l) => negb (length l =? 0)%nat
     | Some (VInstallPackages l) => negb (length l =? 0)%nat
     | _ => false
     end.

(** The configuration the field loop produces from [base] when no setter
    panics, field by field. *)
Definition resolvedConfig (commandArgs : gmap string value) (os : OS)
    (base : UnmanagedClusterConfig) : UnmanagedClusterConfig :=
  let str f :=
    stringPrecedence (commandArgs !! canonicalName f)
      (Getenv (environ os) (fieldNameToEnvName (canonicalName f)))
      (getString base f) (defaultConfigValues !! canonicalName f) in
  {| ClusterName := str FClusterName;
     KubeconfigPath := str FKubeconfigPath;
     ExistingClusterKubeconfig := str FExistingClusterKubeconfig;
     NodeImage := str FNodeImage;
     Provider := str FProvider;
     ProviderConfiguration := ProviderConfiguration base;
     Cni := str FCni;
     CNIConfiguration := CNIConfiguration base;
     PodCidr := str FPodCidr;
     ServiceCidr := str FServiceCidr;
     TkrLocation := str FTkrLocation;
     AdditionalPackageRepos :=
       sliceResolution (argStrings commandArgs "AdditionalPackageRepos")
         (envStrings os "AdditionalPackageRepos") (AdditionalPackageRepos base) [];
     PortsToForward :=
       sliceResolution (argPortMaps commandArgs "PortsToForward") []
         (PortsToForward base) [];
     SkipPreflightChecks :=
       match commandArgs !! "SkipPreflightChecks" with
       | Some (VBool b) => b
       | _ =>
           let value := Getenv (environ os) "TANZU_SKIP_PREFLIGHT_CHECKS" in
           if negb (String.eqb value "") then boolOfEnv value
           else SkipPreflightChecks base
       end;
     ControlPlaneNodeCount := str FControlPlaneNodeCount;
     WorkerNodeCount := str FWorkerNodeCount;
     InstallPackages :=
       sliceResolution (argInstallPackages commandArgs "InstallPackages") []
         (InstallPackages base) [];
     LogFile := str FLogFile |}.

(** A path element that [filepath.Clean] keeps as it is: not empty, not
    "." or "..", and without separator. *)
Definition plainElement (e : string) : bool :=
  negb (String.eqb e "") && negb (String.eqb e ".") && negb (String.eqb e "..")
  && (strings.count "/" e =? 0)%nat.

(** ** Concrete inputs used in examples *)

Definition exampleOS (vars : list (string * string)) : OS :=
  mkOS (list_to_map vars) ∅ (Some "/home/user").

Definition exampleFile (provider : string) : UnmanagedClusterConfig :=
  reflect.storeString FProvider provider zeroConfig.

(** A process with one readable file, "cluster.yaml". *)
Definition exampleOSWithFile (vars : list (string * string)) (data : string) : OS :=
  mkOS (list_to_map vars) {[ "cluster.yaml" := data ]} (Some "/home/user").

(** A decoder for the documents of the examples: the three one-line
    documents below set the field they name, as a YAML decoder does, and
    every other text is rejected. *)
Definition exampleUnmarshal (data : string) (config : UnmanagedClusterConfig)
  : option UnmanagedClusterConfig :=
  if String.eqb data "ExistingClusterKubeconfig: ~/kc.yaml"
  then Some (reflect.storeString FExistingClusterKubeconfig "~/kc.yaml" config)
  else if String.eqb data "AdditionalPackageRepos: [b, c]"
  then Some (reflect.storeRepos ["b"; "c"] config)
  else if String.eqb data "ClusterName: from-file"
  then Some (reflect.storeString FClusterName "from-file" config)
  else None.

(** The value of a field of the configuration returned by a call that
    succeeded, [None] for a call that returned an error or panicked. *)
Definition returnedField (f : field)
    (r : result (option UnmanagedClusterConfig * option error)) : option value :=
  match r with
  | Ok (Some config, None) => Some (reflect.FieldByName config f)
  | _ => None
  end.

(** ** The default configuration *)

Definition defaultName : string := "default-name".

(** [emptyConfig], the arguments [GenerateDefaultConfig] gives the setters. *)
Definition emptyConfig : gmap string value :=
  list_to_map
    [(ClusterConfigFile, VString "");
     ("ClusterName", VString "");
     (Tty, VString "");
     ("TkrLocation", VString "");
     ("Provider", VString "");
     ("Cni", VString "");
     ("PodCidr", VString "");
     ("ServiceCidr", VString "");
     ("ControlPlaneNodeCount", VString "");
     ("WorkerNodeCount", VString "");
     ("AdditionalPackageRepos", VStrings [])].

(** [GenerateDefaultConfig]: the same loop over the fields as in
    [InitializeConfiguration], on a zero configuration with [emptyConfig]
    as arguments, then the fixed cluster name. *)
Definition GenerateDefaultConfig (os : OS) : result UnmanagedClusterConfig :=
  let config := zeroConfig in
  do config <- setFields emptyConfig os config fields;
  Ok (reflect.storeString FClusterName defaultName config).

(** ** Configuration directories *)

Definition configDir : string := ".config".
Definition tanzuConfigDir : string := "tanzu".
Definition tkgConfigDir : string := "tkg".
Definition unmanagedConfigDir : string := "unmanaged".

(** [os.UserHomeDir] on Unix: the value of $HOME when it is set and not
    empty, otherwise the error "$HOME is not defined". Results are
    [inl] for a value and [inr] for the text of the error. *)
Definition UserHomeDir (os : OS) : string + string :=
  let v := Getenv (environ os) "HOME" in
  if negb (String.eqb v "") then inl v else inr "$HOME is not defined".

Definition GetTanzuConfigPath (os : OS) : string + string :=
  match UserHomeDir os with
  | inr err => inr ("failed to resolve tanzu config path. Error: " +:+ err)
  | inl home => inl (filepath.Join [home; configDir; tanzuConfigDir])
  end.

Definition GetTanzuTkgConfigPath (os : OS) : string + string :=
  match GetTanzuConfigPath os with
  | inr err => inr ("failed to resolve tanzu TKG config path. Error: " +:+ err)
  | inl path => inl (filepath.Join [path; tkgConfigDir])
  end.

Definition GetUnmanagedConfigPath (os : OS) : string + string :=
  match GetTanzuTkgConfigPath os with
  | inr err => inr ("failed to resolve unmanaged-cluster config path. Error: " +:+ err)
  | inl path => inl (filepath.Join [path; unmanagedConfigDir])
  end.

(** The method [KubeConfigPath]; its error is built from the empty text. *)
Definition KubeConfigPath (os : OS) (scc : UnmanagedClusterConfig) : string + string :=
  match GetTanzuConfigPath os with
  | inr _ => inr ""
  | inl path => inl (filepath.Join [path; ClusterName scc +:+ ".yaml"])
  end.

(** ** Reading a configuration file *)

Inductive renderError : Type :=
| ErrReadingConfigFile (filePath : string)
| ErrInvalidConfiguration (filePath : string).

(** [RenderFileToConfig], with the decoder as in [InitializeConfiguration]. *)
Definition RenderFileToConfig
    (yaml_Unmarshal : string -> UnmanagedClusterConfig -> option UnmanagedClusterConfig)
    (os : OS) (filePath : string) : option UnmanagedClusterConfig * option renderError :=
  match files os !! filePath with
  | None => (None, Some (ErrReadingConfigFile filePath))
  | Some d =>
      let scc := zeroConfig in
      match yaml_Unmarshal d scc with
      | None => (None, Some (ErrInvalidConfiguration filePath))
      | Some scc' => (Some scc', None)
      end
  end.

(** ** Notions used to state properties *)

(** No lower-case ASCII letter. *)
Fixpoint noLower (s : string) : bool :=
  match s with
  | EmptyString => true
  | String c r => negb (strings.is_lower c) && noLower r
  end.

(** The comma-separated mappings of all the strings given to
    [ParseInstallPackageMappings], in order. *)
Definition mappingSegments (installPackageMaps : list string) : list string :=
  flat_map (fun s => strings.Split s ",") installPackageMaps.

(** A text without the two separators of the install-package format. *)
Definition separatorFree (s : string) : Prop :=
  strings.count ":" s = 0%nat /\ strings.count "," s = 0%nat.

(** Two configurations that differ at most in field [f]. *)
Definition sameExcept (f : field) (c c' : UnmanagedClusterConfig) : Prop :=
  forall g, g <> f -> reflect.FieldByName c' g = reflect.FieldByName c g.

(** The step of the field loop for one field: the type switch. *)
Definition setField (commandArgs : gmap string value) (os : OS)
    (element : UnmanagedClusterConfig) (f : field) : result UnmanagedClusterConfig :=
  match reflect.FieldByName element f with
  | VBool _ => setBoolValue commandArgs os element f
  | VString _ => setStringValue commandArgs os element f
  | VStrings _ => setStringSliceValue commandArgs os element f
  | VInstallPackages _ => setInstallPackageSliceValue commandArgs os element f
  | VPortMaps _ => setPortMapSliceValue commandArgs os element f
  | _ => Ok element
  end.

(** The fields the type switch gives to a setter: all but the two maps. *)
Definition settable (f : field) : bool :=
  match reflect.FieldByName zeroConfig f with
  | VMap _ => false
  | _ => true
  end.

(** The texts [strconv.ParseBool] reads as true. *)
Definition trueTexts : list string := ["1"; "t"; "T"; "TRUE"; "true"; "True"].

(** A field has a registered default. *)
Definition hasDefault (f : field) : bool :=
  match defaultConfigValues !! canonicalName f with
  | Some _ => true
  | None => false
  end.

(** The configuration [GenerateDefaultConfig] gives when the environment
    sets none of the variables of the fields. *)
Definition plainDefaultConfig : UnmanagedClusterConfig :=
  mkConfig "default-name" "" "" "" "kind" [] "calico" [] "10.244.0.0/16" "10.96.0.0/16"
    "" [] [] false "1" "0" [] "".

(** ** The earlier parser of one port mapping *)

Module Previous.

(** The PortMap of the earlier revision of the file: no listen address. *)
Record PortMap : Type := mkPortMap {
  HostPort : Z;
  ContainerPort : Z;
  Protocol : string
}.

Inductive error : Type :=
| ErrProtocol (p : string)
| ErrInvalidPort (part : string).

(** [ParsePortMap]: the pair (result, error); on an error the result
    returned is the record as filled so far. *)
Definition ParsePortMap (portMapping : string) : PortMap * option error :=
  let result := mkPortMap 0 0 "" in
  let parts := strings.Split portMapping "/" in
  let checked : PortMap + error :=
    if (length parts =? 2)%nat then
      let p := strings.ToLower (part parts 1) in
      if negb (String.eqb p ProtocolTCP) && negb (String.eqb p ProtocolUDP)
         && negb (String.eqb p ProtocolSCTP)
      then inr (ErrProtocol p)
      else inl (mkPortMap (HostPort result) (ContainerPort result) p)
    else inl result in
  match checked with
  | inr e => (result, Some e)
  | inl result =>
      let parts := strings.Split (part parts 0) ":" in
      match strconv.Atoi (part parts 0) with
      | None => (result, Some (ErrInvalidPort (part parts 0)))
      | Some p =>
          let result := mkPortMap (HostPort result) p (Protocol result) in
          if (length parts =? 2)%nat then
            match strconv.Atoi (part parts 1) with
            | None => (result, Some (ErrInvalidPort (part parts 1)))
            | Some p => (mkPortMap p (ContainerPort result) (Protocol result), None)
            end
          else (result, None)
      end
  end.

End Previous.

(** The record of the earlier revision seen as one of the later: no
    listen address. *)
Definition ofPrevious (r : Previous.PortMap) : PortMap :=
  mkPortMap "" (Previous.HostPort r) (Previous.ContainerPort r) (Previous.Protocol r).
(** ** Facts about [strings.Split] *)

Lemma Split_not_nil (s : string) (sep : ascii) : strings.Split s sep <> [].
Proof.
  destruct s as [|c r]; simpl; [discriminate|].
  destruct (Ascii.eqb c sep); [discriminate|].
  destruct (strings.Split r sep); discriminate.
Qed.

Lemma Split_length (s : string) (sep : ascii) :
  length (strings.Split s sep) = S (strings.count sep s).
Proof.
  induction s as [|c r IH]; simpl; [reflexivity|].
  destruct (Ascii.eqb c sep); simpl.
  - now rewrite IH.
  - destruct (strings.Split r sep) as [|w ws] eqn:E; simpl in *; [discriminate|exact IH].
Qed.

Lemma Split_without_sep (s : string) (sep : ascii) :
  strings.count sep s = 0%nat -> strings.Split s sep = [s].
Proof.
  induction s as [|c r IH]; simpl; [reflexivity|].
  destruct (Ascii.eqb c sep); simpl; [discriminate|].
  intros H. now rewrite (IH H).
Qed.

Lemma Split_head_without_sep (s : string) (sep : ascii) :
  strings.count sep (part (strings.Split s sep) 0) = 0%nat.
Proof.
  induction s as [|c r IH]; simpl; [reflexivity|].
  destruct (Ascii.eqb c sep) eqn:E; simpl; [reflexivity|].
  destruct (strings.Split r sep) as [|w ws]; simpl in *; rewrite E; [reflexivity|exact IH].
Qed.

(** The string is its first part, then the separator and what follows it. *)
Lemma Split_head_decompose (s : string) (sep : ascii) :
  (1 <= strings.count sep s)%nat ->
  exists rest, s = part (strings.Split s sep) 0 +:+ String sep rest
               /\ strings.count sep s = S (strings.count sep rest).
Proof.
  induction s as [|c r IH]; simpl; [lia|].
  destruct (Ascii.eqb_spec c sep) as [->|Hne]; simpl.
  - intros _. exists r. split; reflexivity.
  - intros H. destruct (IH H) as (rest & Hr & Hc).
    exists rest. destruct (strings.Split r sep) as [|w ws] eqn:E.
    + now destruct (Split_not_nil r sep).
    + simpl in *. split; [|exact Hc].
      change (String c r = String c (w +:+ String sep rest)). now f_equal.
Qed.

Lemma append_String (c : ascii) (a b : string) :
  String c a +:+ b = String c (a +:+ b).
Proof. reflexivity. Qed.

Lemma append_Empty (b : string) : EmptyString +:+ b = b.
Proof. reflexivity. Qed.

Lemma append_assoc (a b c : string) : (a +:+ b) +:+ c = a +:+ (b +:+ c).
Proof.
  induction a as [|x a IH]; [reflexivity|].
  rewrite !append_String. now rewrite IH.
Qed.



(** ** Facts about the port-mapping parser *)

Lemma parsePortMapping_unfold (pm : string) :
  parsePortMapping pm =
    let parts := strings.Split pm "/" in
    if (length parts =? 2)%nat then
      let p := strings.ToLower (part parts 1) in
      if validProtocol p then parseColonParts p (part parts 0)
      else inr (ErrProtocol p)
    else parseColonParts "" (part parts 0).
Proof.
  unfold parsePortMapping, parseColonParts, validProtocol. cbv zeta.
  destruct (length (strings.Split pm "/") =? 2)%nat.
  - destruct (String.eqb _ ProtocolTCP), (String.eqb _ ProtocolUDP),
      (String.eqb _ ProtocolSCTP); simpl; try reflexivity;
      destruct (strings.Split (part (strings.Split pm "/") 0) ":") as [|a [|b [|c [|d l]]]];
      reflexivity.
  - destruct (strings.Split (part (strings.Split pm "/") 0) ":") as [|a [|b [|c [|d l]]]];
      reflexivity.
Qed.

Lemma parsePortMappingsFrom_ok (l : list string) :
  forall acc rs,
    Forall2 (fun pm r => parsePortMapping pm = inl r) l rs ->
    parsePortMappingsFrom acc l = (acc ++ rs, None).
Proof.
  induction l as [|pm l IH]; intros acc rs H; inversion H; subst; simpl.
  - now rewrite app_nil_r.
  - rewrite H2. rewrite (IH _ _ H4). now rewrite <- app_assoc.
Qed.

Lemma parsePortMappingsFrom_error (pre : list string) :
  forall acc rs bad post e,
    Forall2 (fun pm r => parsePortMapping pm = inl r) pre rs ->
    parsePortMapping bad = inr e ->
    parsePortMappingsFrom acc (pre ++ bad :: post) = ([], Some e).
Proof.
  induction pre as [|pm l IH]; intros acc rs bad post e H Hb; inversion H; subst; simpl.
  - now rewrite Hb.
  - rewrite H2. eauto.
Qed.

Lemma validProtocol_spec (p : string) :
  validProtocol p = true <-> p = "tcp" \/ p = "udp" \/ p = "sctp".
Proof.
  unfold validProtocol, ProtocolTCP, ProtocolUDP, ProtocolSCTP.
  rewrite !orb_true_iff, !String.eqb_eq. tauto.
Qed.

Lemma parseColonParts_Protocol (proto text : string) (r : PortMap) :
  parseColonParts proto text = inl r -> Protocol r = proto.
Proof.
  unfold parseColonParts.
  destruct (strings.Split text ":") as [|a [|b [|c [|d l]]]]; try discriminate;
    repeat match goal with
           | |- context [strconv.Atoi ?x] => destruct (strconv.Atoi x)
           end; try discriminate; intros [= <-]; reflexivity.
Qed.

(** The result of the colon stage does not depend on the protocol but for
    the field it is stored in. *)
Lemma parseColonParts_shape (proto text : string) :
  let colon := strings.Split text ":" in
  (forall r, parseColonParts proto text = inl r ->
     (length colon = 1%nat /\ ListenAddress r = "" /\
      strconv.Atoi (part colon 0) = Some (ContainerPort r) /\ HostPort r = 0)
     \/ (length colon = 2%nat /\ ListenAddress r = "" /\
         strconv.Atoi (part colon 0) = Some (ContainerPort r) /\
         strconv.Atoi (part colon 1) = Some (HostPort r))
     \/ (length colon = 3%nat /\ ListenAddress r = part colon 0 /\
         strconv.Atoi (part colon 1) = Some (ContainerPort r) /\
         strconv.Atoi (part colon 2) = Some (HostPort r)))
  /\ ((4 <= length colon)%nat ->
      parseColonParts proto text = inr (ErrInvalidPortMapping colon))
  /\ (length colon = 1%nat -> forall c, strconv.Atoi (part colon 0) = Some c ->
      parseColonParts proto text = inl (mkPortMap "" 0 c proto))
  /\ (length colon = 2%nat -> forall c h,
      strconv.Atoi (part colon 0) = Some c -> strconv.Atoi (part colon 1) = Some h ->
      parseColonParts proto text = inl (mkPortMap "" h c proto))
  /\ (length colon = 3%nat -> forall c h,
      strconv.Atoi (part colon 1) = Some c -> strconv.Atoi (part colon 2) = Some h ->
      parseColonParts proto text = inl (mkPortMap (part colon 0) h c proto)).
Proof.
  unfold parseColonParts. cbv zeta.
  destruct (strings.Split text ":") as [|a [|b [|c [|d l]]]]; unfold part; simpl.
  - repeat split; intros; try lia; discriminate.
  - destruct (strconv.Atoi a) as [va|] eqn:Ea;
      repeat split; intros; try lia; try discriminate; try congruence.
    injection H as <-. left. simpl. auto.
  - destruct (strconv.Atoi a) as [va|] eqn:Ea; [destruct (strconv.Atoi b) as [vb|] eqn:Eb|];
      repeat split; intros; try lia; try discriminate; try congruence.
    injection H as <-. right. left. simpl. auto.
  - destruct (strconv.Atoi b) as [vb|] eqn:Eb; [destruct (strconv.Atoi c) as [vc|] eqn:Ec|];
      repeat split; intros; try lia; try discriminate; try congruence.
    injection H as <-. right. right. simpl. auto.
  - repeat split; intros; try lia; try discriminate; reflexivity.
Qed.

Lemma Split_length_ge1 (s : string) (sep : ascii) : (1 <= length (strings.Split s sep))%nat.
Proof. rewrite Split_length. lia. Qed.

(** Claim C5. [ParsePortMappings] accepts, for every mapping string whose
    split on '/' has at most two parts, exactly one, two or three
    colon-separated parts before the slash (container port; container port
    and host port; listen address, container port and host port), rejects
    four or more, accepts a protocol suffix only when its lower-cased text is
    tcp, udp or sctp and stores that lower-cased text, rejects a numeric part
    that [strconv.Atoi] does not parse, and the batch call returns the error
    of the first string that fails and no records. The listed examples
    evaluate as the claim says. *)
Theorem ParsePortMappings_grammar :
  (forall pm : string,
     let slash := strings.Split pm "/" in
     let colon := strings.Split (part slash 0) ":" in
     (forall r, parsePortMapping pm = inl r ->
        (length colon = 1%nat /\ ListenAddress r = "" /\
         strconv.Atoi (part colon 0) = Some (ContainerPort r) /\ HostPort r = 0)
        \/ (length colon = 2%nat /\ ListenAddress r = "" /\
            strconv.Atoi (part colon 0) = Some (ContainerPort r) /\
            strconv.Atoi (part colon 1) = Some (HostPort r))
        \/ (length colon = 3%nat /\ ListenAddress r = part colon 0 /\
            strconv.Atoi (part colon 1) = Some (ContainerPort r) /\
            strconv.Atoi (part colon 2) = Some (HostPort r)))
     /\ ((4 <= length colon)%nat -> exists e, parsePortMapping pm = inr e)
     /\ (length slash = 2%nat ->
         (validProtocol (strings.ToLower (part slash 1)) = false ->
          parsePortMapping pm = inr (ErrProtocol (strings.ToLower (part slash 1))))
         /\ (forall r, parsePortMapping pm = inl r ->
             Protocol r = strings.ToLower (part slash 1)
             /\ (Protocol r = "tcp" \/ Protocol r = "udp" \/ Protocol r = "sctp")))
     /\ (length slash = 1%nat -> forall r, parsePortMapping pm = inl r -> Protocol r = "")
     /\ (length colon = 1%nat -> strconv.Atoi (part colon 0) = None ->
         exists e, parsePortMapping pm = inr e)
     /\ (length colon = 2%nat ->
         strconv.Atoi (part colon 0) = None \/ strconv.Atoi (part colon 1) = None ->
         exists e, parsePortMapping pm = inr e)
     /\ (length colon = 3%nat ->
         strconv.Atoi (part colon 1) = None \/ strconv.Atoi (part colon 2) = None ->
         exists e, parsePortMapping pm = inr e)
     /\ ((length slash <> 2%nat \/ validProtocol (strings.ToLower (part slash 1)) = true) ->
         (length colon = 1%nat /\ is_Some (strconv.Atoi (part colon 0)))
         \/ (length colon = 2%nat /\ is_Some (strconv.Atoi (part colon 0))
             /\ is_Some (strconv.Atoi (part colon 1)))
         \/ (length colon = 3%nat /\ is_Some (strconv.Atoi (part colon 1))
             /\ is_Some (strconv.Atoi (part colon 2))) ->
         exists r, parsePortMapping pm = inl r))
  /\ ParsePortMappings ["80"] = ([mkPortMap "" 0 80 ""], None)
  /\ ParsePortMappings ["80:8080"] = ([mkPortMap "" 8080 80 ""], None)
  /\ ParsePortMappings ["127.0.0.1:80:8080/tcp"] = ([mkPortMap "127.0.0.1" 8080 80 "tcp"], None)
  /\ ParsePortMappings ["80:8080/UDP"] = ([mkPortMap "" 8080 80 "udp"], None)
  /\ ParsePortMappings ["80/xyz"] = ([], Some (ErrProtocol "xyz"))
  /\ ParsePortMappings ["a:b:c:d"] = ([], Some (ErrInvalidPortMapping ["a"; "b"; "c"; "d"]))
  /\ ParsePortMappings ["80:x"] = ([], Some (ErrHostPort2 "x"))
  /\ (forall pre rs bad post e,
        Forall2 (fun pm r => parsePortMapping pm = inl r) pre rs ->
        parsePortMapping bad = inr e ->
        ParsePortMappings (pre ++ bad :: post) = ([], Some e))
  /\ (forall l rs,
        Forall2 (fun pm r => parsePortMapping pm = inl r) l rs ->
        ParsePortMappings l = (rs, None)).
Proof.
  split; [|repeat split; try reflexivity].
  - intros pm slash colon.
    pose proof (parsePortMapping_unfold pm) as U. cbv zeta in U. fold slash in U.
    pose proof (Split_length_ge1 pm "/") as Hs. fold slash in Hs.
    assert (Hcases :
      (length slash = 2%nat /\ validProtocol (strings.ToLower (part slash 1)) = false
       /\ parsePortMapping pm = inr (ErrProtocol (strings.ToLower (part slash 1))))
      \/ (length slash = 2%nat /\ validProtocol (strings.ToLower (part slash 1)) = true
          /\ parsePortMapping pm
             = parseColonParts (strings.ToLower (part slash 1)) (part slash 0))
      \/ (length slash <> 2%nat
          /\ parsePortMapping pm = parseColonParts "" (part slash 0))).
    { destruct (Nat.eqb_spec (length slash) 2) as [E|E].
      - destruct (validProtocol (strings.ToLower (part slash 1))) eqn:V; auto.
      - auto. }
    clear U.
    assert (Hcolon : forall proto,
      (forall r, parseColonParts proto (part slash 0) = inl r ->
        (length colon = 1%nat /\ ListenAddress r = "" /\
         strconv.Atoi (part colon 0) = Some (ContainerPort r) /\ HostPort r = 0)
        \/ (length colon = 2%nat /\ ListenAddress r = "" /\
            strconv.Atoi (part colon 0) = Some (ContainerPort r) /\
            strconv.Atoi (part colon 1) = Some (HostPort r))
        \/ (length colon = 3%nat /\ ListenAddress r = part colon 0 /\
            strconv.Atoi (part colon 1) = Some (ContainerPort r) /\
            strconv.Atoi (part colon 2) = Some (HostPort r)))
      /\ ((4 <= length colon)%nat -> exists e, parseColonParts proto (part slash 0) = inr e)
      /\ (length colon = 1%nat -> strconv.Atoi (part colon 0) = None ->
          exists e, parseColonParts proto (part slash 0) = inr e)
      /\ (length colon = 2%nat ->
          strconv.Atoi (part colon 0) = None \/ strconv.Atoi (part colon 1) = None ->
          exists e, parseColonParts proto (part slash 0) = inr e)
      /\ (length colon = 3%nat ->
          strconv.Atoi (part colon 1) = None \/ strconv.Atoi (part colon 2) = None ->
          exists e, parseColonParts proto (part slash 0) = inr e)
      /\ ((length colon = 1%nat /\ is_Some (strconv.Atoi (part colon 0)))
          \/ (length colon = 2%nat /\ is_Some (strconv.Atoi (part colon 0))
              /\ is_Some (strconv.Atoi (part colon 1)))
          \/ (length colon = 3%nat /\ is_Some (strconv.Atoi (part colon 1))
              /\ is_Some (strconv.Atoi (part colon 2))) ->
          exists r, parseColonParts proto (part slash 0) = inl r)).
    { intros proto.
      destruct (parseColonParts_shape proto (part slash 0)) as (A & B & C & D & F).
      fold colon in A, B, C, D, F.
      split; [exact A|]. split; [intros H; rewrite (B H); eauto|].
      split; [|split; [|split]].
      - intros L N. destruct (parseColonParts proto _) as [r|e] eqn:R; [|eauto].
        destruct (A r eq_refl) as [X|[X|X]]; destruct X as (L' & _ & X & _); congruence.
      - intros L N. destruct (parseColonParts proto _) as [r|e] eqn:R; [|eauto].
        destruct (A r eq_refl) as [X|[X|X]]; destruct X as (L' & _ & X & Y);
          try lia; destruct N; congruence.
      - intros L N. destruct (parseColonParts proto _) as [r|e] eqn:R; [|eauto].
        destruct (A r eq_refl) as [X|[X|X]]; destruct X as (L' & _ & X & Y);
          try lia; destruct N; congruence.
      - intros [(L & [c Hc])|[(L & [c Hc] & [h Hh])|(L & [c Hc] & [h Hh])]].
        + rewrite (C L c Hc). eauto.
        + rewrite (D L c h Hc Hh). eauto.
        + rewrite (F L c h Hc Hh). eauto. }
    destruct Hcases as [(E & V & P)|[(E & V & P)|(E & P)]]; rewrite P.
    + split; [discriminate|]. split; [eauto|]. split; [|split; [lia|]].
      { intros _. split; [reflexivity|discriminate]. }
      split; [eauto|]. split; [eauto|]. split; [eauto|].
      intros [H|H]; [lia|congruence].
    + destruct (Hcolon (strings.ToLower (part slash 1))) as (A & B & C & D & F & G).
      split; [exact A|]. split; [exact B|]. split; [|split; [lia|]].
      { intros _. split; [congruence|]. intros r Hr.
        apply parseColonParts_Protocol in Hr. rewrite Hr.
        split; [reflexivity|]. now apply validProtocol_spec. }
      split; [exact C|]. split; [exact D|]. split; [exact F|].
      intros _. exact G.
    + destruct (Hcolon "") as (A & B & C & D & F & G).
      split; [exact A|]. split; [exact B|]. split; [lia|]. split.
      { intros _ r Hr. now apply parseColonParts_Protocol in Hr. }
      split; [exact C|]. split; [exact D|]. split; [exact F|].
      intros _. exact G.
  - intros pre rs bad post e H Hb. unfold ParsePortMappings.
    eapply parsePortMappingsFrom_error; eauto.
  - intros l rs H. unfold ParsePortMappings.
    now rewrite (parsePortMappingsFrom_ok l [] rs H).
Qed.

(** Claim C10. For a mapping string with two or more '/' (three or more
    parts after the split), the protocol is not looked at: the string is
    parsed exactly as the text before its first '/', whatever follows that
    slash, the Protocol of a parsed record is empty, and the string parses
    whenever that text does; "80/tcp/udp" and "80/xyz/abc" both give the
    record of container port 80 with no protocol. *)
Theorem ParsePortMappings_extra_slashes_ignored :
  (forall pm : string,
     (2 <= strings.count "/" pm)%nat ->
     let p0 := part (strings.Split pm "/") 0 in
     (3 <= length (strings.Split pm "/"))%nat
     /\ (exists rest, pm = p0 +:+ String "/" rest
                      /\ strings.count "/" p0 = 0%nat
                      /\ (1 <= strings.count "/" rest)%nat)
     /\ parsePortMapping pm = parsePortMapping p0
     /\ (forall r, parsePortMapping pm = inl r -> Protocol r = "")
     /\ (forall r, parsePortMapping p0 = inl r ->
         ParsePortMappings [pm] = ([r], None)))
  /\ ParsePortMappings ["80/tcp/udp"] = ([mkPortMap "" 0 80 ""], None)
  /\ ParsePortMappings ["80/xyz/abc"] = ([mkPortMap "" 0 80 ""], None).
Proof.
  split; [|split; reflexivity].
  intros pm H p0.
  pose proof (Split_length pm "/") as L.
  pose proof (Split_head_without_sep pm "/") as H0. fold p0 in H0.
  assert (E : parsePortMapping pm = parsePortMapping p0).
  { rewrite (parsePortMapping_unfold pm), (parsePortMapping_unfold p0). cbv zeta.
    rewrite (Split_without_sep p0 "/" H0). fold p0.
    destruct (Nat.eqb_spec (length (strings.Split pm "/")) 2) as [E|E]; [lia|].
    reflexivity. }
  split; [lia|]. split; [|split; [exact E|split]].
  - destruct (Split_head_decompose pm "/") as (rest & Hr & Hc); [lia|].
    exists rest. fold p0 in Hr. split; [exact Hr|]. split; [exact H0|]. lia.
  - intros r Hr. rewrite E, parsePortMapping_unfold in Hr. cbv zeta in Hr.
    rewrite (Split_without_sep p0 "/" H0) in Hr. simpl in Hr.
    now apply parseColonParts_Protocol in Hr.
  - intros r Hr. unfold ParsePortMappings. simpl. rewrite E, Hr. reflexivity.
Qed.

Lemma ParsePortMappings_extra_slashes_ignored_witness :
  (2 <= strings.count "/" "8080:80/tcp/udp")%nat
  /\ parsePortMapping "8080:80/tcp/udp" = parsePortMapping "8080:80".
Proof.
  split; [vm_compute; lia|].
  exact (proj1 (proj2 (proj2
    (proj1 ParsePortMappings_extra_slashes_ignored "8080:80/tcp/udp"
       ltac:(vm_compute; lia))))).
Defined.

Lemma ParsePortMappings_grammar_witness :
  (4 <= length (strings.Split (part (strings.Split "1:2:3:4/tcp" "/") 0) ":"))%nat
  /\ exists e, parsePortMapping "1:2:3:4/tcp" = inr e.
Proof.
  split; [vm_compute; lia|].
  exact (proj1 (proj2 (proj1 ParsePortMappings_grammar "1:2:3:4/tcp"))
           ltac:(vm_compute; lia)).
Defined.

(** ** Facts about the install-package parser *)

(** The first case of the switch cannot be taken: a split has a part. *)
Lemma parseInstallPackage_error (s : string) (e : error) :
  parseInstallPackage s = inr e -> e = ErrTooManyParts s.
Proof.
  unfold parseInstallPackage.
  destruct (strings.Split s ":") as [|a [|b [|c [|d [|x l]]]]] eqn:E; simpl;
    try discriminate.
  - now destruct (Split_not_nil s ":").
  - now intros [= <-].
Qed.

Lemma parseInstallPackage_arity (s : string) :
  let parts := strings.Split s ":" in
  (length parts = 1%nat -> parseInstallPackage s = inl (mkInstallPackage (part parts 0) "" "" ""))
  /\ (length parts = 2%nat ->
      parseInstallPackage s = inl (mkInstallPackage (part parts 0) "" (part parts 1) ""))
  /\ (length parts = 3%nat ->
      parseInstallPackage s
      = inl (mkInstallPackage (part parts 0) (part parts 2) (part parts 1) ""))
  /\ (length parts = 4%nat ->
      parseInstallPackage s
      = inl (mkInstallPackage (part parts 0) (part parts 2) (part parts 1) (part parts 3)))
  /\ ((4 < length parts)%nat -> parseInstallPackage s = inr (ErrTooManyParts s)).
Proof.
  unfold parseInstallPackage. cbv zeta.
  destruct (strings.Split s ":") as [|a [|b [|c [|d [|x l]]]]]; simpl;
    repeat split; intros; try lia; try discriminate; reflexivity.
Qed.

(** Claim C6, at the input where the code departs from it: the empty
    mapping string is not rejected. Its split on ':' has one part, the empty
    string, so the parser returns one record with an empty name and no
    error; the examples of the claim that do parse are as it says. *)
Theorem ParseInstallPackageMappings_empty_segment_accepted :
  ParseInstallPackageMappings [""] = ([mkInstallPackage "" "" "" ""], None)
  /\ ParseInstallPackageMappings ["pkg,"]
     = ([mkInstallPackage "pkg" "" "" ""; mkInstallPackage "" "" "" ""], None)
  /\ ParseInstallPackageMappings ["pkg"] = ([mkInstallPackage "pkg" "" "" ""], None)
  /\ ParseInstallPackageMappings ["pkg:1.2.3"] = ([mkInstallPackage "pkg" "" "1.2.3" ""], None)
  /\ ParseInstallPackageMappings ["pkg:1.2.3,other:2.0.0"]
     = ([mkInstallPackage "pkg" "" "1.2.3" ""; mkInstallPackage "other" "" "2.0.0" ""], None)
  /\ ParseInstallPackageMappings ["a:b:c:d:e"] = ([], Some (ErrTooManyParts "a:b:c:d:e"))
  /\ (forall s e, parseInstallPackage s = inr e -> e <> ErrNoParts s).
Proof.
  repeat split; try reflexivity.
  intros s e H. apply parseInstallPackage_error in H. subst. discriminate.
Qed.

(** ** Environment-variable names *)

Lemma notUpperPrefix_noUpper (s : string) : noUpper (regexp.notUpperPrefix s) = true.
Proof.
  induction s as [|c r IH]; simpl; [reflexivity|].
  destruct (strings.is_upper c) eqn:E; simpl; [reflexivity|]. now rewrite E.
Qed.

Lemma FindAllString_decompose (s : string) :
  s = regexp.notUpperPrefix s +:+ concatStrings (regexp.FindAllString s).
Proof.
  induction s as [|c r IH]; simpl; [reflexivity|].
  destruct (strings.is_upper c); simpl.
  - rewrite ?append_Empty, ?append_String. now rewrite <- IH.
  - rewrite ?append_String. now rewrite <- IH.
Qed.

Lemma FindAllString_runs (s : string) : Forall isCapitalizedRun (regexp.FindAllString s).
Proof.
  induction s as [|c r IH]; simpl; [constructor|].
  destruct (strings.is_upper c) eqn:E; [|exact IH].
  constructor; [|exact IH].
  exists c, (regexp.notUpperPrefix r). auto using notUpperPrefix_noUpper.
Qed.

Lemma FindAllString_skip (pre s : string) :
  noUpper pre = true -> regexp.FindAllString (pre +:+ s) = regexp.FindAllString s.
Proof.
  induction pre as [|c r IH]; [reflexivity|].
  simpl. intros H. apply andb_true_iff in H as [Hc Hr].
  rewrite ?append_String; simpl.
  destruct (strings.is_upper c); [discriminate|]. auto.
Qed.

Lemma notUpperPrefix_run (w : string) (ws : list string) :
  noUpper w = true -> Forall isCapitalizedRun ws ->
  regexp.notUpperPrefix (w +:+ concatStrings ws) = w.
Proof.
  intros Hw Hws. induction w as [|c r IH].
  - rewrite ?append_Empty. destruct Hws as [|x l (d & rest & -> & Hd & _) _]; [reflexivity|].
    simpl. rewrite ?append_String; simpl. now rewrite Hd.
  - simpl in Hw. apply andb_true_iff in Hw as [Hc Hr].
    rewrite ?append_String; simpl.
    destruct (strings.is_upper c); [discriminate|]. now rewrite IH.
Qed.

Lemma FindAllString_of_runs (ws : list string) :
  Forall isCapitalizedRun ws -> regexp.FindAllString (concatStrings ws) = ws.
Proof.
  induction 1 as [|w ws (c & rest & -> & Hc & Hr) Hws IH]; [reflexivity|].
  simpl. rewrite ?append_String; simpl. rewrite Hc.
  rewrite (notUpperPrefix_run rest ws Hr Hws).
  rewrite (FindAllString_skip rest _ Hr). now rewrite IH.
Qed.

Lemma capitalizedRuns_FindAllString (name : string) :
  capitalizedRuns name (regexp.FindAllString name).
Proof.
  exists (regexp.notUpperPrefix name).
  auto using notUpperPrefix_noUpper, FindAllString_decompose, FindAllString_runs.
Qed.

Lemma capitalizedRuns_unique (name : string) (ws : list string) :
  capitalizedRuns name ws -> ws = regexp.FindAllString name.
Proof.
  intros (pre & Hpre & -> & Hws).
  rewrite (FindAllString_skip pre _ Hpre). now rewrite FindAllString_of_runs.
Qed.

Lemma Join_cons (e : string) (rest : list string) (sep : string) :
  rest <> [] -> strings.Join (e :: rest) sep = e +:+ sep +:+ strings.Join rest sep.
Proof. destruct rest; [congruence|reflexivity]. Qed.

(** Claim C7. The environment variable of a name is TANZU followed by the
    upper-cased capitalized runs of the name, joined with '_': the runs are
    the unique decomposition of the name, after what precedes its first
    upper-case letter, into pieces that start with an upper-case letter and
    hold no other one. Every canonical field name of the configuration has
    at least one run, so its variable starts with TANZU_; PodCidr gives
    TANZU_POD_CIDR. *)
Theorem fieldNameToEnvName_capitalized_runs :
  (forall name ws,
     capitalizedRuns name ws ->
     fieldNameToEnvName name = strings.Join ("TANZU" :: map strings.ToUpper ws) "_"
     /\ (ws <> [] ->
         fieldNameToEnvName name
         = "TANZU" +:+ "_" +:+ strings.Join (map strings.ToUpper ws) "_"))
  /\ (forall name, exists ws,
        capitalizedRuns name ws /\ forall ws', capitalizedRuns name ws' -> ws' = ws)
  /\ (forall f, exists ws,
        ws <> [] /\ capitalizedRuns (canonicalName f) ws
        /\ fieldNameToEnvName (canonicalName f)
           = "TANZU_" +:+ strings.Join (map strings.ToUpper ws) "_")
  /\ capitalizedRuns "PodCidr" ["Pod"; "Cidr"]
  /\ fieldNameToEnvName "PodCidr" = "TANZU_POD_CIDR"
  /\ map (fun f => fieldNameToEnvName (canonicalName f)) fields
     = ["TANZU_CLUSTER_NAME"; "TANZU_KUBECONFIG_PATH";
        "TANZU_EXISTING_CLUSTER_KUBECONFIG"; "TANZU_NODE_IMAGE";
        "TANZU_PROVIDER"; "TANZU_PROVIDER_CONFIGURATION"; "TANZU_CNI";
        "TANZU_CNI_CONFIGURATION"; "TANZU_POD_CIDR"; "TANZU_SERVICE_CIDR";
        "TANZU_TKR_LOCATION"; "TANZU_ADDITIONAL_PACKAGE_REPOS";
        "TANZU_PORTS_TO_FORWARD"; "TANZU_SKIP_PREFLIGHT_CHECKS";
        "TANZU_CONTROL_PLANE_NODE_COUNT"; "TANZU_WORKER_NODE_COUNT";
        "TANZU_INSTALL_PACKAGES"; "TANZU_LOG_FILE"].
Proof.
  assert (G : forall name ws,
     capitalizedRuns name ws ->
     fieldNameToEnvName name = strings.Join ("TANZU" :: map strings.ToUpper ws) "_"
     /\ (ws <> [] ->
         fieldNameToEnvName name
         = "TANZU" +:+ "_" +:+ strings.Join (map strings.ToUpper ws) "_")).
  { intros name ws H. apply capitalizedRuns_unique in H. subst ws.
    unfold fieldNameToEnvName. cbv zeta. split; [reflexivity|].
    intros Hne. change (["TANZU"] ++ ?l) with ("TANZU" :: l).
    apply Join_cons. now destruct (regexp.FindAllString name). }
  split; [exact G|]. split; [|split; [|split; [|split; reflexivity]]].
  - intros name. exists (regexp.FindAllString name).
    split; [apply capitalizedRuns_FindAllString|apply capitalizedRuns_unique].
  - intros f. exists (regexp.FindAllString (canonicalName f)).
    assert (Hne : regexp.FindAllString (canonicalName f) <> []) by (destruct f; discriminate).
    split; [exact Hne|]. split; [apply capitalizedRuns_FindAllString|].
    exact (proj2 (G _ _ (capitalizedRuns_FindAllString _)) Hne).
  - exists "". split; [reflexivity|]. split; [reflexivity|].
    repeat constructor.
    + exists "P"%char, "od". repeat split.
    + exists "C"%char, "idr". repeat split.
Qed.

Lemma fieldNameToEnvName_capitalized_runs_witness :
  capitalizedRuns "PodCidr" ["Pod"; "Cidr"]
  /\ fieldNameToEnvName "PodCidr"
     = strings.Join ("TANZU" :: map strings.ToUpper ["Pod"; "Cidr"]) "_".
Proof.
  assert (H : capitalizedRuns "PodCidr" ["Pod"; "Cidr"]).
  { exists "". split; [reflexivity|]. split; [reflexivity|].
    repeat constructor.
    - exists "P"%char, "od". repeat split.
    - exists "C"%char, "idr". repeat split. }
  split; [exact H|].
  exact (proj1 (proj1 fieldNameToEnvName_capitalized_runs "PodCidr" ["Pod"; "Cidr"] H)).
Defined.

(** ** Reflection on the struct *)

Lemma string_field_get (c : UnmanagedClusterConfig) (f : field) :
  isStringField f = true -> reflect.FieldByName c f = VString (getString c f).
Proof. destruct f; try discriminate; reflexivity. Qed.

Lemma SetString_string_field (c : UnmanagedClusterConfig) (f : field) (s : string) :
  isStringField f = true -> reflect.SetString c f s = Ok (reflect.storeString f s c).
Proof. destruct f; try discriminate; reflexivity. Qed.

Lemma getString_storeString (c : UnmanagedClusterConfig) (f : field) (s : string) :
  isStringField f = true -> getString (reflect.storeString f s c) f = s.
Proof. destruct f; try discriminate; reflexivity. Qed.

Lemma FieldByName_storeString_other (c : UnmanagedClusterConfig) (f g : field) (s : string) :
  g <> f -> reflect.FieldByName (reflect.storeString f s c) g = reflect.FieldByName c g.
Proof. destruct f, g; try congruence; reflexivity. Qed.

Lemma storeString_same (c : UnmanagedClusterConfig) (f : field) :
  reflect.storeString f (getString c f) c = c.
Proof. destruct c, f; reflexivity. Qed.

Lemma storeString_twice (c : UnmanagedClusterConfig) (f : field) (s t : string) :
  reflect.storeString f t (reflect.storeString f s c) = reflect.storeString f t c.
Proof. destruct f; reflexivity. Qed.

Lemma default_of_string_field (f : field) :
  isStringField f = true ->
  defaultConfigValues !! canonicalName f = None
  \/ exists d, d <> "" /\ defaultConfigValues !! canonicalName f = Some (VString d).
Proof.
  destruct f; try discriminate; intros _;
    try (left; vm_compute; reflexivity);
    right; eexists; (split; [|vm_compute; reflexivity]); discriminate.
Qed.

Lemma wellTyped_string_field (commandArgs : gmap string value) (f : field) :
  isStringField f = true -> wellTyped commandArgs f = true ->
  commandArgs !! canonicalName f = None
  \/ exists a, commandArgs !! canonicalName f = Some (VString a).
Proof.
  unfold wellTyped. intros Hf.
  destruct (commandArgs !! canonicalName f) as [v|]; [|auto].
  rewrite (string_field_get zeroConfig f Hf).
  destruct v; try discriminate. eauto.
Qed.

Lemma eqb_empty_false (s : string) : s <> "" -> String.eqb s "" = false.
Proof. intros H. now apply String.eqb_neq. Qed.

(** ** The string setter *)

Lemma setStringValue_spec (commandArgs : gmap string value) (os : OS)
    (c : UnmanagedClusterConfig) (f : field) :
  isStringField f = true -> wellTyped commandArgs f = true ->
  setStringValue commandArgs os c f
  = Ok (reflect.storeString f
          (stringPrecedence (commandArgs !! canonicalName f)
             (Getenv (environ os) (fieldNameToEnvName (canonicalName f)))
             (getString c f) (defaultConfigValues !! canonicalName f)) c).
Proof.
  intros Hf Hwt. unfold setStringValue. cbv zeta.
  set (env := Getenv (environ os) (fieldNameToEnvName (canonicalName f))).
  assert (Hdefault : forall c',
    getString c' f = getString c f \/ getString c' f <> "" ->
    (if String.eqb (reflect.String_ (reflect.FieldByName c' f)) ""
     then match defaultConfigValues !! canonicalName f with
          | Some value => do s <- assertString value; reflect.SetString c' f s
          | None => Ok c'
          end
     else Ok c')
    = Ok (reflect.storeString f
            (if negb (String.eqb (getString c' f) "") then getString c' f
             else match defaultConfigValues !! canonicalName f with
                  | Some (VString d) => d
                  | _ => ""
                  end) c')).
  { intros c' _. fold (getString c' f).
    destruct (String.eqb_spec (getString c' f) "") as [E|E]; simpl.
    - destruct (default_of_string_field f Hf) as [D|(d & _ & D)]; rewrite D; simpl.
      + rewrite <- (storeString_same c' f) at 1. now rewrite E.
      + now rewrite SetString_string_field.
    - now rewrite storeString_same. }
  assert (Henv :
    (do element <- (if negb (String.eqb env "") then reflect.SetString c f env else Ok c);
     if String.eqb (reflect.String_ (reflect.FieldByName element f)) ""
     then match defaultConfigValues !! canonicalName f with
          | Some value => do s <- assertString value; reflect.SetString element f s
          | None => Ok element
          end
     else Ok element)
    = Ok (reflect.storeString f
            (if negb (String.eqb env "") then env
             else if negb (String.eqb (getString c f) "") then getString c f
             else match defaultConfigValues !! canonicalName f with
                  | Some (VString d) => d
                  | _ => ""
                  end) c)).
  { destruct (String.eqb_spec env "") as [E|E]; simpl.
    - now rewrite Hdefault by auto.
    - rewrite SetString_string_field by assumption. simpl.
      rewrite Hdefault by (right; rewrite getString_storeString; assumption).
      rewrite getString_storeString by assumption.
      rewrite (eqb_empty_false env E). simpl. now rewrite storeString_twice. }
  destruct (wellTyped_string_field commandArgs f Hf Hwt) as [A|(a & A)]; rewrite A.
  - exact Henv.
  - simpl. destruct (String.eqb_spec a "") as [E|E]; simpl.
    + exact Henv.
    + rewrite SetString_string_field by assumption. simpl.
      rewrite Hdefault by (right; rewrite getString_storeString; assumption).
      rewrite getString_storeString by assumption.
      rewrite (eqb_empty_false a E). simpl. now rewrite storeString_twice.
Qed.

(** ** The slice setters *)

Lemma appendEach_strings (l : list string) :
  forall c, appendEach c FAdditionalPackageRepos (map VString l)
            = Ok (reflect.storeRepos (AdditionalPackageRepos c ++ l) c).
Proof.
  induction l as [|x l IH]; intros c; simpl.
  - rewrite app_nil_r. now destruct c.
  - rewrite IH. simpl. now rewrite <- app_assoc.
Qed.

Lemma appendEach_portMaps (l : list PortMap) :
  forall c, appendEach c FPortsToForward (map VPortMap l)
            = Ok (reflect.storePorts (PortsToForward c ++ l) c).
Proof.
  induction l as [|x l IH]; intros c; simpl.
  - rewrite app_nil_r. now destruct c.
  - rewrite IH. simpl. now rewrite <- app_assoc.
Qed.

Lemma appendEach_installPackages (l : list InstallPackage) :
  forall c, appendEach c FInstallPackages (map VInstallPackage l)
            = Ok (reflect.storePackages (InstallPackages c ++ l) c).
Proof.
  induction l as [|x l IH]; intros c; simpl.
  - rewrite app_nil_r. now destruct c.
  - rewrite IH. simpl. now rewrite <- app_assoc.
Qed.


Lemma default_AdditionalPackageRepos : defaultConfigValues !! "AdditionalPackageRepos" = None.
Proof. vm_compute. reflexivity. Qed.
Lemma default_PortsToForward : defaultConfigValues !! "PortsToForward" = None.
Proof. vm_compute. reflexivity. Qed.
Lemma default_InstallPackages : defaultConfigValues !! "InstallPackages" = None.
Proof. vm_compute. reflexivity. Qed.
Lemma default_SkipPreflightChecks : defaultConfigValues !! "SkipPreflightChecks" = None.
Proof. vm_compute. reflexivity. Qed.


Lemma setStringSliceValue_spec (commandArgs : gmap string value) (os : OS)
    (c : UnmanagedClusterConfig) :
  wellTyped commandArgs FAdditionalPackageRepos = true ->
  setStringSliceValue commandArgs os c FAdditionalPackageRepos
  = Ok (reflect.storeRepos
          (sliceResolution (argStrings commandArgs "AdditionalPackageRepos")
             (envStrings os "AdditionalPackageRepos") (AdditionalPackageRepos c) []) c).
Proof.
  unfold wellTyped, setStringSliceValue, sliceResolution, argStrings, envStrings.
  cbv zeta. change (canonicalName FAdditionalPackageRepos) with "AdditionalPackageRepos".
  rewrite default_AdditionalPackageRepos.
  set (env := Getenv (environ os) (fieldNameToEnvName "AdditionalPackageRepos")).
  assert (Hend : forall l,
    (do n <- reflect.Len (reflect.FieldByName (reflect.storeRepos l c) FAdditionalPackageRepos);
     if (n =? 0)%nat then Ok (reflect.storeRepos l c) else Ok (reflect.storeRepos l c))
    = Ok (reflect.storeRepos (if (length l =? 0)%nat then [] else l) c)).
  { intros l. simpl. destruct l; reflexivity. }
  assert (Henv :
    (do element <- (if negb (String.eqb env "")
                    then appendEach c FAdditionalPackageRepos
                           (map VString (strings.Split env ","))
                    else Ok c);
     do n <- reflect.Len (reflect.FieldByName element FAdditionalPackageRepos);
     if (n =? 0)%nat then Ok element else Ok element)
    = Ok (reflect.storeRepos
            (if (length (AdditionalPackageRepos c
                         ++ (if negb (String.eqb env "") then strings.Split env "," else []))
                 =? 0)%nat
             then []
             else AdditionalPackageRepos c
                  ++ (if negb (String.eqb env "") then strings.Split env "," else [])) c)).
  { destruct (String.eqb env ""); simpl negb; cbv iota.
    - rewrite app_nil_r. destruct c as [? ? ? ? ? ? ? ? ? ? ? repos ? ? ? ? ? ?].
      destruct repos; reflexivity.
    - rewrite appendEach_strings. unfold rbind at 1. apply Hend. }
  destruct (commandArgs !! "AdditionalPackageRepos") as [v|] eqn:A.
  - destruct v; try discriminate. intros _. simpl assertStrings. unfold rbind at 2.
    destruct (length l =? 0)%nat eqn:L; simpl negb; cbv iota.
    + exact Henv.
    + rewrite appendEach_strings. unfold rbind at 1. apply Hend.
  - intros _. simpl length. simpl negb. cbv iota. exact Henv.
Qed.

Lemma setPortMapSliceValue_spec (commandArgs : gmap string value) (os : OS)
    (c : UnmanagedClusterConfig) :
  wellTyped commandArgs FPortsToForward = true ->
  mappingEnvUnused commandArgs os FPortsToForward = true ->
  setPortMapSliceValue commandArgs os c FPortsToForward
  = Ok (reflect.storePorts
          (sliceResolution (argPortMaps commandArgs "PortsToForward") []
             (PortsToForward c) []) c).
Proof.
  unfold wellTyped, mappingEnvUnused, setPortMapSliceValue, sliceResolution, argPortMaps.
  cbv zeta. change (canonicalName FPortsToForward) with "PortsToForward".
  rewrite default_PortsToForward.
  set (env := Getenv (environ os) (fieldNameToEnvName "PortsToForward")).
  assert (Hend : forall l,
    (do n <- reflect.Len (reflect.FieldByName (reflect.storePorts l c) FPortsToForward);
     if (n =? 0)%nat then Ok (reflect.storePorts l c) else Ok (reflect.storePorts l c))
    = Ok (reflect.storePorts (if (length l =? 0)%nat then [] else l) c)).
  { intros l. simpl. destruct l; reflexivity. }
  assert (Hsame :
    (do n <- reflect.Len (reflect.FieldByName c FPortsToForward);
     if (n =? 0)%nat then Ok c else Ok c)
    = Ok (reflect.storePorts
            (if (length (PortsToForward c ++ []) =? 0)%nat then []
             else PortsToForward c ++ []) c)).
  { rewrite app_nil_r. destruct c as [? ? ? ? ? ? ? ? ? ? ? ? ports ? ? ? ? ?].
    destruct ports; reflexivity. }
  destruct (commandArgs !! "PortsToForward") as [v|] eqn:A.
  - destruct v; try discriminate. intros _. simpl assertPortMaps. unfold rbind at 2.
    destruct (length l =? 0)%nat eqn:L; simpl negb; cbv iota.
    + rewrite orb_false_r. intros E. rewrite E. simpl negb. cbv iota.
      unfold rbind at 1. exact Hsame.
    + intros _. rewrite appendEach_portMaps. unfold rbind at 1. apply Hend.
  - intros _. rewrite orb_false_r. intros E. rewrite E. simpl.
    exact Hsame.
Qed.

Lemma setInstallPackageSliceValue_spec (commandArgs : gmap string value) (os : OS)
    (c : UnmanagedClusterConfig) :
  wellTyped commandArgs FInstallPackages = true ->
  mappingEnvUnused commandArgs os FInstallPackages = true ->
  setInstallPackageSliceValue commandArgs os c FInstallPackages
  = Ok (reflect.storePackages
          (sliceResolution (argInstallPackages commandArgs "InstallPackages") []
             (InstallPackages c) []) c).
Proof.
  unfold wellTyped, mappingEnvUnused, setInstallPackageSliceValue, sliceResolution,
    argInstallPackages.
  cbv zeta. change (canonicalName FInstallPackages) with "InstallPackages".
  rewrite default_InstallPackages.
  set (env := Getenv (environ os) (fieldNameToEnvName "InstallPackages")).
  assert (Hend : forall l,
    (do n <- reflect.Len (reflect.FieldByName (reflect.storePackages l c) FInstallPackages);
     if (n =? 0)%nat then Ok (reflect.storePackages l c) else Ok (reflect.storePackages l c))
    = Ok (reflect.storePackages (if (length l =? 0)%nat then [] else l) c)).
  { intros l. simpl. destruct l; reflexivity. }
  assert (Hsame :
    (do n <- reflect.Len (reflect.FieldByName c FInstallPackages);
     if (n =? 0)%nat then Ok c else Ok c)
    = Ok (reflect.storePackages
            (if (length (InstallPackages c ++ []) =? 0)%nat then []
             else InstallPackages c ++ []) c)).
  { rewrite app_nil_r. destruct c as [? ? ? ? ? ? ? ? ? ? ? ? ? ? ? ? pkgs ?].
    destruct pkgs; reflexivity. }
  destruct (commandArgs !! "InstallPackages") as [v|] eqn:A.
  - destruct v; try discriminate. intros _. simpl assertInstallPackages. unfold rbind at 2.
    destruct (length l =? 0)%nat eqn:L; simpl negb; cbv iota.
    + rewrite orb_false_r. intros E. rewrite E. simpl negb. cbv iota.
      unfold rbind at 1. exact Hsame.
    + intros _. rewrite appendEach_installPackages. unfold rbind at 1. apply Hend.
  - intros _. rewrite orb_false_r. intros E. rewrite E. simpl.
    exact Hsame.
Qed.

(** When the environment layer of a mapping field is reached with a
    variable that is not empty, [reflect.Append] is given the parsed slice
    itself where an element is required, and panics, whatever the variable
    holds and whether or not it parses. *)
Lemma setPortMapSliceValue_env_panics (commandArgs : gmap string value) (os : OS)
    (c : UnmanagedClusterConfig) :
  wellTyped commandArgs FPortsToForward = true ->
  mappingEnvUnused commandArgs os FPortsToForward = false ->
  exists msg, setPortMapSliceValue commandArgs os c FPortsToForward = Panic msg.
Proof.
  unfold wellTyped, mappingEnvUnused, setPortMapSliceValue. cbv zeta.
  change (canonicalName FPortsToForward) with "PortsToForward".
  set (env := Getenv (environ os) (fieldNameToEnvName "PortsToForward")).
  destruct (commandArgs !! "PortsToForward") as [v|] eqn:A.
  - destruct v; try discriminate. intros _. simpl assertPortMaps. unfold rbind at 2.
    destruct (length l =? 0)%nat; simpl negb; cbv iota;
      [|rewrite orb_true_r; discriminate].
    rewrite orb_false_r. intros E. rewrite E. simpl. eauto.
  - intros _. rewrite orb_false_r. intros E. rewrite E. simpl. eauto.
Qed.

Lemma setInstallPackageSliceValue_env_panics (commandArgs : gmap string value) (os : OS)
    (c : UnmanagedClusterConfig) :
  wellTyped commandArgs FInstallPackages = true ->
  mappingEnvUnused commandArgs os FInstallPackages = false ->
  exists msg, setInstallPackageSliceValue commandArgs os c FInstallPackages = Panic msg.
Proof.
  unfold wellTyped, mappingEnvUnused, setInstallPackageSliceValue. cbv zeta.
  change (canonicalName FInstallPackages) with "InstallPackages".
  set (env := Getenv (environ os) (fieldNameToEnvName "InstallPackages")).
  destruct (commandArgs !! "InstallPackages") as [v|] eqn:A.
  - destruct v; try discriminate. intros _. simpl assertInstallPackages. unfold rbind at 2.
    destruct (length l =? 0)%nat; simpl negb; cbv iota;
      [|rewrite orb_true_r; discriminate].
    rewrite orb_false_r. intros E. rewrite E. simpl. eauto.
  - intros _. rewrite orb_false_r. intros E. rewrite E. simpl. eauto.
Qed.

(** ** The boolean setter *)

Lemma setBoolValue_spec (commandArgs : gmap string value) (os : OS)
    (c : UnmanagedClusterConfig) :
  wellTyped commandArgs FSkipPreflightChecks = true ->
  setBoolValue commandArgs os c FSkipPreflightChecks
  = Ok (reflect.storeSkip
          (match commandArgs !! "SkipPreflightChecks" with
           | Some (VBool b) => b
           | _ =>
               let value := Getenv (environ os) "TANZU_SKIP_PREFLIGHT_CHECKS" in
               if negb (String.eqb value "") then boolOfEnv value
               else SkipPreflightChecks c
           end) c).
Proof.
  unfold wellTyped, setBoolValue. cbv zeta.
  change (canonicalName FSkipPreflightChecks) with "SkipPreflightChecks".
  change (fieldNameToEnvName "SkipPreflightChecks") with "TANZU_SKIP_PREFLIGHT_CHECKS".
  rewrite default_SkipPreflightChecks.
  destruct (commandArgs !! "SkipPreflightChecks") as [v|] eqn:A.
  - destruct v; try discriminate. reflexivity.
  - intros _.
    destruct (String.eqb (Getenv (environ os) "TANZU_SKIP_PREFLIGHT_CHECKS") "");
      simpl; [now destruct c|reflexivity].
Qed.


(** ** The loop over the fields *)

Ltac norm_config :=
  cbn [rbind getString reflect.String_ reflect.FieldByName reflect.storeString
       reflect.storeOther reflect.storeRepos reflect.storePorts reflect.storeSkip
       reflect.storePackages
       ClusterName KubeconfigPath ExistingClusterKubeconfig NodeImage Provider
       ProviderConfiguration Cni CNIConfiguration PodCidr ServiceCidr TkrLocation
       AdditionalPackageRepos PortsToForward SkipPreflightChecks
       ControlPlaneNodeCount WorkerNodeCount InstallPackages LogFile].

Ltac setter_step Hwt :=
  first
    [ rewrite setStringValue_spec by (first [apply Hwt | reflexivity])
    | rewrite setStringSliceValue_spec by apply Hwt
    | rewrite setPortMapSliceValue_spec by (first [apply Hwt | assumption])
    | rewrite setInstallPackageSliceValue_spec by (first [apply Hwt | assumption])
    | rewrite setBoolValue_spec by apply Hwt ];
  norm_config.

Lemma setFields_resolved (commandArgs : gmap string value) (os : OS)
    (base : UnmanagedClusterConfig) :
  (forall f, wellTyped commandArgs f = true) ->
  mappingEnvUnused commandArgs os FPortsToForward = true ->
  mappingEnvUnused commandArgs os FInstallPackages = true ->
  setFields commandArgs os base fields = Ok (resolvedConfig commandArgs os base).
Proof.
  intros Hwt Hports Hpkgs. unfold fields.
  cbn [setFields reflect.FieldByName].
  destruct base.
  repeat setter_step Hwt.
  reflexivity.
Qed.

(** With well-typed arguments the loop panics exactly when the environment
    layer of one of the two mapping fields is reached. *)
Lemma setFields_mapping_env_panics (commandArgs : gmap string value) (os : OS)
    (base : UnmanagedClusterConfig) :
  (forall f, wellTyped commandArgs f = true) ->
  mappingEnvUnused commandArgs os FPortsToForward = false
  \/ mappingEnvUnused commandArgs os FInstallPackages = false ->
  exists msg, setFields commandArgs os base fields = Panic msg.
Proof.
  intros Hwt Hused. unfold fields.
  cbn [setFields reflect.FieldByName].
  destruct base.
  destruct (mappingEnvUnused commandArgs os FPortsToForward) eqn:Hports.
  - destruct Hused as [Hused|Hused]; [discriminate|].
    repeat setter_step Hwt.
    match goal with
    | |- context [setInstallPackageSliceValue commandArgs os ?c FInstallPackages] =>
        destruct (setInstallPackageSliceValue_env_panics commandArgs os c (Hwt _) Hused)
          as [msg E]; rewrite E
    end.
    cbn [rbind]. eauto.
  - repeat setter_step Hwt.
    match goal with
    | |- context [setPortMapSliceValue commandArgs os ?c FPortsToForward] =>
        destruct (setPortMapSliceValue_env_panics commandArgs os c (Hwt _) Hports)
          as [msg E]; rewrite E
    end.
    cbn [rbind]. eauto.
Qed.

Lemma InitializeConfiguration_merged
    (yaml_Unmarshal : string -> UnmanagedClusterConfig -> option UnmanagedClusterConfig)
    (commandArgs : gmap string value) (os : OS) (base merged : UnmanagedClusterConfig) :
  loadConfigFile yaml_Unmarshal commandArgs os = inl base ->
  setFields commandArgs os base fields = Ok merged ->
  InitializeConfiguration yaml_Unmarshal commandArgs os
  = if String.eqb (ClusterName merged) "" then Ok (None, Some ErrClusterName)
    else
      do path <- sanatizeKubeconfigPath os (ExistingClusterKubeconfig merged);
      Ok (Some (reflect.storeString FExistingClusterKubeconfig path merged), None).
Proof.
  intros Hload Hset. unfold InitializeConfiguration. now rewrite Hload, Hset.
Qed.

(** With well-typed arguments, the loop returns exactly when the
    environment layer of the two mapping fields is not reached, and what it
    returns is [resolvedConfig]. *)
Lemma setFields_returns (commandArgs : gmap string value) (os : OS)
    (base merged : UnmanagedClusterConfig) :
  (forall f, wellTyped commandArgs f = true) ->
  setFields commandArgs os base fields = Ok merged ->
  mappingEnvUnused commandArgs os FPortsToForward = true
  /\ mappingEnvUnused commandArgs os FInstallPackages = true
  /\ merged = resolvedConfig commandArgs os base.
Proof.
  intros Hwt Hset.
  destruct (mappingEnvUnused commandArgs os FPortsToForward) eqn:Hports.
  - destruct (mappingEnvUnused commandArgs os FInstallPackages) eqn:Hpkgs.
    + rewrite (setFields_resolved _ _ _ Hwt Hports Hpkgs) in Hset.
      injection Hset as <-. auto.
    + destruct (setFields_mapping_env_panics commandArgs os base Hwt (or_intror Hpkgs))
        as [msg E]. congruence.
  - destruct (setFields_mapping_env_panics commandArgs os base Hwt (or_introl Hports))
      as [msg E]. congruence.
Qed.

Lemma getString_resolvedConfig (commandArgs : gmap string value) (os : OS)
    (base : UnmanagedClusterConfig) (f : field) :
  isStringField f = true ->
  getString (resolvedConfig commandArgs os base) f
  = stringPrecedence (commandArgs !! canonicalName f)
      (Getenv (environ os) (fieldNameToEnvName (canonicalName f)))
      (getString base f) (defaultConfigValues !! canonicalName f).
Proof. destruct f; try discriminate; reflexivity. Qed.

Lemma sanatizeKubeconfigPath_returns (os : OS) (path : string) :
  currentUserHomeDir os <> None \/ strings.HasPrefix path "~/" = false ->
  exists p, sanatizeKubeconfigPath os path = Ok p.
Proof.
  unfold sanatizeKubeconfigPath. intros H.
  destruct (strings.HasPrefix path "~/") eqn:P.
  - destruct (currentUserHomeDir os) as [home|]; simpl; [eauto|].
    destruct H; congruence.
  - simpl. eauto.
Qed.

(** ** String fields *)

(** Claim C1. For every string field, the setter stores the explicit
    argument held under the field's canonical name when it is a non-empty
    string; otherwise the value of the derived environment variable when it
    is not empty; otherwise it keeps the value the field already holds (the
    one decoded from the file); and when the field is then still empty it
    stores the registered default, or leaves it empty when none is
    registered. No other field changes. After the field loop of
    [InitializeConfiguration] every string field holds that value, computed
    from the value decoded from the file, and the configuration returned
    holds it too, except in ExistingClusterKubeconfig, which is normalised
    afterwards. *)
Theorem string_field_precedence :
  (forall (commandArgs : gmap string value) (os : OS) (c : UnmanagedClusterConfig)
          (f : field),
     isStringField f = true -> wellTyped commandArgs f = true ->
     let name := canonicalName f in
     let env := Getenv (environ os) (fieldNameToEnvName name) in
     let file := getString c f in
     let dflt := defaultConfigValues !! name in
     exists v,
       setStringValue commandArgs os c f = Ok (reflect.storeString f v c)
       /\ getString (reflect.storeString f v c) f = v
       /\ (forall g, g <> f ->
           reflect.FieldByName (reflect.storeString f v c) g = reflect.FieldByName c g)
       /\ v = stringPrecedence (commandArgs !! name) env file dflt
       /\ (forall a, commandArgs !! name = Some (VString a) -> a <> "" -> v = a)
       /\ (commandArgs !! name = None \/ commandArgs !! name = Some (VString "") ->
           (env <> "" -> v = env)
           /\ (env = "" -> file <> "" -> v = file)
           /\ (env = "" -> file = "" -> forall d, dflt = Some (VString d) -> v = d)
           /\ (env = "" -> file = "" -> dflt = None -> v = "")))
  /\ (forall yaml_Unmarshal (commandArgs : gmap string value) (os : OS)
             (base merged : UnmanagedClusterConfig),
        loadConfigFile yaml_Unmarshal commandArgs os = inl base ->
        (forall f, wellTyped commandArgs f = true) ->
        setFields commandArgs os base fields = Ok merged ->
        (forall f, isStringField f = true ->
           getString merged f
           = stringPrecedence (commandArgs !! canonicalName f)
               (Getenv (environ os) (fieldNameToEnvName (canonicalName f)))
               (getString base f) (defaultConfigValues !! canonicalName f))
        /\ (ClusterName merged <> "" -> currentUserHomeDir os <> None ->
            exists cfg,
              InitializeConfiguration yaml_Unmarshal commandArgs os = Ok (Some cfg, None)
              /\ forall f, isStringField f = true -> f <> FExistingClusterKubeconfig ->
                 getString cfg f = getString merged f))
  /\ setStringValue {[ "Provider" := VString "X" ]} (exampleOS [("TANZU_PROVIDER", "Y")])
       (exampleFile "Z") FProvider
     = Ok (exampleFile "X")
  /\ setStringValue ∅ (exampleOS [("TANZU_PROVIDER", "Y")]) (exampleFile "Z") FProvider
     = Ok (exampleFile "Y")
  /\ setStringValue ∅ (exampleOS []) (exampleFile "Z") FProvider = Ok (exampleFile "Z")
  /\ setStringValue ∅ (exampleOS []) zeroConfig FProvider = Ok (exampleFile "kind")
  /\ setStringValue ∅ (exampleOS []) zeroConfig FLogFile = Ok zeroConfig.
Proof.
  split; [|split; [|repeat split; vm_compute; reflexivity]].
  - intros commandArgs os c f Hf Hwt name env file dflt.
    exists (stringPrecedence (commandArgs !! name) env file dflt).
    split; [now apply setStringValue_spec|].
    split; [now apply getString_storeString|].
    split; [intros g Hg; now apply FieldByName_storeString_other|].
    split; [reflexivity|]. split.
    + intros a -> Ha. simpl. now rewrite (eqb_empty_false a Ha).
    + intros H.
      assert (E' : stringPrecedence (commandArgs !! name) env file dflt
                   = stringPrecedence None env file dflt).
      { destruct H as [->| ->]; reflexivity. }
      rewrite E'. simpl. repeat split.
      * intros He. now rewrite (eqb_empty_false env He).
      * intros -> Hfile. simpl. now rewrite (eqb_empty_false file Hfile).
      * intros -> -> d ->. reflexivity.
      * intros -> -> ->. reflexivity.
  - intros yaml_Unmarshal commandArgs os base merged Hload Hwt Hset.
    destruct (setFields_returns _ _ _ _ Hwt Hset) as (_ & _ & Hmerged).
    split.
    + intros f Hf. rewrite Hmerged. now apply getString_resolvedConfig.
    + intros Hname Hhome.
      rewrite (InitializeConfiguration_merged _ _ _ _ _ Hload Hset).
      rewrite (eqb_empty_false _ Hname).
      destruct (sanatizeKubeconfigPath_returns os (ExistingClusterKubeconfig merged))
        as [p Hp]; [now left|].
      rewrite Hp. cbn [rbind]. eexists. split; [reflexivity|].
      intros f Hf Hne. unfold getString.
      now rewrite FieldByName_storeString_other by assumption.
Qed.

Lemma string_field_precedence_witness :
  isStringField FProvider = true
  /\ wellTyped {[ "Provider" := VString "minikube" ]} FProvider = true
  /\ exists v,
       setStringValue {[ "Provider" := VString "minikube" ]}
         (exampleOS [("TANZU_PROVIDER", "none")]) (exampleFile "kind") FProvider
       = Ok (reflect.storeString FProvider v (exampleFile "kind"))
       /\ v = "minikube".
Proof.
  split; [reflexivity|]. split; [reflexivity|].
  destruct (proj1 string_field_precedence {[ "Provider" := VString "minikube" ]}
              (exampleOS [("TANZU_PROVIDER", "none")]) (exampleFile "kind") FProvider
              ltac:(reflexivity) ltac:(vm_compute; reflexivity)) as
    (v & Hset & _ & _ & _ & Harg & _).
  exists v. split; [exact Hset|].
  apply Harg; [reflexivity|discriminate].
Defined.

(** ** Paths *)

Lemma Split_app_sep (a b : string) (sep : ascii) :
  strings.Split (a +:+ String sep b) sep = strings.Split a sep ++ strings.Split b sep.
Proof.
  induction a as [|c r IH].
  - rewrite ?append_Empty. simpl. now rewrite Ascii.eqb_refl.
  - rewrite ?append_String. simpl. rewrite IH.
    destruct (Ascii.eqb c sep); [reflexivity|].
    destruct (strings.Split r sep) as [|w ws] eqn:E; [|reflexivity].
    now destruct (Split_not_nil r sep).
Qed.

Lemma Split_Join (es : list string) (sep : ascii) :
  es <> [] -> Forall (fun e => strings.count sep e = 0%nat) es ->
  strings.Split (strings.Join es (String sep "")) sep = es.
Proof.
  induction es as [|e es IH]; [congruence|]. intros _ H.
  inversion H as [|? ? He Hes]; subst.
  destruct es as [|e' es].
  - simpl. now apply Split_without_sep.
  - rewrite Join_cons by discriminate.
    change (e +:+ String sep "" +:+ strings.Join (e' :: es) (String sep ""))
      with (e +:+ String sep (strings.Join (e' :: es) (String sep ""))).
    rewrite Split_app_sep, (Split_without_sep e sep He), IH by (auto; discriminate).
    reflexivity.
Qed.

Lemma Join_app (hs rs : list string) (sep : string) :
  hs <> [] -> rs <> [] ->
  strings.Join (hs ++ rs) sep = strings.Join hs sep +:+ sep +:+ strings.Join rs sep.
Proof.
  induction hs as [|h hs IH]; [congruence|]. intros _ Hrs.
  destruct hs as [|h' hs].
  - simpl app. now rewrite Join_cons.
  - change ((h :: h' :: hs) ++ rs) with (h :: ((h' :: hs) ++ rs)).
    rewrite Join_cons by discriminate. rewrite IH by (auto; discriminate).
    rewrite (Join_cons h (h' :: hs)) by discriminate.
    now rewrite !append_assoc.
Qed.

Lemma plainElement_spec (e : string) :
  plainElement e = true ->
  String.eqb e "" = false /\ String.eqb e "." = false /\ String.eqb e ".." = false
  /\ strings.count "/" e = 0%nat.
Proof.
  unfold plainElement. rewrite !andb_true_iff, !negb_true_iff, Nat.eqb_eq. tauto.
Qed.

(** Elements that are empty or plain: the empty ones go, the others stay. *)
Lemma cleanElements_plain (isRooted : bool) (es : list string) :
  Forall (fun e => e = "" \/ plainElement e = true) es ->
  forall out,
    filepath.cleanElements isRooted es out
    = rev out ++ List.filter (fun e => negb (String.eqb e "")) es.
Proof.
  induction 1 as [|e es [->|He] Hes IH]; intros out; simpl.
  - now rewrite app_nil_r.
  - apply IH.
  - destruct (plainElement_spec e He) as (E0 & E1 & E2 & _).
    rewrite E0, E1, E2. simpl. rewrite IH. simpl. now rewrite <- app_assoc.
Qed.

Lemma filter_plain (es : list string) :
  Forall (fun e => plainElement e = true) es ->
  List.filter (fun e => negb (String.eqb e "")) es = es.
Proof.
  induction 1 as [|e es He Hes IH]; simpl; [reflexivity|].
  destruct (plainElement_spec e He) as (E0 & _). rewrite E0. simpl. now rewrite IH.
Qed.

(** [Clean] of a rooted path written with plain elements, also when the
    separator is doubled after the root. *)
Lemma Clean_rooted_plain (es : list string) (extra : bool) :
  Forall (fun e => plainElement e = true) es -> es <> [] ->
  filepath.Clean (String "/" ((if extra then "/" else "") +:+ strings.Join es "/"))
  = String "/" (strings.Join es "/").
Proof.
  intros Hes Hne. unfold filepath.Clean.
  change (String.eqb (String "/" _) "") with false. cbv iota.
  change (filepath.rooted (String "/" _)) with true. cbv iota zeta.
  f_equal. f_equal.
  assert (Hsep : Forall (fun e => strings.count "/" e = 0%nat) es).
  { eapply List.Forall_impl; [|exact Hes]. intros e He. now apply plainElement_spec. }
  assert (Hsplit : strings.Split (String "/" ((if extra then "/" else "")
                                              +:+ strings.Join es "/")) "/"
                   = (if extra then [""; ""] else [""]) ++ es).
  { destruct extra.
    - change ("/" +:+ strings.Join es "/") with (String "/" (strings.Join es "/")).
      simpl. now rewrite (Split_Join es "/" Hne Hsep).
    - rewrite append_Empty. simpl. now rewrite (Split_Join es "/" Hne Hsep). }
  rewrite Hsplit, cleanElements_plain.
  - simpl rev. rewrite app_nil_l, List.filter_app, (filter_plain es Hes).
    now destruct extra.
  - apply List.Forall_app. split.
    + destruct extra; repeat constructor; auto.
    + eapply List.Forall_impl; [|exact Hes]. auto.
Qed.


(** ** The kubeconfig path *)

Lemma HasPrefix_tilde (rest : string) : strings.HasPrefix ("~/" +:+ rest) "~/" = true.
Proof.
  unfold strings.HasPrefix.
  change ("~/" +:+ rest) with (String "~" (String "/" rest)).
  simpl. destruct rest; reflexivity.
Qed.

Lemma sanatizeKubeconfigPath_tilde (os : OS) (home rest : string) :
  currentUserHomeDir os = Some home ->
  sanatizeKubeconfigPath os ("~/" +:+ rest)
  = Ok (filepath.Join [filepath.Join [""; home]; rest]).
Proof.
  intros H. unfold sanatizeKubeconfigPath.
  rewrite HasPrefix_tilde, H. reflexivity.
Qed.

Lemma sanatizeKubeconfigPath_no_tilde (os : OS) (path : string) :
  strings.HasPrefix path "~/" = false ->
  sanatizeKubeconfigPath os path = Ok (filepath.Join [""; path]).
Proof. intros H. unfold sanatizeKubeconfigPath. rewrite H. reflexivity. Qed.

Lemma Join_home_plain (hs : list string) :
  Forall (fun e => plainElement e = true) hs ->
  filepath.Join [""; String "/" (strings.Join hs "/")] = String "/" (strings.Join hs "/").
Proof.
  intros H. cbn [filepath.Join]. change (String.eqb "" "") with true. cbv iota.
  change (String.eqb (String "/" (strings.Join hs "/")) "") with false. cbv iota.
  cbn [strings.Join].
  destruct hs as [|h hs]; [reflexivity|].
  apply (Clean_rooted_plain (h :: hs) false); [exact H|discriminate].
Qed.

Lemma Join_home_rest_plain (hs rs : list string) :
  Forall (fun e => plainElement e = true) hs ->
  Forall (fun e => plainElement e = true) rs -> rs <> [] ->
  filepath.Join [String "/" (strings.Join hs "/"); strings.Join rs "/"]
  = String "/" (strings.Join (hs ++ rs) "/").
Proof.
  intros Hhs Hrs Hne. cbn [filepath.Join].
  change (String.eqb (String "/" (strings.Join hs "/")) "") with false. cbv iota.
  rewrite Join_cons by discriminate. cbn [strings.Join].
  rewrite append_String.
  destruct hs as [|h hs].
  - exact (Clean_rooted_plain rs true Hrs Hne).
  - rewrite <- Join_app by (auto; discriminate).
    apply (Clean_rooted_plain ((h :: hs) ++ rs) false); [|discriminate].
    apply List.Forall_app. auto.
Qed.

(** Claim C8. When the field loop leaves in ExistingClusterKubeconfig a
    value that starts with "~/", what [InitializeConfiguration] returns in
    that field is the join of the home directory and of the rest of the
    path, computed once, after the loop and the cluster-name check; every
    other field is as the loop left it, and the value the loop leaves is the
    explicit argument, else the environment variable, else the value from
    the file. For a home directory and a rest written with plain elements
    the result is the home directory, a separator and the rest: a further
    "~" in the rest is kept, and "~/kc.yaml" gives <home>/kc.yaml. A value
    without the prefix is not expanded. *)
Theorem kubeconfig_tilde_expansion :
  (forall yaml_Unmarshal (commandArgs : gmap string value) (os : OS)
          (base merged : UnmanagedClusterConfig) (home rest : string),
     loadConfigFile yaml_Unmarshal commandArgs os = inl base ->
     setFields commandArgs os base fields = Ok merged ->
     ClusterName merged <> "" ->
     currentUserHomeDir os = Some home ->
     ExistingClusterKubeconfig merged = "~/" +:+ rest ->
     exists cfg,
       InitializeConfiguration yaml_Unmarshal commandArgs os = Ok (Some cfg, None)
       /\ ExistingClusterKubeconfig cfg = filepath.Join [filepath.Join [""; home]; rest]
       /\ (forall g, g <> FExistingClusterKubeconfig ->
           reflect.FieldByName cfg g = reflect.FieldByName merged g)
       /\ ((forall f, wellTyped commandArgs f = true) ->
           ExistingClusterKubeconfig merged
           = stringPrecedence (commandArgs !! "ExistingClusterKubeconfig")
               (Getenv (environ os) "TANZU_EXISTING_CLUSTER_KUBECONFIG")
               (ExistingClusterKubeconfig base) None)
       /\ (forall hs rs,
             Forall (fun e => plainElement e = true) hs ->
             Forall (fun e => plainElement e = true) rs -> rs <> [] ->
             home = String "/" (strings.Join hs "/") -> rest = strings.Join rs "/" ->
             ExistingClusterKubeconfig cfg = String "/" (strings.Join (hs ++ rs) "/")
             /\ (hs <> [] -> ExistingClusterKubeconfig cfg = home +:+ "/" +:+ rest)))
  /\ (forall os home rest,
        currentUserHomeDir os = Some home ->
        sanatizeKubeconfigPath os ("~/" +:+ rest)
        = Ok (filepath.Join [filepath.Join [""; home]; rest]))
  /\ (forall os hs,
        Forall (fun e => plainElement e = true) hs -> hs <> [] ->
        currentUserHomeDir os = Some (String "/" (strings.Join hs "/")) ->
        sanatizeKubeconfigPath os "~/kc.yaml"
        = Ok (String "/" (strings.Join hs "/") +:+ "/kc.yaml"))
  /\ (forall os path,
        strings.HasPrefix path "~/" = false ->
        sanatizeKubeconfigPath os path = Ok (filepath.Join [""; path]))
  /\ returnedField FExistingClusterKubeconfig
       (InitializeConfiguration exampleUnmarshal
          {[ "ClusterName" := VString "x";
             "ExistingClusterKubeconfig" := VString "~/kc.yaml" ]}
          (exampleOS []))
     = Some (VString "/home/user/kc.yaml")
  /\ returnedField FExistingClusterKubeconfig
       (InitializeConfiguration exampleUnmarshal
          {[ "ClusterName" := VString "x" ]}
          (exampleOS [("TANZU_EXISTING_CLUSTER_KUBECONFIG", "~/kc.yaml")]))
     = Some (VString "/home/user/kc.yaml")
  /\ returnedField FExistingClusterKubeconfig
       (InitializeConfiguration exampleUnmarshal
          {[ "ClusterName" := VString "x";
             "ClusterConfigFile" := VString "cluster.yaml" ]}
          (exampleOSWithFile [] "ExistingClusterKubeconfig: ~/kc.yaml"))
     = Some (VString "/home/user/kc.yaml")
  /\ sanatizeKubeconfigPath (exampleOS []) "~/~/kc.yaml" = Ok "/home/user/~/kc.yaml".
Proof.
  split; [|split; [|split; [|split; [|repeat split; vm_compute; reflexivity]]]].
  - intros yaml_Unmarshal commandArgs os base merged home rest
      Hload Hset Hname Hhome Hpath.
    rewrite (InitializeConfiguration_merged _ _ _ _ _ Hload Hset).
    rewrite (eqb_empty_false _ Hname).
    rewrite Hpath, (sanatizeKubeconfigPath_tilde os home rest Hhome). cbn [rbind].
    eexists. split; [reflexivity|]. split; [reflexivity|]. split; [|split].
    + intros g Hg. now apply FieldByName_storeString_other.
    + intros Hwt. destruct (setFields_returns _ _ _ _ Hwt Hset) as (_ & _ & Hmerged).
      rewrite <- Hpath, Hmerged. reflexivity.
    + intros hs rs Hhs Hrs Hne -> ->.
      cbn [ExistingClusterKubeconfig reflect.storeString].
      rewrite (Join_home_plain hs Hhs), (Join_home_rest_plain hs rs Hhs Hrs Hne).
      split; [reflexivity|]. intros Hhne.
      rewrite (Join_app hs rs "/" Hhne Hne). now rewrite append_String.
  - exact sanatizeKubeconfigPath_tilde.
  - intros os hs Hhs Hne Hhome.
    change "~/kc.yaml" with ("~/" +:+ "kc.yaml").
    rewrite (sanatizeKubeconfigPath_tilde os _ "kc.yaml" Hhome).
    rewrite (Join_home_plain hs Hhs).
    change "kc.yaml" with (strings.Join ["kc.yaml"] "/") at 1.
    rewrite (Join_home_rest_plain hs ["kc.yaml"] Hhs) by (repeat constructor; discriminate).
    rewrite (Join_app hs ["kc.yaml"] "/" Hne) by discriminate.
    rewrite append_String. reflexivity.
  - exact sanatizeKubeconfigPath_no_tilde.
Qed.

Lemma kubeconfig_tilde_expansion_witness :
  let commandArgs : gmap string value :=
    {[ "ClusterName" := VString "x";
       "ClusterConfigFile" := VString "cluster.yaml" ]} in
  let os := exampleOSWithFile [] "ExistingClusterKubeconfig: ~/kc.yaml" in
  exists cfg,
    InitializeConfiguration exampleUnmarshal commandArgs os = Ok (Some cfg, None)
    /\ ExistingClusterKubeconfig cfg
       = filepath.Join [filepath.Join [""; "/home/user"]; "kc.yaml"].
Proof.
  intros commandArgs os.
  pose (base := reflect.storeString FExistingClusterKubeconfig "~/kc.yaml" zeroConfig).
  destruct (proj1 kubeconfig_tilde_expansion exampleUnmarshal commandArgs os
              base (resolvedConfig commandArgs os base) "/home/user" "kc.yaml"
              ltac:(vm_compute; reflexivity)
              ltac:(vm_compute; reflexivity)
              ltac:(vm_compute; discriminate)
              ltac:(reflexivity)
              ltac:(vm_compute; reflexivity)) as (cfg & Hinit & Hpath & _).
  exists cfg. split; [exact Hinit|exact Hpath].
Defined.

(** ** The cluster name *)

(** Claim C4, as amended. A name alone does not make
    [InitializeConfiguration] succeed: a configuration file that is named
    and cannot be read or decoded is reported with its own error, whatever
    name is supplied. For arguments of the right types, a file (if one is named) that is read and
    decoded, and no mapping variable reaching its setter, the call returns:
    the cluster-name error and no configuration when the name is empty in
    all three sources, and otherwise, when the kubeconfig path needs no
    home directory or there is one, a configuration whose cluster name is
    the name supplied: the explicit argument, else the environment
    variable, else the name from the file. No default is registered for the
    name. No configuration is ever returned together with an error, and a
    configuration that is returned has a cluster name. *)
Theorem cluster_name_required :
  (forall yaml_Unmarshal (commandArgs : gmap string value) (os : OS)
          (base : UnmanagedClusterConfig),
     (forall f, wellTyped commandArgs f = true) ->
     loadConfigFile yaml_Unmarshal commandArgs os = inl base ->
     mappingEnvUnused commandArgs os FPortsToForward = true ->
     mappingEnvUnused commandArgs os FInstallPackages = true ->
     let arg := commandArgs !! "ClusterName" in
     let env := Getenv (environ os) "TANZU_CLUSTER_NAME" in
     let name := stringPrecedence arg env (ClusterName base) None in
     let path :=
       stringPrecedence (commandArgs !! "ExistingClusterKubeconfig")
         (Getenv (environ os) "TANZU_EXISTING_CLUSTER_KUBECONFIG")
         (ExistingClusterKubeconfig base) None in
     (name = "" ->
      InitializeConfiguration yaml_Unmarshal commandArgs os = Ok (None, Some ErrClusterName))
     /\ (name <> "" ->
         currentUserHomeDir os <> None \/ strings.HasPrefix path "~/" = false ->
         exists cfg,
           InitializeConfiguration yaml_Unmarshal commandArgs os = Ok (Some cfg, None)
           /\ ClusterName cfg = name)
     /\ (forall a, arg = Some (VString a) -> a <> "" -> name = a)
     /\ (arg = None \/ arg = Some (VString "") -> env <> "" -> name = env)
     /\ (arg = None \/ arg = Some (VString "") -> env = "" -> name = ClusterName base)
     /\ (name = "" <->
         (arg = None \/ arg = Some (VString "")) /\ env = "" /\ ClusterName base = ""))
  /\ (forall yaml_Unmarshal (commandArgs : gmap string value) (os : OS) e,
        loadConfigFile yaml_Unmarshal commandArgs os = inr e ->
        InitializeConfiguration yaml_Unmarshal commandArgs os = Ok (None, Some e))
  /\ (forall yaml_Unmarshal (commandArgs : gmap string value) (os : OS) config err,
        InitializeConfiguration yaml_Unmarshal commandArgs os = Ok (config, Some err) ->
        config = None)
  /\ (forall yaml_Unmarshal (commandArgs : gmap string value) (os : OS) config,
        InitializeConfiguration yaml_Unmarshal commandArgs os = Ok (config, None) ->
        exists cfg, config = Some cfg /\ ClusterName cfg <> "")
  /\ defaultConfigValues !! "ClusterName" = None
  /\ InitializeConfiguration exampleUnmarshal ∅ (exampleOS [])
     = Ok (None, Some ErrClusterName)
  /\ returnedField FClusterName
       (InitializeConfiguration exampleUnmarshal {[ "ClusterName" := VString "x" ]}
          (exampleOS []))
     = Some (VString "x")
  /\ returnedField FClusterName
       (InitializeConfiguration exampleUnmarshal ∅
          (exampleOS [("TANZU_CLUSTER_NAME", "from-env")]))
     = Some (VString "from-env")
  /\ returnedField FClusterName
       (InitializeConfiguration exampleUnmarshal
          {[ "ClusterConfigFile" := VString "cluster.yaml" ]}
          (exampleOSWithFile [] "ClusterName: from-file"))
     = Some (VString "from-file").
Proof.
  split; [|split; [|split; [|split; [|repeat split; vm_compute; reflexivity]]]].
  - intros yaml_Unmarshal commandArgs os base Hwt Hload Hports Hpkgs arg env name path.
    pose proof (InitializeConfiguration_merged _ _ _ _ _ Hload
                  (setFields_resolved _ _ base Hwt Hports Hpkgs)) as Hinit.
    change (ClusterName (resolvedConfig commandArgs os base)) with name in Hinit.
    change (ExistingClusterKubeconfig (resolvedConfig commandArgs os base))
      with path in Hinit.
    assert (Hwt1 := wellTyped_string_field commandArgs FClusterName eq_refl (Hwt _)).
    change (canonicalName FClusterName) with "ClusterName" in Hwt1. fold arg in Hwt1.
    split; [|split; [|split; [|split; [|split]]]].
    + intros E. rewrite Hinit, E. reflexivity.
    + intros Hne Hhome. rewrite Hinit, (eqb_empty_false _ Hne).
      destruct (sanatizeKubeconfigPath_returns os _ Hhome) as [p Hp].
      rewrite Hp. cbn [rbind]. eexists. split; reflexivity.
    + intros a Ha Hne. unfold name. rewrite Ha. simpl. now rewrite (eqb_empty_false a Hne).
    + intros Harg Hne. unfold name.
      destruct Harg as [-> | ->]; simpl; now rewrite (eqb_empty_false env Hne).
    + intros Harg He. unfold name. rewrite He.
      destruct Harg as [-> | ->]; simpl; now destruct (ClusterName base).
    + unfold name. clear Hinit. split.
      * destruct Hwt1 as [-> | [a ->]]; simpl.
        -- destruct (String.eqb_spec env "") as [->|He]; simpl; [|tauto].
           destruct (String.eqb_spec (ClusterName base) "") as [->|Hb]; simpl; tauto.
        -- destruct (String.eqb_spec a "") as [->|Ha]; simpl; [|tauto].
           destruct (String.eqb_spec env "") as [->|He]; simpl; [|tauto].
           destruct (String.eqb_spec (ClusterName base) "") as [->|Hb]; simpl; tauto.
      * intros (Harg & -> & ->). destruct Harg as [-> | ->]; reflexivity.
  - intros yaml_Unmarshal commandArgs os e Hload. unfold InitializeConfiguration.
    now rewrite Hload.
  - intros yaml_Unmarshal commandArgs os config err. unfold InitializeConfiguration.
    destruct (loadConfigFile _ _ _) as [base|e]; [|now intros [= <- _]].
    destruct (setFields _ _ _ _) as [c|m]; cbn [rbind]; [|discriminate].
    destruct (String.eqb (ClusterName c) ""); [now intros [= <- _]|].
    destruct (sanatizeKubeconfigPath _ _); cbn [rbind]; discriminate.
  - intros yaml_Unmarshal commandArgs os config. unfold InitializeConfiguration.
    destruct (loadConfigFile _ _ _) as [base|e]; [|discriminate].
    destruct (setFields _ _ _ _) as [c|m]; cbn [rbind]; [|discriminate].
    destruct (String.eqb_spec (ClusterName c) "") as [E|E]; [discriminate|].
    destruct (sanatizeKubeconfigPath _ _); cbn [rbind]; [|discriminate].
    intros [= <-]. eexists. split; [reflexivity|]. exact E.
Qed.

Lemma cluster_name_required_witness :
  let commandArgs : gmap string value := {[ "ClusterName" := VString "x" ]} in
  exists cfg,
    InitializeConfiguration exampleUnmarshal commandArgs (exampleOS []) = Ok (Some cfg, None)
    /\ ClusterName cfg = "x".
Proof.
  intros commandArgs.
  destruct (proj1 cluster_name_required exampleUnmarshal commandArgs (exampleOS [])
              zeroConfig
              ltac:(intros f; destruct f; vm_compute; reflexivity)
              ltac:(vm_compute; reflexivity)
              ltac:(vm_compute; reflexivity)
              ltac:(vm_compute; reflexivity)) as (_ & Hok & _).
  exact (Hok ltac:(vm_compute; discriminate) ltac:(left; vm_compute; discriminate)).
Defined.

(** The claim as written fails: a cluster name is supplied, the file named
    beside it does not exist, and the call returns the error of the file
    and no configuration. *)
Lemma cluster_name_supplied_file_unreadable :
  let commandArgs : gmap string value :=
    {[ "ClusterName" := VString "x"; "ClusterConfigFile" := VString "missing.yaml" ]} in
  commandArgs !! "ClusterName" = Some (VString "x")
  /\ files (exampleOS []) !! "missing.yaml" = None
  /\ InitializeConfiguration exampleUnmarshal commandArgs (exampleOS [])
     = Ok (None, Some (ErrReadFile "missing.yaml"))
  /\ ~ (exists cfg,
          InitializeConfiguration exampleUnmarshal commandArgs (exampleOS [])
          = Ok (Some cfg, None)).
Proof.
  intros commandArgs.
  assert (H : InitializeConfiguration exampleUnmarshal commandArgs (exampleOS [])
              = Ok (None, Some (ErrReadFile "missing.yaml")))
    by (vm_compute; reflexivity).
  split; [vm_compute; reflexivity|]. split; [vm_compute; reflexivity|].
  split; [exact H|]. intros [cfg Hc]. rewrite H in Hc. discriminate.
Qed.

(** ** Sequences from several sources *)

(** Claim C2, at the input where the code departs from it: with the
    explicit argument ["a"] and the file value ["b"; "c"] for
    AdditionalPackageRepos, the setter appends the argument's elements to
    the slice decoded from the file, and the field ends as ["b"; "c"; "a"],
    not ["a"]; the elements of the environment variable are appended to the
    file's in the same way. *)
Theorem explicit_sequence_appended_to_file_value :
  setStringSliceValue {[ "AdditionalPackageRepos" := VStrings ["a"] ]} (exampleOS [])
    (reflect.storeRepos ["b"; "c"] zeroConfig) FAdditionalPackageRepos
  = Ok (reflect.storeRepos ["b"; "c"; "a"] zeroConfig)
  /\ returnedField FAdditionalPackageRepos
       (InitializeConfiguration exampleUnmarshal
          {[ "ClusterName" := VString "x";
             "ClusterConfigFile" := VString "cluster.yaml";
             "AdditionalPackageRepos" := VStrings ["a"] ]}
          (exampleOSWithFile [] "AdditionalPackageRepos: [b, c]"))
     = Some (VStrings ["b"; "c"; "a"])
  /\ returnedField FAdditionalPackageRepos
       (InitializeConfiguration exampleUnmarshal
          {[ "ClusterName" := VString "x";
             "ClusterConfigFile" := VString "cluster.yaml" ]}
          (exampleOSWithFile [("TANZU_ADDITIONAL_PACKAGE_REPOS", "d,e")]
             "AdditionalPackageRepos: [b, c]"))
     = Some (VStrings ["b"; "c"; "d"; "e"])
  /\ setPortMapSliceValue {[ "PortsToForward" := VPortMaps [mkPortMap "" 0 80 ""] ]}
       (exampleOS []) (reflect.storePorts [mkPortMap "" 0 443 ""] zeroConfig) FPortsToForward
     = Ok (reflect.storePorts [mkPortMap "" 0 443 ""; mkPortMap "" 0 80 ""] zeroConfig)
  /\ setInstallPackageSliceValue
       {[ "InstallPackages" := VInstallPackages [mkInstallPackage "p" "" "" ""] ]}
       (exampleOS []) (reflect.storePackages [mkInstallPackage "q" "" "" ""] zeroConfig)
       FInstallPackages
     = Ok (reflect.storePackages
             [mkInstallPackage "q" "" "" ""; mkInstallPackage "p" "" "" ""] zeroConfig).
Proof. repeat split; vm_compute; reflexivity. Qed.

(** ** Setters that do not return *)

(** Claim C3, at the input where the code departs from it: with no
    explicit argument and a PortsToForward or InstallPackages environment
    variable that is not empty, the setter does not fall through to the
    default layer but panics, in [reflect.Append], which is given the whole
    parsed slice where one element of it is required; this happens for a
    malformed variable and for a well-formed one, and the panic leaves
    [InitializeConfiguration]. The boolean part of the claim holds: a
    malformed boolean variable is read as false. *)
Theorem mapping_env_layer_panics :
  setPortMapSliceValue ∅ (exampleOS [("TANZU_PORTS_TO_FORWARD", "not-a-port")])
    zeroConfig FPortsToForward
  = Panic "reflect.Set: value is not assignable to the element type of the slice"
  /\ setPortMapSliceValue ∅ (exampleOS [("TANZU_PORTS_TO_FORWARD", "80:8080")])
       zeroConfig FPortsToForward
     = Panic "reflect.Set: value is not assignable to the element type of the slice"
  /\ setInstallPackageSliceValue ∅ (exampleOS [("TANZU_INSTALL_PACKAGES", "a:b:c:d:e")])
       zeroConfig FInstallPackages
     = Panic "reflect.Set: value is not assignable to the element type of the slice"
  /\ setInstallPackageSliceValue ∅ (exampleOS [("TANZU_INSTALL_PACKAGES", "pkg:1.2.3")])
       zeroConfig FInstallPackages
     = Panic "reflect.Set: value is not assignable to the element type of the slice"
  /\ InitializeConfiguration exampleUnmarshal {[ "ClusterName" := VString "x" ]}
       (exampleOS [("TANZU_PORTS_TO_FORWARD", "not-a-port")])
     = Panic "reflect.Set: value is not assignable to the element type of the slice"
  /\ setBoolValue ∅ (exampleOS [("TANZU_SKIP_PREFLIGHT_CHECKS", "maybe")])
       (reflect.storeSkip true zeroConfig) FSkipPreflightChecks
     = Ok zeroConfig
  /\ setBoolValue ∅ (exampleOS [("TANZU_SKIP_PREFLIGHT_CHECKS", "T")])
       zeroConfig FSkipPreflightChecks
     = Ok (reflect.storeSkip true zeroConfig).
Proof. repeat split; vm_compute; reflexivity. Qed.

(** * Further properties *)

(** ** More facts about strings *)

Lemma count_append (c : ascii) (a b : string) :
  strings.count c (a +:+ b) = (strings.count c a + strings.count c b)%nat.
Proof.
  induction a as [|d r IH]; [reflexivity|].
  rewrite ?append_String; simpl. rewrite IH. lia.
Qed.

Lemma count_String (c d : ascii) (r : string) :
  strings.count c (String d r)
  = ((if Ascii.eqb d c then 1 else 0) + strings.count c r)%nat.
Proof. reflexivity. Qed.

(** No part of a split holds the separator, and a part holds no more of
    any byte than the string does. *)
Lemma Split_parts_without_sep (s : string) (sep : ascii) :
  Forall (fun e => strings.count sep e = 0%nat) (strings.Split s sep).
Proof.
  induction s as [|c r IH]; simpl; [repeat constructor|].
  destruct (Ascii.eqb c sep) eqn:E; [constructor; [reflexivity|exact IH]|].
  destruct (strings.Split r sep) as [|w ws]; [repeat constructor; simpl; now rewrite E|].
  inversion IH; subst. constructor; [|assumption]. simpl. now rewrite E.
Qed.

Lemma Split_parts_count_le (s : string) (sep c : ascii) :
  Forall (fun e => (strings.count c e <= strings.count c s)%nat) (strings.Split s sep).
Proof.
  induction s as [|d r IH]; simpl; [repeat constructor|].
  destruct (Ascii.eqb d sep).
  - constructor; [simpl; lia|].
    eapply List.Forall_impl; [|exact IH]. simpl. intros; lia.
  - destruct (strings.Split r sep) as [|w ws].
    + repeat constructor. simpl. lia.
    + inversion IH; subst. constructor; [simpl; lia|].
      eapply List.Forall_impl; [|eassumption]. simpl. intros; lia.
Qed.

Lemma Join_Split (s : string) (sep : ascii) :
  strings.Join (strings.Split s sep) (String sep "") = s.
Proof.
  induction s as [|c r IH]; [reflexivity|]. simpl.
  destruct (Ascii.eqb_spec c sep) as [->|Hne].
  - rewrite Join_cons by apply Split_not_nil. now rewrite IH.
  - destruct (strings.Split r sep) as [|w ws] eqn:E; [now destruct (Split_not_nil r sep)|].
    destruct ws as [|w' ws].
    + simpl in *. now rewrite IH.
    + rewrite Join_cons by discriminate. rewrite Join_cons in IH by discriminate.
      rewrite append_String. now rewrite IH.
Qed.

(** ** The batch of port mappings *)

Lemma parsePortMappingsFrom_acc (l : list string) (acc : list PortMap) :
  parsePortMappingsFrom acc l
  = match parsePortMappingsFrom [] l with
    | (rs, None) => (acc ++ rs, None)
    | (_, Some e) => ([], Some e)
    end.
Proof.
  revert acc. induction l as [|pm l IH]; intros acc; simpl.
  - now rewrite app_nil_r.
  - destruct (parsePortMapping pm) as [r|e]; [|reflexivity].
    rewrite (IH (acc ++ [r])), (IH [r]).
    destruct (parsePortMappingsFrom [] l) as [rs [e|]]; [reflexivity|].
    now rewrite <- app_assoc.
Qed.

Lemma parsePortMappingsFrom_error_nil (l : list string) (acc rs : list PortMap) (e : error) :
  parsePortMappingsFrom acc l = (rs, Some e) -> rs = [].
Proof.
  revert acc. induction l as [|pm l IH]; intros acc; simpl; [discriminate|].
  destruct (parsePortMapping pm); [apply IH|now intros [= <- _]].
Qed.

Lemma ParsePortMappings_success_inv (l : list string) (rs : list PortMap) :
  ParsePortMappings l = (rs, None) ->
  Forall2 (fun pm r => parsePortMapping pm = inl r) l rs.
Proof.
  unfold ParsePortMappings. revert rs. induction l as [|pm l IH]; intros rs; simpl.
  - intros [= <-]. constructor.
  - destruct (parsePortMapping pm) as [r|e] eqn:E; [|discriminate].
    rewrite parsePortMappingsFrom_acc.
    destruct (parsePortMappingsFrom [] l) as [rs' [e|]] eqn:R; [discriminate|].
    intros [= <-]. constructor; [exact E|]. now apply IH.
Qed.

(** Extra X1. A batch succeeds exactly when every string parses, and
    then returns the records of the strings, one for each and in their
    order; the batch of two lists put end to end is the result of the first
    followed by the result of the second, or the first error met. *)
Theorem ParsePortMappings_batch :
  (forall l rs,
     ParsePortMappings l = (rs, None)
     <-> Forall2 (fun pm r => parsePortMapping pm = inl r) l rs)
  /\ (forall l rs, ParsePortMappings l = (rs, None) -> length rs = length l)
  /\ (forall l rs e, ParsePortMappings l = (rs, Some e) -> rs = [])
  /\ (forall a b,
        ParsePortMappings (a ++ b)
        = match ParsePortMappings a with
          | (ra, None) =>
              match ParsePortMappings b with
              | (rb, None) => (ra ++ rb, None)
              | (_, Some e) => ([], Some e)
              end
          | (_, Some e) => ([], Some e)
          end).
Proof.
  split; [|split; [|split]].
  - intros l rs. split; [apply ParsePortMappings_success_inv|].
    intros H. unfold ParsePortMappings. now rewrite (parsePortMappingsFrom_ok l [] rs H).
  - intros l rs H. apply ParsePortMappings_success_inv in H.
    symmetry. eapply Forall2_length; eauto.
  - intros l rs e. apply parsePortMappingsFrom_error_nil.
  - intros a b. unfold ParsePortMappings.
    induction a as [|pm a IH]; simpl.
    + destruct (parsePortMappingsFrom [] b) as [rb [e|]] eqn:R; [|reflexivity].
      now rewrite (parsePortMappingsFrom_error_nil _ _ _ _ R).
    + destruct (parsePortMapping pm) as [r|e]; [|reflexivity].
      rewrite (parsePortMappingsFrom_acc (a ++ b) [r]), IH, (parsePortMappingsFrom_acc a [r]).
      destruct (parsePortMappingsFrom [] a) as [ra [e|]]; [reflexivity|].
      destruct (parsePortMappingsFrom [] b) as [rb [e|]]; [reflexivity|].
      reflexivity.
Qed.

Lemma ParsePortMappings_batch_witness :
  ParsePortMappings ["80"; "443:8443/tcp"]
  = ([mkPortMap "" 0 80 ""; mkPortMap "" 8443 443 "tcp"], None)
  /\ length [mkPortMap "" 0 80 ""; mkPortMap "" 8443 443 "tcp"]
     = length ["80"; "443:8443/tcp"].
Proof.
  assert (H : ParsePortMappings ["80"; "443:8443/tcp"]
              = ([mkPortMap "" 0 80 ""; mkPortMap "" 8443 443 "tcp"], None))
    by (vm_compute; reflexivity).
  split; [exact H|].
  exact (proj1 (proj2 ParsePortMappings_batch) _ _ H).
Defined.

(** ** Numbers in port mappings *)

Lemma Atoi_cases (s : string) (v : Z) :
  strconv.Atoi s = Some v ->
  exists (neg : bool) (body : string) (n : Z),
    (s = String "-"%char body /\ neg = true \/ s = String "+"%char body /\ neg = false
     \/ s = body /\ neg = false)
    /\ strconv.digits body 0 = Some n
    /\ v = (if neg then - n else n)
    /\ strconv.minInt <= v <= strconv.maxInt.
Proof.
  assert (G : forall (neg : bool) (body : string),
    match body with
    | EmptyString => None
    | _ =>
        match strconv.digits body 0 with
        | Some n =>
            let v := if neg then - n else n in
            if (strconv.minInt <=? v) && (v <=? strconv.maxInt) then Some v else None
        | None => None
        end
    end = Some v ->
    exists n, strconv.digits body 0 = Some n /\ v = (if neg then - n else n)
              /\ strconv.minInt <= v <= strconv.maxInt).
  { intros neg body H.
    assert (H' : match strconv.digits body 0 with
                 | Some n =>
                     let v := if neg then - n else n in
                     if (strconv.minInt <=? v) && (v <=? strconv.maxInt)
                     then Some v else None
                 | None => None
                 end = Some v) by (destruct body; [discriminate|exact H]).
    clear H. destruct (strconv.digits body 0) as [n|]; [|discriminate].
    cbv zeta in H'.
    destruct ((strconv.minInt <=? (if neg then - n else n))
              && ((if neg then - n else n) <=? strconv.maxInt)) eqn:R; [|discriminate].
    injection H' as <-. apply andb_true_iff in R as [R1 R2].
    exists n. split; [reflexivity|]. split; [reflexivity|]. lia. }
  unfold strconv.Atoi. destruct s as [|a r].
  - intros H. destruct (G false EmptyString H) as (n & Hd & Hv & Hr).
    exists false, EmptyString, n. auto.
  - destruct (Ascii.eqb_spec a "-"%char) as [->|Hm].
    + intros H. destruct (G true r H) as (n & Hd & Hv & Hr).
      exists true, r, n. auto.
    + destruct (Ascii.eqb_spec a "+"%char) as [->|Hp].
      * intros H. destruct (G false r H) as (n & Hd & Hv & Hr).
        exists false, r, n. auto 6.
      * intros H.
        assert (H' : match String a r with
                     | EmptyString => None
                     | _ =>
                         match strconv.digits (String a r) 0 with
                         | Some n =>
                             let v := if false then - n else n in
                             if (strconv.minInt <=? v) && (v <=? strconv.maxInt)
                             then Some v else None
                         | None => None
                         end
                     end = Some v).
        { destruct a as [[] [] [] [] [] [] [] []]; try exact H; congruence. }
        destruct (G false (String a r) H') as (n & Hd & Hv & Hr).
        exists false, (String a r), n. auto 6.
Qed.

Lemma digits_without (c : ascii) (s : string) :
  strconv.digit c = None ->
  forall acc n, strconv.digits s acc = Some n -> strings.count c s = 0%nat.
Proof.
  intros Hc. induction s as [|d r IH]; intros acc n; simpl; [reflexivity|].
  destruct (strconv.digit d) as [x|] eqn:D; [|discriminate].
  intros H. rewrite (IH _ _ H).
  destruct (Ascii.eqb_spec d c) as [->|]; [congruence|reflexivity].
Qed.

Lemma Atoi_without (c : ascii) (s : string) (v : Z) :
  strconv.digit c = None -> c <> "-"%char -> c <> "+"%char ->
  strconv.Atoi s = Some v -> strings.count c s = 0%nat.
Proof.
  intros Hc Hm Hp H.
  destruct (Atoi_cases s v H) as (neg & body & n & Hs & Hd & _).
  pose proof (digits_without c body Hc 0 n Hd) as Hb.
  destruct Hs as [(-> & _)|[(-> & _)|(-> & _)]]; [| |exact Hb];
    rewrite count_String, Hb;
    match goal with
    | |- context [Ascii.eqb ?x c] => destruct (Ascii.eqb_spec x c); [congruence|reflexivity]
    end.
Qed.

Lemma parsePortMapping_colon_stage (pm : string) (r : PortMap) :
  parsePortMapping pm = inl r ->
  exists proto,
    parseColonParts proto (part (strings.Split pm "/") 0) = inl r.
Proof.
  rewrite parsePortMapping_unfold. cbv zeta.
  destruct (length (strings.Split pm "/") =? 2)%nat; [|eauto].
  destruct (validProtocol _); [eauto|discriminate].
Qed.

Lemma parsePortMapping_ports_in_range (pm : string) (r : PortMap) :
  parsePortMapping pm = inl r ->
  strconv.minInt <= ContainerPort r <= strconv.maxInt
  /\ strconv.minInt <= HostPort r <= strconv.maxInt.
Proof.
  intros H. destruct (parsePortMapping_colon_stage pm r H) as [proto Hc].
  destruct (parseColonParts_shape proto (part (strings.Split pm "/") 0)) as (A & _).
  destruct (A r Hc) as [(_ & _ & Hcp & Hh)|[(_ & _ & Hcp & Hh)|(_ & _ & Hcp & Hh)]].
  - apply Atoi_cases in Hcp as (? & ? & ? & _ & _ & _ & Hr).
    split; [exact Hr|]. rewrite Hh. vm_compute. split; discriminate.
  - apply Atoi_cases in Hcp as (? & ? & ? & _ & _ & _ & Hr).
    apply Atoi_cases in Hh as (? & ? & ? & _ & _ & _ & Hr'). auto.
  - apply Atoi_cases in Hcp as (? & ? & ? & _ & _ & _ & Hr).
    apply Atoi_cases in Hh as (? & ? & ? & _ & _ & _ & Hr'). auto.
Qed.

Lemma digit_slash : strconv.digit "/" = None.
Proof. reflexivity. Qed.
Lemma digit_colon : strconv.digit ":" = None.
Proof. reflexivity. Qed.

Lemma Atoi_without_slash (s : string) (v : Z) :
  strconv.Atoi s = Some v -> strings.count "/" s = 0%nat.
Proof. apply Atoi_without; [reflexivity|discriminate|discriminate]. Qed.

Lemma Atoi_without_colon (s : string) (v : Z) :
  strconv.Atoi s = Some v -> strings.count ":" s = 0%nat.
Proof. apply Atoi_without; [reflexivity|discriminate|discriminate]. Qed.

Lemma parsePortMapping_without_slash (text : string) :
  strings.count "/" text = 0%nat -> parsePortMapping text = parseColonParts "" text.
Proof.
  intros H. rewrite parsePortMapping_unfold. cbv zeta.
  now rewrite (Split_without_sep text "/" H).
Qed.

Lemma lower_byte_slash (c : ascii) :
  Ascii.eqb (strings.lower_byte c) "/" = Ascii.eqb c "/".
Proof. destruct c as [[] [] [] [] [] [] [] []]; reflexivity. Qed.

Lemma ToLower_count_slash (p : string) :
  strings.count "/" (strings.ToLower p) = strings.count "/" p.
Proof.
  induction p as [|c r IH]; [reflexivity|].
  unfold strings.ToLower in *. simpl. now rewrite lower_byte_slash, IH.
Qed.

Lemma validProtocol_without_slash (p : string) :
  validProtocol (strings.ToLower p) = true -> strings.count "/" p = 0%nat.
Proof.
  intros H. rewrite <- ToLower_count_slash.
  apply validProtocol_spec in H as [-> | [-> | ->]]; reflexivity.
Qed.

Lemma parsePortMapping_with_protocol (text p : string) :
  strings.count "/" text = 0%nat -> validProtocol (strings.ToLower p) = true ->
  parsePortMapping (text +:+ String "/" p) = parseColonParts (strings.ToLower p) text.
Proof.
  intros Ht Hp. rewrite parsePortMapping_unfold. cbv zeta.
  rewrite Split_app_sep, (Split_without_sep text "/" Ht),
    (Split_without_sep p "/" (validProtocol_without_slash p Hp)).
  simpl. unfold part. simpl. now rewrite Hp.
Qed.

Lemma parseColonParts_one (proto c : string) (vc : Z) :
  strconv.Atoi c = Some vc ->
  parseColonParts proto c = inl (mkPortMap "" 0 vc proto).
Proof.
  intros Hc. unfold parseColonParts.
  rewrite (Split_without_sep c ":" (Atoi_without_colon c vc Hc)). now rewrite Hc.
Qed.

Lemma parseColonParts_two (proto c h : string) (vc vh : Z) :
  strconv.Atoi c = Some vc -> strconv.Atoi h = Some vh ->
  parseColonParts proto (c +:+ String ":" h) = inl (mkPortMap "" vh vc proto).
Proof.
  intros Hc Hh. unfold parseColonParts.
  rewrite Split_app_sep, (Split_without_sep c ":" (Atoi_without_colon c vc Hc)),
    (Split_without_sep h ":" (Atoi_without_colon h vh Hh)).
  simpl. now rewrite Hc, Hh.
Qed.

Lemma parseColonParts_three (proto a c h : string) (vc vh : Z) :
  strings.count ":" a = 0%nat ->
  strconv.Atoi c = Some vc -> strconv.Atoi h = Some vh ->
  parseColonParts proto (a +:+ String ":" (c +:+ String ":" h))
  = inl (mkPortMap a vh vc proto).
Proof.
  intros Ha Hc Hh. unfold parseColonParts.
  rewrite !Split_app_sep, (Split_without_sep a ":" Ha),
    (Split_without_sep c ":" (Atoi_without_colon c vc Hc)),
    (Split_without_sep h ":" (Atoi_without_colon h vh Hh)).
  simpl. now rewrite Hc, Hh.
Qed.

(** Extra X2. The parser checks no port range: the container port and
    the host port of every parsed record are only known to lie in the
    64-bit [int], and every text that [strconv.Atoi] accepts, a negative
    number or one above 65535 included, is on its own a valid mapping with
    that number as container port. *)
Theorem port_numbers_not_validated :
  (forall pm r,
     parsePortMapping pm = inl r ->
     strconv.minInt <= ContainerPort r <= strconv.maxInt
     /\ strconv.minInt <= HostPort r <= strconv.maxInt)
  /\ (forall s v,
        strconv.Atoi s = Some v ->
        parsePortMapping s = inl (mkPortMap "" 0 v "")
        /\ ParsePortMappings [s] = ([mkPortMap "" 0 v ""], None))
  /\ strconv.Atoi "-1" = Some (-1)
  /\ strconv.Atoi "70000" = Some 70000.
Proof.
  split; [exact parsePortMapping_ports_in_range|].
  split; [|split; reflexivity].
  intros s v H.
  assert (E : parsePortMapping s = inl (mkPortMap "" 0 v "")).
  { rewrite (parsePortMapping_without_slash s (Atoi_without_slash s v H)).
    now apply parseColonParts_one. }
  split; [exact E|]. unfold ParsePortMappings. simpl. now rewrite E.
Qed.

Lemma port_numbers_not_validated_witness :
  strconv.Atoi "-1" = Some (-1)
  /\ ParsePortMappings ["-1"] = ([mkPortMap "" 0 (-1) ""], None).
Proof.
  split; [reflexivity|].
  exact (proj2 (proj1 (proj2 port_numbers_not_validated) "-1" (-1) eq_refl)).
Defined.

(** Extra X3. Every text of the documented forms parses to the record it
    denotes: "c", "c:h" and "a:c:h", where c and h are texts
    [strconv.Atoi] accepts and the listen address a is any text without
    ':' and '/' (the empty text included: it is not checked to be an
    address), each one alone or followed by '/' and a protocol name in any
    letter case, which is stored in lower case. *)
Theorem port_mapping_forms_accepted :
  forall (a c h : string) (vc vh : Z),
    strings.count ":" a = 0%nat -> strings.count "/" a = 0%nat ->
    strconv.Atoi c = Some vc -> strconv.Atoi h = Some vh ->
    parsePortMapping c = inl (mkPortMap "" 0 vc "")
    /\ parsePortMapping (c +:+ ":" +:+ h) = inl (mkPortMap "" vh vc "")
    /\ parsePortMapping (a +:+ ":" +:+ c +:+ ":" +:+ h) = inl (mkPortMap a vh vc "")
    /\ (forall p, validProtocol (strings.ToLower p) = true ->
          parsePortMapping (c +:+ "/" +:+ p)
          = inl (mkPortMap "" 0 vc (strings.ToLower p))
          /\ parsePortMapping ((c +:+ ":" +:+ h) +:+ "/" +:+ p)
             = inl (mkPortMap "" vh vc (strings.ToLower p))
          /\ parsePortMapping ((a +:+ ":" +:+ c +:+ ":" +:+ h) +:+ "/" +:+ p)
             = inl (mkPortMap a vh vc (strings.ToLower p))).
Proof.
  intros a c h vc vh Ha Ha' Hc Hh.
  pose proof (Atoi_without_slash c vc Hc) as Hc'.
  pose proof (Atoi_without_slash h vh Hh) as Hh'.
  assert (S2 : strings.count "/" (c +:+ ":" +:+ h) = 0%nat).
  { rewrite !count_append, Hc', Hh'. reflexivity. }
  assert (S3 : strings.count "/" (a +:+ ":" +:+ c +:+ ":" +:+ h) = 0%nat).
  { rewrite !count_append, Ha', Hc', Hh'. reflexivity. }
  split; [|split; [|split]].
  - rewrite (parsePortMapping_without_slash c Hc'). now apply parseColonParts_one.
  - rewrite (parsePortMapping_without_slash _ S2).
    exact (parseColonParts_two "" c h vc vh Hc Hh).
  - rewrite (parsePortMapping_without_slash _ S3).
    exact (parseColonParts_three "" a c h vc vh Ha Hc Hh).
  - intros p Hp. split; [|split].
    + change (c +:+ "/" +:+ p) with (c +:+ String "/" p).
      rewrite (parsePortMapping_with_protocol c p Hc' Hp). now apply parseColonParts_one.
    + change ((c +:+ ":" +:+ h) +:+ "/" +:+ p) with ((c +:+ ":" +:+ h) +:+ String "/" p).
      rewrite (parsePortMapping_with_protocol _ p S2 Hp).
      exact (parseColonParts_two _ c h vc vh Hc Hh).
    + change ((a +:+ ":" +:+ c +:+ ":" +:+ h) +:+ "/" +:+ p)
        with ((a +:+ ":" +:+ c +:+ ":" +:+ h) +:+ String "/" p).
      rewrite (parsePortMapping_with_protocol _ p S3 Hp).
      exact (parseColonParts_three _ a c h vc vh Ha Hc Hh).
Qed.

Lemma port_mapping_forms_accepted_witness :
  parsePortMapping ("" +:+ ":" +:+ "80" +:+ ":" +:+ "8080")
  = inl (mkPortMap "" 8080 80 "").
Proof.
  exact (proj1 (proj2 (proj2
    (port_mapping_forms_accepted "" "80" "8080" 80 8080
       eq_refl eq_refl eq_refl eq_refl)))).
Defined.

(** ** Install-package mappings *)

Lemma parseInstallPackagesFrom_app (a b : list string) (acc : list InstallPackage) :
  parseInstallPackagesFrom acc (a ++ b)
  = match parseInstallPackagesFrom acc a with
    | inl r => parseInstallPackagesFrom r b
    | inr e => inr e
    end.
Proof.
  revert acc. induction a as [|s a IH]; intros acc; simpl; [reflexivity|].
  destruct (parseInstallPackage s); [apply IH|reflexivity].
Qed.

(** The two nested loops are one loop over all the mappings. *)
Lemma parseInstallPackageMapsFrom_flat (l : list string) (acc : list InstallPackage) :
  parseInstallPackageMapsFrom acc l
  = match parseInstallPackagesFrom acc (mappingSegments l) with
    | inl r => (r, None)
    | inr e => ([], Some e)
    end.
Proof.
  revert acc. induction l as [|s l IH]; intros acc; [reflexivity|].
  unfold mappingSegments in *. simpl. rewrite parseInstallPackagesFrom_app.
  destruct (parseInstallPackagesFrom acc (strings.Split s ",")); [apply IH|reflexivity].
Qed.

Lemma parseInstallPackagesFrom_inl (segs : list string) :
  forall acc r,
    parseInstallPackagesFrom acc segs = inl r <->
    exists ips, r = acc ++ ips
                /\ Forall2 (fun seg ip => parseInstallPackage seg = inl ip) segs ips.
Proof.
  induction segs as [|seg segs IH]; intros acc r; simpl.
  - split.
    + intros [= <-]. exists []. rewrite app_nil_r. split; [reflexivity|constructor].
    + intros (ips & -> & H). inversion H. now rewrite app_nil_r.
  - destruct (parseInstallPackage seg) as [ip|e] eqn:E.
    + rewrite IH. split.
      * intros (ips & -> & H). exists (ip :: ips). rewrite <- app_assoc.
        split; [reflexivity|]. now constructor.
      * intros (ips & -> & H). inversion H as [|? ip' ? ips' Hip Hips]; subst.
        assert (ip' = ip) by congruence. subst ip'.
        exists ips'. rewrite <- app_assoc. auto.
    + split; [discriminate|].
      intros (ips & _ & H). inversion H; subst. congruence.
Qed.

Lemma parseInstallPackage_succeeds (seg : string) :
  (strings.count ":" seg <= 3)%nat <-> exists ip, parseInstallPackage seg = inl ip.
Proof.
  destruct (parseInstallPackage_arity seg) as (A1 & A2 & A3 & A4 & A5).
  pose proof (Split_length seg ":") as L. split.
  - intros H. destruct (strings.count ":" seg) as [|[|[|[|n]]]]; try lia;
      [rewrite (A1 L)|rewrite (A2 L)|rewrite (A3 L)|rewrite (A4 L)]; eauto.
  - intros [ip H].
    destruct (le_lt_dec (strings.count ":" seg) 3) as [|Hgt]; [assumption|].
    rewrite A5 in H by lia. discriminate.
Qed.

Lemma length_mappingSegments (l : list string) :
  length (mappingSegments l)
  = fold_right (fun s n => (S (strings.count "," s) + n)%nat) 0%nat l.
Proof.
  unfold mappingSegments. induction l as [|s l IH]; [reflexivity|].
  simpl. now rewrite length_app, Split_length, IH.
Qed.

Lemma parseInstallPackagesFrom_first_error (pre : list string) (seg : string)
    (post : list string) :
  forall acc,
    Forall (fun s => (strings.count ":" s <= 3)%nat) pre ->
    (4 <= strings.count ":" seg)%nat ->
    parseInstallPackagesFrom acc (pre ++ seg :: post) = inr (ErrTooManyParts seg).
Proof.
  induction pre as [|s pre IH]; intros acc Hpre Hseg; simpl.
  - destruct (parseInstallPackage seg) as [ip|e] eqn:E.
    + assert (strings.count ":" seg <= 3)%nat
        by (apply parseInstallPackage_succeeds; eauto). lia.
    + now rewrite (parseInstallPackage_error _ _ E).
  - inversion Hpre as [|? ? Hs Hpre']; subst.
    apply parseInstallPackage_succeeds in Hs as [ip ->]. now apply IH.
Qed.

Lemma parseInstallPackagesFrom_inr_first (segs : list string) :
  forall acc e,
    parseInstallPackagesFrom acc segs = inr e ->
    exists pre seg post,
      segs = pre ++ seg :: post
      /\ Forall (fun s => (strings.count ":" s <= 3)%nat) pre
      /\ (4 <= strings.count ":" seg)%nat
      /\ e = ErrTooManyParts seg.
Proof.
  induction segs as [|s segs IH]; intros acc e; simpl; [discriminate|].
  destruct (parseInstallPackage s) as [ip|e'] eqn:E.
  - intros H. destruct (IH _ _ H) as (pre & seg & post & -> & Hpre & Hseg & ->).
    exists (s :: pre), seg, post. split; [reflexivity|]. split; [|auto].
    constructor; [|exact Hpre]. apply parseInstallPackage_succeeds. eauto.
  - intros [= <-]. exists [], s, segs. split; [reflexivity|]. split; [constructor|].
    split; [|now apply parseInstallPackage_error].
    destruct (le_lt_dec (strings.count ":" s) 3) as [Hle|Hgt]; [|lia].
    apply parseInstallPackage_succeeds in Hle as [ip Hip]. congruence.
Qed.

(** Extra X4. [ParseInstallPackageMappings] succeeds exactly when every
    comma-separated mapping of every string has at most three ':'; it then
    returns one record for each mapping, so as many records as there are
    strings and commas. Otherwise it returns no record and the
    too-many-parts error of the first mapping with four or more ':', in
    the order of the strings and of the mappings in each: an error it
    returns is always that one. *)
Theorem ParseInstallPackageMappings_outcome :
  forall l : list string,
    ((exists rs, ParseInstallPackageMappings l = (rs, None))
     <-> Forall (fun seg => (strings.count ":" seg <= 3)%nat) (mappingSegments l))
    /\ (forall rs,
          ParseInstallPackageMappings l = (rs, None) ->
          Forall2 (fun seg ip => parseInstallPackage seg = inl ip) (mappingSegments l) rs
          /\ length rs
             = fold_right (fun s n => (S (strings.count "," s) + n)%nat) 0%nat l)
    /\ (forall pre seg post,
          mappingSegments l = pre ++ seg :: post ->
          Forall (fun s => (strings.count ":" s <= 3)%nat) pre ->
          (4 <= strings.count ":" seg)%nat ->
          ParseInstallPackageMappings l = ([], Some (ErrTooManyParts seg)))
    /\ (forall rs e,
          ParseInstallPackageMappings l = (rs, Some e) ->
          rs = []
          /\ exists pre seg post,
               mappingSegments l = pre ++ seg :: post
               /\ Forall (fun s => (strings.count ":" s <= 3)%nat) pre
               /\ (4 <= strings.count ":" seg)%nat
               /\ e = ErrTooManyParts seg).
Proof.
  intros l. unfold ParseInstallPackageMappings. rewrite parseInstallPackageMapsFrom_flat.
  destruct (parseInstallPackagesFrom [] (mappingSegments l)) as [r|e] eqn:R.
  - apply parseInstallPackagesFrom_inl in R as (ips & -> & H). simpl.
    assert (Hall : Forall (fun seg => (strings.count ":" seg <= 3)%nat) (mappingSegments l)).
    { clear -H. induction H; constructor; auto.
      apply parseInstallPackage_succeeds. eauto. }
    split; [|split; [|split]].
    + split; [|eauto]. intros _. exact Hall.
    + intros rs [= <-]. split; [exact H|].
      rewrite <- length_mappingSegments. symmetry. eapply Forall2_length; eauto.
    + intros pre seg post E Hpre Hseg. exfalso. rewrite E in Hall.
      apply List.Forall_app in Hall as [_ Hall]. inversion Hall; subst. lia.
    + discriminate.
  - destruct (parseInstallPackagesFrom_inr_first _ _ _ R)
      as (pre & seg & post & E & Hpre & Hseg & ->).
    split; [|split; [|split]].
    + split; [intros [rs H]; discriminate|].
      intros H. exfalso. rewrite E in H.
      apply List.Forall_app in H as [_ H]. inversion H; subst. lia.
    + discriminate.
    + intros pre' seg' post' E' Hpre' Hseg'.
      rewrite E' in R. rewrite (parseInstallPackagesFrom_first_error _ _ _ _ Hpre' Hseg') in R.
      injection R as <-. reflexivity.
    + intros rs e' [= <- <-]. split; [reflexivity|].
      exists pre, seg, post. auto.
Qed.

Lemma ParseInstallPackageMappings_outcome_witness :
  (ParseInstallPackageMappings ["a:1,b"; "c"]
   = ([mkInstallPackage "a" "" "1" ""; mkInstallPackage "b" "" "" "";
       mkInstallPackage "c" "" "" ""], None)
   /\ length [mkInstallPackage "a" "" "1" ""; mkInstallPackage "b" "" "" "";
              mkInstallPackage "c" "" "" ""] = 3%nat)
  /\ ParseInstallPackageMappings ["a,b:1:2:3:4"; "c:1:2:3:4:5"]
     = ([], Some (ErrTooManyParts "b:1:2:3:4")).
Proof.
  assert (H : ParseInstallPackageMappings ["a:1,b"; "c"]
              = ([mkInstallPackage "a" "" "1" ""; mkInstallPackage "b" "" "" "";
                  mkInstallPackage "c" "" "" ""], None)) by (vm_compute; reflexivity).
  split; [split; [exact H|]|].
  - exact (proj2 (proj1 (proj2 (ParseInstallPackageMappings_outcome ["a:1,b"; "c"])) _ H)).
  - refine (proj1 (proj2 (proj2
              (ParseInstallPackageMappings_outcome ["a,b:1:2:3:4"; "c:1:2:3:4:5"])))
              ["a"] "b:1:2:3:4" ["c:1:2:3:4:5"] _ _ _).
    + vm_compute. reflexivity.
    + repeat constructor.
    + vm_compute. lia.
Defined.

Lemma mappingSegments_Join (l : list string) :
  l <> [] -> mappingSegments [strings.Join l ","] = mappingSegments l.
Proof.
  unfold mappingSegments. induction l as [|s l IH]; [congruence|]. intros _.
  destruct l as [|s' l].
  - reflexivity.
  - rewrite Join_cons by discriminate.
    change (s +:+ "," +:+ strings.Join (s' :: l) ",")
      with (s +:+ String "," (strings.Join (s' :: l) ",")).
    cbn [flat_map] in *. rewrite app_nil_r in *.
    rewrite Split_app_sep. f_equal. rewrite IH by discriminate. reflexivity.
Qed.

(** Extra X5. Giving the mappings in several strings or in one string
    with commas between them is the same: the parser's result depends only
    on the sequence of comma-separated mappings, so a list of strings and
    the one string that joins them with ',' give the same records or the
    same error. *)
Theorem ParseInstallPackageMappings_joined :
  (forall l l',
     mappingSegments l = mappingSegments l' ->
     ParseInstallPackageMappings l = ParseInstallPackageMappings l')
  /\ (forall l, l <> [] ->
        ParseInstallPackageMappings [strings.Join l ","] = ParseInstallPackageMappings l)
  /\ (forall s1 s2,
        ParseInstallPackageMappings [s1 +:+ "," +:+ s2]
        = ParseInstallPackageMappings [s1; s2]).
Proof.
  assert (G : forall l l',
     mappingSegments l = mappingSegments l' ->
     ParseInstallPackageMappings l = ParseInstallPackageMappings l').
  { intros l l' H. unfold ParseInstallPackageMappings.
    now rewrite !parseInstallPackageMapsFrom_flat, H. }
  split; [exact G|]. split.
  - intros l Hl. apply G. now apply mappingSegments_Join.
  - intros s1 s2. apply G. exact (mappingSegments_Join [s1; s2] ltac:(discriminate)).
Qed.

Lemma ParseInstallPackageMappings_joined_witness :
  ["a"; "b:2"] <> []
  /\ ParseInstallPackageMappings [strings.Join ["a"; "b:2"] ","]
     = ParseInstallPackageMappings ["a"; "b:2"].
Proof.
  split; [discriminate|].
  exact (proj1 (proj2 ParseInstallPackageMappings_joined) ["a"; "b:2"]
           ltac:(discriminate)).
Defined.

Lemma parseInstallPackage_fields (seg : string) (ip : InstallPackage) :
  parseInstallPackage seg = inl ip ->
  forall fld, In fld [Name ip; Version ip; Config ip; Namespace ip] ->
              fld = "" \/ In fld (strings.Split seg ":").
Proof.
  unfold parseInstallPackage.
  destruct (strings.Split seg ":") as [|a [|b [|c [|d [|x l]]]]]; simpl; try discriminate;
    intros [= <-]; simpl; intuition auto.
Qed.

(** Extra X6. No field of a parsed install-package record holds a ':' or
    a ',': a name, version, configuration path or namespace that contains
    one of the two separators cannot be expressed in a mapping string. *)
Theorem install_package_fields_separator_free :
  forall (l : list string) (rs : list InstallPackage),
    ParseInstallPackageMappings l = (rs, None) ->
    Forall (fun ip =>
              separatorFree (Name ip) /\ separatorFree (Version ip)
              /\ separatorFree (Config ip) /\ separatorFree (Namespace ip)) rs.
Proof.
  intros l rs H.
  assert (Hsegs : Forall (fun seg => strings.count "," seg = 0%nat) (mappingSegments l)).
  { unfold mappingSegments. clear. induction l as [|s l IH]; [constructor|].
    simpl. apply List.Forall_app. split; [apply Split_parts_without_sep|exact IH]. }
  unfold ParseInstallPackageMappings in H. rewrite parseInstallPackageMapsFrom_flat in H.
  destruct (parseInstallPackagesFrom [] (mappingSegments l)) as [r|e] eqn:R;
    [|discriminate].
  injection H as <-.
  apply parseInstallPackagesFrom_inl in R as (ips & -> & F). simpl.
  induction F as [|seg ip segs ips Hip F IH]; [constructor|].
  inversion Hsegs as [|? ? Hseg Hsegs']; subst.
  constructor; [|now apply IH].
  assert (G : forall fld, In fld [Name ip; Version ip; Config ip; Namespace ip] ->
                          separatorFree fld).
  { intros fld Hin.
    destruct (parseInstallPackage_fields seg ip Hip fld Hin) as [->|Hp];
      [split; reflexivity|].
    split.
    - pose proof (Split_parts_without_sep seg ":") as W.
      rewrite List.Forall_forall in W. now apply W.
    - pose proof (Split_parts_count_le seg ":" ",") as W.
      rewrite List.Forall_forall in W. specialize (W fld Hp). lia. }
  repeat split; apply G; simpl; auto.
Qed.

Lemma install_package_fields_separator_free_witness :
  Forall (fun ip =>
            separatorFree (Name ip) /\ separatorFree (Version ip)
            /\ separatorFree (Config ip) /\ separatorFree (Namespace ip))
    [mkInstallPackage "a" "values.yaml" "1" "ns"].
Proof.
  exact (install_package_fields_separator_free ["a:1:values.yaml:ns"]
           [mkInstallPackage "a" "values.yaml" "1" "ns"] ltac:(vm_compute; reflexivity)).
Defined.

(** ** Shape of the environment-variable names *)

Lemma upper_byte_not_lower (c : ascii) : strings.is_lower (strings.upper_byte c) = false.
Proof. destruct c as [[] [] [] [] [] [] [] []]; reflexivity. Qed.

Lemma noLower_ToUpper (s : string) : noLower (strings.ToUpper s) = true.
Proof.
  induction s as [|c r IH]; [reflexivity|].
  unfold strings.ToUpper in *. simpl. now rewrite upper_byte_not_lower, IH.
Qed.

Lemma noLower_append (a b : string) :
  noLower (a +:+ b) = noLower a && noLower b.
Proof.
  induction a as [|c r IH]; [reflexivity|].
  rewrite ?append_String; simpl. rewrite IH. now rewrite andb_assoc.
Qed.

Lemma noLower_Join (ws : list string) (sep : string) :
  noLower sep = true -> Forall (fun w => noLower w = true) ws ->
  noLower (strings.Join ws sep) = true.
Proof.
  intros Hsep. induction 1 as [|w ws Hw Hws IH]; [reflexivity|].
  destruct ws as [|w' ws]; [exact Hw|].
  rewrite Join_cons by discriminate. rewrite !noLower_append, Hw, Hsep, IH. reflexivity.
Qed.

Lemma FindAllString_noUpper (s : string) :
  noUpper s = true -> regexp.FindAllString s = [].
Proof.
  induction s as [|c r IH]; [reflexivity|]. simpl.
  destruct (strings.is_upper c); [discriminate|]. exact IH.
Qed.

(** Extra X7. The name of an environment variable always starts with
    TANZU and holds no lower-case ASCII letter; what precedes the first
    upper-case letter of the field name does not count, and a name without
    upper-case letter gives TANZU alone. The eighteen fields of the
    configuration have eighteen different variables. *)
Theorem fieldNameToEnvName_shape :
  (forall name, noLower (fieldNameToEnvName name) = true)
  /\ (forall name, String.prefix "TANZU" (fieldNameToEnvName name) = true)
  /\ (forall pre name,
        noUpper pre = true ->
        fieldNameToEnvName (pre +:+ name) = fieldNameToEnvName name)
  /\ (forall name, noUpper name = true -> fieldNameToEnvName name = "TANZU")
  /\ NoDup (map (fun f => fieldNameToEnvName (canonicalName f)) fields).
Proof.
  split; [|split; [|split; [|split]]].
  - intros name. unfold fieldNameToEnvName. cbv zeta.
    apply noLower_Join; [reflexivity|].
    constructor; [reflexivity|].
    induction (regexp.FindAllString name) as [|w ws IH]; constructor; auto.
    apply noLower_ToUpper.
  - intros name. unfold fieldNameToEnvName. cbv zeta.
    change (["TANZU"] ++ ?l) with ("TANZU" :: l).
    destruct (map strings.ToUpper (regexp.FindAllString name)) as [|w ws]; [reflexivity|].
    rewrite Join_cons by discriminate.
    change ("TANZU" +:+ ?x) with (String "T" (String "A" (String "N" (String "Z"
                                    (String "U" x))))).
    simpl. now destruct ("_" +:+ strings.Join (w :: ws) "_").
  - intros pre name H. unfold fieldNameToEnvName. now rewrite FindAllString_skip.
  - intros name H. unfold fieldNameToEnvName. now rewrite FindAllString_noUpper.
  - apply (bool_decide_unpack _). vm_compute. reflexivity.
Qed.

Lemma fieldNameToEnvName_shape_witness :
  noUpper "my" = true
  /\ fieldNameToEnvName ("my" +:+ "PodCidr") = fieldNameToEnvName "PodCidr".
Proof.
  split; [reflexivity|].
  exact (proj1 (proj2 (proj2 fieldNameToEnvName_shape)) "my" "PodCidr" eq_refl).
Defined.

(** ** One step of the field loop *)

Lemma setFields_cons (commandArgs : gmap string value) (os : OS)
    (c : UnmanagedClusterConfig) (f : field) (fs : list field) :
  setFields commandArgs os c (f :: fs)
  = do c' <- setField commandArgs os c f; setFields commandArgs os c' fs.
Proof. reflexivity. Qed.

Lemma rbind_Ok {A B} (r : result A) (k : A -> result B) (b : B) :
  rbind r k = Ok b -> exists a, r = Ok a /\ k a = Ok b.
Proof. destruct r as [a|m]; simpl; [eauto|discriminate]. Qed.

Lemma sameExcept_refl (f : field) (c : UnmanagedClusterConfig) : sameExcept f c c.
Proof. intros g _. reflexivity. Qed.

Lemma sameExcept_trans (f : field) (c1 c2 c3 : UnmanagedClusterConfig) :
  sameExcept f c1 c2 -> sameExcept f c2 c3 -> sameExcept f c1 c3.
Proof. intros H1 H2 g Hg. rewrite (H2 g Hg). now apply H1. Qed.

Lemma Set__frame (c c' : UnmanagedClusterConfig) (f : field) (x : value) :
  reflect.Set_ c f x = Ok c' -> sameExcept f c c'.
Proof.
  destruct f, x; simpl; try discriminate; intros [= <-] g Hg;
    destruct g; try congruence; reflexivity.
Qed.

Lemma SetString_frame (c c' : UnmanagedClusterConfig) (f : field) (s : string) :
  reflect.SetString c f s = Ok c' -> sameExcept f c c'.
Proof.
  destruct f; simpl; try discriminate; intros [= <-] g Hg;
    destruct g; try congruence; reflexivity.
Qed.

Lemma SetBool_frame (c c' : UnmanagedClusterConfig) (f : field) (b : bool) :
  reflect.SetBool c f b = Ok c' -> sameExcept f c c'.
Proof.
  destruct f; simpl; try discriminate; intros [= <-] g Hg;
    destruct g; try congruence; reflexivity.
Qed.

Lemma appendEach_frame (f : field) (vals : list value) :
  forall c c', appendEach c f vals = Ok c' -> sameExcept f c c'.
Proof.
  induction vals as [|v vals IH]; intros c c'; simpl.
  - intros [= <-]. apply sameExcept_refl.
  - intros H. apply rbind_Ok in H as (new & _ & H).
    apply rbind_Ok in H as (c1 & H1 & H).
    eapply sameExcept_trans; [eapply Set__frame; eassumption|eauto].
Qed.

Ltac frame_invert :=
  repeat match goal with
         | H : rbind _ _ = Ok _ |- _ => apply rbind_Ok in H as (? & ? & H)
         | H : Ok _ = Ok _ |- _ => injection H as H; subst
         | H : Panic _ = Ok _ |- _ => discriminate H
         | H : (if ?b then _ else _) = Ok _ |- _ => destruct b
         | H : match ?x with _ => _ end = Ok _ |- _ => destruct x
         end.

Ltac frame_solve :=
  repeat match goal with
         | H : reflect.SetString _ _ _ = Ok _ |- _ => apply SetString_frame in H
         | H : reflect.SetBool _ _ _ = Ok _ |- _ => apply SetBool_frame in H
         | H : reflect.Set_ _ _ _ = Ok _ |- _ => apply Set__frame in H
         | H : appendEach _ _ _ = Ok _ |- _ => apply appendEach_frame in H
         end;
  eauto using sameExcept_refl, sameExcept_trans.

Lemma setStringValue_frame (commandArgs : gmap string value) (os : OS)
    (c c' : UnmanagedClusterConfig) (f : field) :
  setStringValue commandArgs os c f = Ok c' -> sameExcept f c c'.
Proof. unfold setStringValue. cbv zeta. intros H. frame_invert; frame_solve. Qed.

Lemma setBoolValue_frame (commandArgs : gmap string value) (os : OS)
    (c c' : UnmanagedClusterConfig) (f : field) :
  setBoolValue commandArgs os c f = Ok c' -> sameExcept f c c'.
Proof. unfold setBoolValue. cbv zeta. intros H. frame_invert; frame_solve. Qed.

Lemma setStringSliceValue_frame (commandArgs : gmap string value) (os : OS)
    (c c' : UnmanagedClusterConfig) (f : field) :
  setStringSliceValue commandArgs os c f = Ok c' -> sameExcept f c c'.
Proof. unfold setStringSliceValue. cbv zeta. intros H. frame_invert; frame_solve. Qed.

Lemma setPortMapSliceValue_frame (commandArgs : gmap string value) (os : OS)
    (c c' : UnmanagedClusterConfig) (f : field) :
  setPortMapSliceValue commandArgs os c f = Ok c' -> sameExcept f c c'.
Proof. unfold setPortMapSliceValue. cbv zeta. intros H. frame_invert; frame_solve. Qed.

Lemma setInstallPackageSliceValue_frame (commandArgs : gmap string value) (os : OS)
    (c c' : UnmanagedClusterConfig) (f : field) :
  setInstallPackageSliceValue commandArgs os c f = Ok c' -> sameExcept f c c'.
Proof.
  unfold setInstallPackageSliceValue. cbv zeta. intros H. frame_invert; frame_solve.
Qed.

Lemma setField_frame (commandArgs : gmap string value) (os : OS)
    (c c' : UnmanagedClusterConfig) (f : field) :
  setField commandArgs os c f = Ok c' -> sameExcept f c c'.
Proof.
  unfold setField.
  destruct (reflect.FieldByName c f);
    eauto using setStringValue_frame, setBoolValue_frame, setStringSliceValue_frame,
      setPortMapSliceValue_frame, setInstallPackageSliceValue_frame;
    intros [= <-]; apply sameExcept_refl.
Qed.

(** A field of map type is given to no setter. *)
Lemma setField_map (commandArgs : gmap string value) (os : OS)
    (c : UnmanagedClusterConfig) (f : field) :
  settable f = false -> setField commandArgs os c f = Ok c.
Proof. destruct f; try discriminate; reflexivity. Qed.

Lemma setFields_maps_kept (commandArgs : gmap string value) (os : OS) (fs : list field) :
  forall c c',
    setFields commandArgs os c fs = Ok c' ->
    forall g, settable g = false -> reflect.FieldByName c' g = reflect.FieldByName c g.
Proof.
  induction fs as [|f fs IH]; intros c c'.
  - simpl. now intros [= <-].
  - rewrite setFields_cons. intros H g Hg.
    apply rbind_Ok in H as (c1 & H1 & H).
    rewrite (IH _ _ H g Hg).
    destruct (settable f) eqn:Hf.
    + apply (setField_frame _ _ _ _ _ H1). intros ->. congruence.
    + rewrite setField_map in H1 by assumption. now injection H1 as <-.
Qed.

Lemma setField_insert (commandArgs : gmap string value) (os : OS)
    (c : UnmanagedClusterConfig) (f : field) (k : string) (v : value) :
  (settable f = true -> canonicalName f <> k) ->
  setField (<[k:=v]> commandArgs) os c f = setField commandArgs os c f.
Proof.
  intros H. destruct (settable f) eqn:Hf.
  - specialize (H eq_refl).
    unfold setField, setBoolValue, setStringValue, setStringSliceValue,
      setInstallPackageSliceValue, setPortMapSliceValue. cbv zeta.
    rewrite !lookup_insert_ne by congruence. reflexivity.
  - now rewrite !setField_map.
Qed.

Lemma setFields_insert (commandArgs : gmap string value) (os : OS)
    (k : string) (v : value) (fs : list field) :
  (forall f, settable f = true -> canonicalName f <> k) ->
  forall c, setFields (<[k:=v]> commandArgs) os c fs = setFields commandArgs os c fs.
Proof.
  intros H. induction fs as [|f fs IH]; intros c; [reflexivity|].
  rewrite !setFields_cons, setField_insert by auto.
  destruct (setField commandArgs os c f); simpl; auto.
Qed.

(** Extra X8. Arguments under a key that no setter looks up are
    ignored: adding or changing such an entry, for instance under "Tty" or
    under the names of the two map fields, ProviderConfiguration and
    CniConfiguration, leaves the result of [InitializeConfiguration] as it
    is. *)
Theorem unknown_arguments_ignored :
  forall yaml_Unmarshal (commandArgs : gmap string value) (os : OS)
         (k : string) (v : value),
    k <> ClusterConfigFile ->
    (forall f, settable f = true -> canonicalName f <> k) ->
    InitializeConfiguration yaml_Unmarshal (<[k:=v]> commandArgs) os
    = InitializeConfiguration yaml_Unmarshal commandArgs os.
Proof.
  intros yaml_Unmarshal commandArgs os k v Hk Hf.
  unfold InitializeConfiguration, loadConfigFile.
  rewrite lookup_insert_ne by congruence.
  destruct (commandArgs !! ClusterConfigFile) as [[]|];
    repeat match goal with
           | |- context [if ?b then _ else _] => destruct b
           | |- context [match ?x with _ => _ end] =>
               lazymatch x with
               | setFields _ _ _ _ => fail
               | _ => destruct x
               end
           end;
    try reflexivity; now rewrite setFields_insert by exact Hf.
Qed.

Lemma unknown_arguments_ignored_witness :
  InitializeConfiguration exampleUnmarshal
    (<["ProviderConfiguration" := VString "ignored"]> {[ "ClusterName" := VString "x" ]})
    (exampleOS [])
  = InitializeConfiguration exampleUnmarshal {[ "ClusterName" := VString "x" ]}
      (exampleOS []).
Proof.
  apply unknown_arguments_ignored; [discriminate|].
  intros f Hf. destruct f; try discriminate Hf; discriminate.
Defined.

(** Extra X9. The two maps of the configuration, ProviderConfiguration
    and CNIConfiguration, can only come from the file: in every
    configuration [InitializeConfiguration] returns they are the maps
    decoded from the file, whatever the arguments and the environment hold,
    and they are empty when no file is named. *)
Theorem maps_only_from_file :
  forall yaml_Unmarshal (commandArgs : gmap string value) (os : OS)
         (cfg : UnmanagedClusterConfig),
    InitializeConfiguration yaml_Unmarshal commandArgs os = Ok (Some cfg, None) ->
    exists base,
      loadConfigFile yaml_Unmarshal commandArgs os = inl base
      /\ ProviderConfiguration cfg = ProviderConfiguration base
      /\ CNIConfiguration cfg = CNIConfiguration base
      /\ (commandArgs !! ClusterConfigFile = None ->
          ProviderConfiguration cfg = [] /\ CNIConfiguration cfg = []).
Proof.
  intros yaml_Unmarshal commandArgs os cfg. unfold InitializeConfiguration.
  destruct (loadConfigFile yaml_Unmarshal commandArgs os) as [base|e] eqn:L;
    [|discriminate].
  intros H. apply rbind_Ok in H as (merged & Hset & H).
  destruct (String.eqb (ClusterName merged) ""); [discriminate|].
  apply rbind_Ok in H as (path & _ & H). injection H as <-.
  pose proof (setFields_maps_kept _ _ _ _ _ Hset FProviderConfiguration eq_refl) as P.
  pose proof (setFields_maps_kept _ _ _ _ _ Hset FCNIConfiguration eq_refl) as C.
  simpl in P, C. injection P as P. injection C as C.
  exists base. split; [reflexivity|]. simpl. split; [exact P|]. split; [exact C|].
  intros Hnone. unfold loadConfigFile in L. rewrite Hnone in L. injection L as <-.
  rewrite P, C. split; reflexivity.
Qed.

Lemma maps_only_from_file_witness :
  let commandArgs : gmap string value :=
    {[ "ClusterName" := VString "x";
       "ProviderConfiguration" := VMap [("k", VString "v")] ]} in
  let cfg := reflect.storeString FClusterName "x"
               (resolvedConfig ∅ (exampleOS []) zeroConfig) in
  InitializeConfiguration exampleUnmarshal commandArgs (exampleOS []) = Ok (Some cfg, None)
  /\ ProviderConfiguration cfg = [].
Proof.
  intros commandArgs cfg.
  assert (H : InitializeConfiguration exampleUnmarshal commandArgs (exampleOS [])
              = Ok (Some cfg, None)) by (vm_compute; reflexivity).
  split; [exact H|].
  destruct (maps_only_from_file exampleUnmarshal commandArgs (exampleOS []) cfg H)
    as (base & _ & _ & _ & Hnone).
  exact (proj1 (Hnone ltac:(vm_compute; reflexivity))).
Defined.

(** ** Arguments of the wrong type *)

Ltac compute_canonicalName :=
  repeat match goal with
         | |- context [canonicalName ?f] =>
             let n := eval vm_compute in (canonicalName f) in
             change (canonicalName f) with n in *
         | H : context [canonicalName ?f] |- _ =>
             let n := eval vm_compute in (canonicalName f) in
             change (canonicalName f) with n in *
         end.

(** Extra X10. A value of the wrong type under the name of a field that
    has a setter makes the setter panic, whatever the environment and the
    field hold (the type assertion is not guarded); under ClusterConfigFile
    a value that is no string is silently taken as no file. *)
Theorem argument_of_wrong_type :
  (forall (commandArgs : gmap string value) (os : OS) (c : UnmanagedClusterConfig)
          (f : field) (v : value),
     settable f = true ->
     commandArgs !! canonicalName f = Some v ->
     sameType v (reflect.FieldByName zeroConfig f) = false ->
     exists msg, setField commandArgs os c f = Panic msg)
  /\ (forall yaml_Unmarshal (commandArgs : gmap string value) (os : OS) (v : value),
        commandArgs !! ClusterConfigFile = Some v ->
        sameType v (VString "") = false ->
        loadConfigFile yaml_Unmarshal commandArgs os = inl zeroConfig).
Proof.
  split.
  - intros commandArgs os c f v Hf Hv Ht.
    destruct f; try discriminate Hf; compute_canonicalName;
      unfold setField, setBoolValue, setStringValue, setStringSliceValue,
        setInstallPackageSliceValue, setPortMapSliceValue;
      cbv zeta; cbn [reflect.FieldByName]; compute_canonicalName; rewrite Hv;
      destruct v; try discriminate Ht; simpl; eauto.
  - intros yaml_Unmarshal commandArgs os v Hv Ht. unfold loadConfigFile.
    rewrite Hv. destruct v; try discriminate Ht; reflexivity.
Qed.

Lemma argument_of_wrong_type_witness :
  exists msg,
    setField {[ "ClusterName" := VBool true ]} (exampleOS []) zeroConfig FClusterName
    = Panic msg.
Proof.
  pose (commandArgs := {[ "ClusterName" := VBool true ]} : gmap string value).
  exact (proj1 argument_of_wrong_type commandArgs (exampleOS [])
           zeroConfig FClusterName (VBool true)
           eq_refl ltac:(vm_compute; reflexivity) eq_refl).
Defined.

(** ** The boolean field *)

Lemma boolOfEnv_true (value : string) :
  boolOfEnv value = true <-> In value trueTexts.
Proof.
  unfold boolOfEnv, strconv.ParseBool, trueTexts.
  destruct (existsb (String.eqb value) ["1"; "t"; "T"; "TRUE"; "true"; "True"]) eqn:E.
  - simpl. split; [intros _|reflexivity].
    apply List.existsb_exists in E as (x & Hin & Hx).
    apply String.eqb_eq in Hx. now subst.
  - assert (N : ~ In value ["1"; "t"; "T"; "TRUE"; "true"; "True"]).
    { intros Hin. apply Bool.not_true_iff_false in E. apply E.
      apply List.existsb_exists. exists value. split; [exact Hin|apply String.eqb_refl]. }
    destruct (existsb (String.eqb value) ["0"; "f"; "F"; "FALSE"; "false"; "False"]);
      (split; [discriminate|intros Hin; destruct (N Hin)]).
Qed.

(** Extra X11. For SkipPreflightChecks an explicit argument always wins,
    false included; without one, an environment variable that is not empty
    decides alone: the flag is true exactly for the texts 1, t, T, TRUE,
    true and True, and false for every other text, also when the file had
    set it; with neither, the value from the file stays. No other field
    changes. *)
Theorem skip_preflight_resolution :
  forall (commandArgs : gmap string value) (os : OS) (c : UnmanagedClusterConfig),
    wellTyped commandArgs FSkipPreflightChecks = true ->
    let arg := commandArgs !! "SkipPreflightChecks" in
    let env := Getenv (environ os) "TANZU_SKIP_PREFLIGHT_CHECKS" in
    exists b,
      setBoolValue commandArgs os c FSkipPreflightChecks = Ok (reflect.storeSkip b c)
      /\ sameExcept FSkipPreflightChecks c (reflect.storeSkip b c)
      /\ (forall a, arg = Some (VBool a) -> b = a)
      /\ (arg = None -> env <> "" -> (b = true <-> In env trueTexts))
      /\ (arg = None -> env = "" -> b = SkipPreflightChecks c).
Proof.
  intros commandArgs os c Hwt arg env.
  pose proof (setBoolValue_spec commandArgs os c Hwt) as S. cbv zeta in S.
  fold arg env in S.
  eexists. split; [exact S|]. split; [|split; [|split]].
  - intros g Hg. destruct g; try congruence; reflexivity.
  - intros a ->. reflexivity.
  - intros -> He. rewrite (eqb_empty_false env He). simpl. apply boolOfEnv_true.
  - intros -> ->. reflexivity.
Qed.

Lemma skip_preflight_resolution_witness :
  let commandArgs : gmap string value := {[ "SkipPreflightChecks" := VBool false ]} in
  let os := exampleOS [("TANZU_SKIP_PREFLIGHT_CHECKS", "true")] in
  setBoolValue commandArgs os (reflect.storeSkip true zeroConfig) FSkipPreflightChecks
  = Ok zeroConfig.
Proof.
  intros commandArgs os.
  destruct (skip_preflight_resolution commandArgs os (reflect.storeSkip true zeroConfig)
              ltac:(vm_compute; reflexivity)) as (b & Hset & _ & Harg & _).
  rewrite Hset. now rewrite (Harg false ltac:(vm_compute; reflexivity)).
Defined.

(** ** Fields with a default *)

Lemma stringPrecedence_default (arg : option value) (env file d : string) :
  d <> "" -> stringPrecedence arg env file (Some (VString d)) <> "".
Proof.
  intros Hd. unfold stringPrecedence.
  assert (G : forall a : string, (if negb (String.eqb a "") then a else
               if negb (String.eqb env "") then env
               else if negb (String.eqb file "") then file else d) <> "").
  { intros a. destruct (String.eqb_spec a ""); simpl; [|assumption].
    destruct (String.eqb_spec env ""); simpl; [|assumption].
    destruct (String.eqb_spec file ""); simpl; assumption. }
  destruct arg as [[]|]; try apply G; apply (G "").
Qed.

Lemma InitializeConfiguration_Ok_inv
    (yaml_Unmarshal : string -> UnmanagedClusterConfig -> option UnmanagedClusterConfig)
    (commandArgs : gmap string value) (os : OS) (cfg : UnmanagedClusterConfig) :
  InitializeConfiguration yaml_Unmarshal commandArgs os = Ok (Some cfg, None) ->
  exists base merged path,
    loadConfigFile yaml_Unmarshal commandArgs os = inl base
    /\ setFields commandArgs os base fields = Ok merged
    /\ ClusterName merged <> ""
    /\ sanatizeKubeconfigPath os (ExistingClusterKubeconfig merged) = Ok path
    /\ cfg = reflect.storeString FExistingClusterKubeconfig path merged.
Proof.
  unfold InitializeConfiguration.
  destruct (loadConfigFile yaml_Unmarshal commandArgs os) as [base|e]; [|discriminate].
  intros H. apply rbind_Ok in H as (merged & Hset & H).
  destruct (String.eqb_spec (ClusterName merged) "") as [|Hne]; [discriminate|].
  apply rbind_Ok in H as (path & Hp & H). injection H as <-.
  exists base, merged, path. auto.
Qed.

(** Extra X12. A string field with a registered default is never empty in
    a configuration that [InitializeConfiguration] returns: Provider, Cni,
    PodCidr, ServiceCidr, ControlPlaneNodeCount and WorkerNodeCount always
    hold a value, and so does ClusterName, which has no default. *)
Theorem defaulted_fields_never_empty :
  (forall yaml_Unmarshal (commandArgs : gmap string value) (os : OS)
          (cfg : UnmanagedClusterConfig),
     (forall f, wellTyped commandArgs f = true) ->
     InitializeConfiguration yaml_Unmarshal commandArgs os = Ok (Some cfg, None) ->
     ClusterName cfg <> ""
     /\ forall f, isStringField f = true -> hasDefault f = true -> getString cfg f <> "")
  /\ List.filter hasDefault fields
     = [FProvider; FCni; FPodCidr; FServiceCidr; FControlPlaneNodeCount; FWorkerNodeCount].
Proof.
  split; [|vm_compute; reflexivity].
  intros yaml_Unmarshal commandArgs os cfg Hwt H.
  apply InitializeConfiguration_Ok_inv in H
    as (base & merged & path & Hload & Hset & Hname & Hpath & ->).
  split; [exact Hname|].
  intros f Hf Hd.
  destruct (setFields_returns _ _ _ _ Hwt Hset) as (_ & _ & ->).
  assert (Hne : f <> FExistingClusterKubeconfig) by (intros ->; discriminate Hd).
  unfold getString. rewrite FieldByName_storeString_other by exact Hne.
  fold (getString (resolvedConfig commandArgs os base) f).
  rewrite getString_resolvedConfig by exact Hf.
  destruct (default_of_string_field f Hf) as [D|(d & Hdne & D)].
  - unfold hasDefault in Hd. rewrite D in Hd. discriminate.
  - rewrite D. now apply stringPrecedence_default.
Qed.

Lemma defaulted_fields_never_empty_witness :
  exists cfg,
    InitializeConfiguration exampleUnmarshal
      ({[ "ClusterName" := VString "x"; "Provider" := VString "" ]} : gmap string value)
      (exampleOS [])
    = Ok (Some cfg, None)
    /\ getString cfg FProvider <> "".
Proof.
  pose (commandArgs :=
          {[ "ClusterName" := VString "x"; "Provider" := VString "" ]}
          : gmap string value).
  exists (reflect.storeString FClusterName "x"
            (resolvedConfig ∅ (exampleOS []) zeroConfig)).
  assert (H : InitializeConfiguration exampleUnmarshal commandArgs (exampleOS [])
              = Ok (Some (reflect.storeString FClusterName "x"
                            (resolvedConfig ∅ (exampleOS []) zeroConfig)), None))
    by (vm_compute; reflexivity).
  split; [exact H|].
  exact (proj2 (proj1 defaulted_fields_never_empty exampleUnmarshal commandArgs
                  (exampleOS []) _
                  ltac:(intros f; destruct f; vm_compute; reflexivity) H)
           FProvider eq_refl ltac:(vm_compute; reflexivity)).
Defined.

(** ** When the resolver panics *)

Lemma sanatizeKubeconfigPath_panics (os : OS) (path : string) :
  (exists msg, sanatizeKubeconfigPath os path = Panic msg)
  <-> strings.HasPrefix path "~/" = true /\ currentUserHomeDir os = None.
Proof.
  unfold sanatizeKubeconfigPath.
  destruct (strings.HasPrefix path "~/"); [destruct (currentUserHomeDir os)|]; simpl;
    split; try (intros [msg H]; discriminate); try (intros [? ?]; discriminate); eauto.
Qed.

(** Extra X13. With arguments of the right types,
    [InitializeConfiguration] panics in exactly two situations, both after
    the file was loaded: the environment layer of PortsToForward or of
    InstallPackages is reached (its variable is not empty and the explicit
    argument is absent or empty), or the merged cluster name is not empty,
    the merged kubeconfig path starts with "~/" and the current user
    cannot be looked up. In every other case it returns. *)
Theorem InitializeConfiguration_panics_exactly :
  forall yaml_Unmarshal (commandArgs : gmap string value) (os : OS),
    (forall f, wellTyped commandArgs f = true) ->
    ((exists msg, InitializeConfiguration yaml_Unmarshal commandArgs os = Panic msg)
     <-> exists base,
           loadConfigFile yaml_Unmarshal commandArgs os = inl base
           /\ (mappingEnvUnused commandArgs os FPortsToForward = false
               \/ mappingEnvUnused commandArgs os FInstallPackages = false
               \/ (ClusterName (resolvedConfig commandArgs os base) <> ""
                   /\ strings.HasPrefix
                        (ExistingClusterKubeconfig (resolvedConfig commandArgs os base))
                        "~/" = true
                   /\ currentUserHomeDir os = None))).
Proof.
  intros yaml_Unmarshal commandArgs os Hwt. unfold InitializeConfiguration.
  destruct (loadConfigFile yaml_Unmarshal commandArgs os) as [base|e] eqn:L.
  - destruct (mappingEnvUnused commandArgs os FPortsToForward) eqn:Hports;
      [destruct (mappingEnvUnused commandArgs os FInstallPackages) eqn:Hpkgs|].
    + rewrite (setFields_resolved _ _ _ Hwt Hports Hpkgs). cbn [rbind].
      destruct (String.eqb_spec (ClusterName (resolvedConfig commandArgs os base)) "")
        as [E|E].
      * split; [intros [msg H]; discriminate|].
        intros (b & [= <-] & [H|[H|(H & _)]]); congruence.
      * split.
        -- intros [msg H]. exists base. split; [reflexivity|]. right. right.
           split; [exact E|]. apply sanatizeKubeconfigPath_panics.
           destruct (sanatizeKubeconfigPath os _) as [p|m]; [discriminate|eauto].
        -- intros (b & [= <-] & [H|[H|(_ & H)]]); try discriminate.
           apply sanatizeKubeconfigPath_panics in H as [msg H]. rewrite H. simpl. eauto.
    + destruct (setFields_mapping_env_panics commandArgs os base Hwt (or_intror Hpkgs))
        as [msg E]. rewrite E. simpl. split; [|eauto].
      intros _. exists base. auto.
    + destruct (setFields_mapping_env_panics commandArgs os base Hwt (or_introl Hports))
        as [msg E]. rewrite E. simpl. split; [|eauto].
      intros _. exists base. auto.
  - split; [intros [msg H]; discriminate|]. intros (b & H & _). discriminate.
Qed.

Lemma InitializeConfiguration_panics_exactly_witness :
  exists msg,
    InitializeConfiguration exampleUnmarshal
      ({[ "ClusterName" := VString "x";
          "ExistingClusterKubeconfig" := VString "~/kc" ]} : gmap string value)
      (mkOS ∅ ∅ None)
    = Panic msg.
Proof.
  pose (commandArgs :=
          {[ "ClusterName" := VString "x";
             "ExistingClusterKubeconfig" := VString "~/kc" ]} : gmap string value).
  apply (proj2 (InitializeConfiguration_panics_exactly exampleUnmarshal commandArgs
                  (mkOS ∅ ∅ None)
                  ltac:(intros f; destruct f; vm_compute; reflexivity))).
  exists zeroConfig. split; [vm_compute; reflexivity|].
  right. right. split; [vm_compute; discriminate|]. split; vm_compute; reflexivity.
Defined.

(** ** The default configuration *)

(** Every entry of [emptyConfig] is empty, so each setter treats it as
    absent. *)
Lemma setField_emptyConfig (os : OS) (c : UnmanagedClusterConfig) (f : field) :
  setField emptyConfig os c f = setField ∅ os c f.
Proof.
  destruct f;
    unfold setField, setBoolValue, setStringValue, setStringSliceValue,
      setInstallPackageSliceValue, setPortMapSliceValue;
    cbv zeta; cbn [reflect.FieldByName]; compute_canonicalName;
    rewrite ?lookup_empty;
    match goal with
    | |- context [emptyConfig !! ?k] =>
        let r := eval vm_compute in (emptyConfig !! k) in
        change (emptyConfig !! k) with r
    | _ => idtac
    end;
    reflexivity.
Qed.

Lemma setFields_emptyConfig (os : OS) (fs : list field) :
  forall c, setFields emptyConfig os c fs = setFields ∅ os c fs.
Proof.
  induction fs as [|f fs IH]; intros c; [reflexivity|].
  rewrite !setFields_cons, setField_emptyConfig.
  destruct (setField ∅ os c f); simpl; auto.
Qed.

Lemma wellTyped_empty (f : field) : wellTyped ∅ f = true.
Proof. unfold wellTyped. now rewrite lookup_empty. Qed.

Lemma mappingEnvUnused_empty (os : OS) (f : field) :
  mappingEnvUnused ∅ os f
  = String.eqb (Getenv (environ os) (fieldNameToEnvName (canonicalName f))) "".
Proof. unfold mappingEnvUnused. rewrite lookup_empty. apply orb_false_r. Qed.

(** Extra X14. [GenerateDefaultConfig] is not a constant: it reads the
    environment like the resolver does. It returns exactly when
    TANZU_PORTS_TO_FORWARD and TANZU_INSTALL_PACKAGES are unset or empty
    (otherwise it panics); the cluster name of what it returns is always
    "default-name", whatever TANZU_CLUSTER_NAME holds; every other string
    field holds its environment variable when that is set and not empty and
    its registered default (or nothing) otherwise; and when no variable of
    a field is set the result is the fixed configuration of the defaults. *)
Theorem GenerateDefaultConfig_reads_environment :
  forall os : OS,
    let unset f := Getenv (environ os) (fieldNameToEnvName (canonicalName f)) = "" in
    ((exists cfg, GenerateDefaultConfig os = Ok cfg)
     <-> unset FPortsToForward /\ unset FInstallPackages)
    /\ (forall cfg,
          GenerateDefaultConfig os = Ok cfg ->
          ClusterName cfg = "default-name"
          /\ (forall f, isStringField f = true -> f <> FClusterName ->
                getString cfg f
                = stringPrecedence None
                    (Getenv (environ os) (fieldNameToEnvName (canonicalName f))) ""
                    (defaultConfigValues !! canonicalName f))
          /\ AdditionalPackageRepos cfg = envStrings os "AdditionalPackageRepos"
          /\ PortsToForward cfg = [] /\ InstallPackages cfg = []
          /\ ProviderConfiguration cfg = [] /\ CNIConfiguration cfg = [])
    /\ ((forall f, unset f) -> GenerateDefaultConfig os = Ok plainDefaultConfig).
Proof.
  intros os unset. unfold GenerateDefaultConfig. cbv zeta.
  rewrite setFields_emptyConfig.
  pose proof (mappingEnvUnused_empty os FPortsToForward) as Mp.
  pose proof (mappingEnvUnused_empty os FInstallPackages) as Mi.
  assert (Hres : unset FPortsToForward -> unset FInstallPackages ->
                 setFields ∅ os zeroConfig fields = Ok (resolvedConfig ∅ os zeroConfig)).
  { intros Up Ui. apply setFields_resolved; [exact wellTyped_empty| |].
    - rewrite Mp. now apply String.eqb_eq.
    - rewrite Mi. now apply String.eqb_eq. }
  assert (Hinv : forall c, setFields ∅ os zeroConfig fields = Ok c ->
                 unset FPortsToForward /\ unset FInstallPackages
                 /\ c = resolvedConfig ∅ os zeroConfig).
  { intros c H. destruct (setFields_returns _ _ _ _ wellTyped_empty H) as (Up & Ui & E).
    rewrite Mp in Up. rewrite Mi in Ui. apply String.eqb_eq in Up, Ui. auto. }
  split; [|split].
  - split.
    + intros [cfg H]. apply rbind_Ok in H as (c & H & _).
      destruct (Hinv c H) as (Up & Ui & _). auto.
    + intros [Up Ui]. rewrite (Hres Up Ui). simpl. eauto.
  - intros cfg H. apply rbind_Ok in H as (c & H & E). injection E as <-.
    destruct (Hinv c H) as (_ & _ & ->).
    split; [reflexivity|]. split; [|repeat split].
    + intros f Hf Hne. unfold getString.
      rewrite FieldByName_storeString_other by exact Hne.
      fold (getString (resolvedConfig ∅ os zeroConfig) f).
      rewrite getString_resolvedConfig by exact Hf. rewrite lookup_empty.
      now destruct f.
    + simpl. unfold sliceResolution, argStrings. rewrite lookup_empty. simpl.
      now destruct (envStrings os "AdditionalPackageRepos").
  - intros Hall. rewrite (Hres (Hall _) (Hall _)). simpl. f_equal.
    unfold resolvedConfig, plainDefaultConfig, reflect.storeString. cbv zeta.
    unfold envStrings, sliceResolution, argStrings, argPortMaps, argInstallPackages.
    rewrite !lookup_empty.
    pose proof (Hall FKubeconfigPath) as H1. pose proof (Hall FExistingClusterKubeconfig) as H2.
    pose proof (Hall FNodeImage) as H3. pose proof (Hall FProvider) as H4.
    pose proof (Hall FCni) as H5. pose proof (Hall FPodCidr) as H6.
    pose proof (Hall FServiceCidr) as H7. pose proof (Hall FTkrLocation) as H8.
    pose proof (Hall FAdditionalPackageRepos) as H9.
    pose proof (Hall FSkipPreflightChecks) as H10.
    pose proof (Hall FControlPlaneNodeCount) as H11.
    pose proof (Hall FWorkerNodeCount) as H12. pose proof (Hall FLogFile) as H13.
    unfold unset in *. compute_canonicalName.
    change (fieldNameToEnvName "SkipPreflightChecks")
      with "TANZU_SKIP_PREFLIGHT_CHECKS" in H10.
    rewrite H1, H2, H3, H4, H5, H6, H7, H8, H9, H10, H11, H12, H13.
    vm_compute. reflexivity.
Qed.

Lemma GenerateDefaultConfig_reads_environment_witness :
  exists cfg,
    GenerateDefaultConfig
      (exampleOS [("TANZU_CLUSTER_NAME", "mine"); ("TANZU_PROVIDER", "minikube")])
    = Ok cfg
    /\ ClusterName cfg = "default-name".
Proof.
  pose (os := exampleOS [("TANZU_CLUSTER_NAME", "mine"); ("TANZU_PROVIDER", "minikube")]).
  destruct (proj2 (proj1 (GenerateDefaultConfig_reads_environment os))
              ltac:(split; vm_compute; reflexivity)) as [cfg H].
  exists cfg. split; [exact H|].
  exact (proj1 (proj1 (proj2 (GenerateDefaultConfig_reads_environment os)) cfg H)).
Defined.

(** ** Configuration directories *)

Lemma filepath_Join_rooted_plain (hs rs : list string) :
  Forall (fun e => plainElement e = true) hs ->
  Forall (fun e => plainElement e = true) rs -> rs <> [] ->
  filepath.Join (String "/" (strings.Join hs "/") :: rs)
  = String "/" (strings.Join (hs ++ rs) "/").
Proof.
  intros Hhs Hrs Hne. rewrite <- (Join_home_rest_plain hs rs Hhs Hrs Hne).
  cbn [filepath.Join].
  change (String.eqb (String "/" (strings.Join hs "/")) "") with false. cbv iota.
  rewrite (Join_cons _ rs) by exact Hne. rewrite (Join_cons _ [_]) by discriminate.
  reflexivity.
Qed.

Lemma String_length_append (a b : string) :
  String.length (a +:+ b) = (String.length a + String.length b)%nat.
Proof.
  induction a as [|c r IH]; [reflexivity|]. rewrite append_String. simpl. now rewrite IH.
Qed.

Lemma plainElement_yaml (name : string) :
  strings.count "/" name = 0%nat -> plainElement (name +:+ ".yaml") = true.
Proof.
  intros H. unfold plainElement. rewrite count_append, H.
  assert (L : (5 <= String.length (name +:+ ".yaml"))%nat)
    by (rewrite String_length_append; simpl; lia).
  assert (N : forall t, (String.length t < 5)%nat -> String.eqb (name +:+ ".yaml") t = false).
  { intros t Ht. apply String.eqb_neq. intros E. rewrite E in L. lia. }
  rewrite !N by (simpl; lia). reflexivity.
Qed.

Lemma Getenv_HOME (os : OS) (home : string) :
  Getenv (environ os) "HOME" = home -> home <> "" -> UserHomeDir os = inl home.
Proof. intros <- H. unfold UserHomeDir. now rewrite (eqb_empty_false _ H). Qed.

(** Extra X15. The three directory functions resolve, below the
    directory named by $HOME, to .config/tanzu, .config/tanzu/tkg and
    .config/tanzu/tkg/unmanaged, each one the previous one with one more
    element; when $HOME is unset or empty each returns an error whose text
    wraps the text of the function it calls. *)
Theorem config_directories :
  (forall (os : OS) (hs : list string),
     Forall (fun e => plainElement e = true) hs ->
     Getenv (environ os) "HOME" = String "/" (strings.Join hs "/") ->
     GetTanzuConfigPath os
     = inl (String "/" (strings.Join (hs ++ [".config"; "tanzu"]) "/"))
     /\ GetTanzuTkgConfigPath os
        = inl (String "/" (strings.Join (hs ++ [".config"; "tanzu"; "tkg"]) "/"))
     /\ GetUnmanagedConfigPath os
        = inl (String "/"
                 (strings.Join (hs ++ [".config"; "tanzu"; "tkg"; "unmanaged"]) "/"))
     /\ (hs <> [] ->
         GetUnmanagedConfigPath os
         = inl (String "/" (strings.Join hs "/") +:+ "/.config/tanzu/tkg/unmanaged")))
  /\ (forall os : OS,
        Getenv (environ os) "HOME" = "" ->
        GetTanzuConfigPath os
        = inr "failed to resolve tanzu config path. Error: $HOME is not defined"
        /\ GetTanzuTkgConfigPath os
           = inr ("failed to resolve tanzu TKG config path. Error: "
                  +:+ "failed to resolve tanzu config path. Error: $HOME is not defined")
        /\ GetUnmanagedConfigPath os
           = inr ("failed to resolve unmanaged-cluster config path. Error: "
                  +:+ "failed to resolve tanzu TKG config path. Error: "
                  +:+ "failed to resolve tanzu config path. Error: $HOME is not defined"))
  /\ (forall os : OS,
        (forall p, GetTanzuConfigPath os = inl p ->
                   GetTanzuTkgConfigPath os = inl (filepath.Join [p; "tkg"]))
        /\ (forall p, GetTanzuTkgConfigPath os = inl p ->
                      GetUnmanagedConfigPath os = inl (filepath.Join [p; "unmanaged"]))).
Proof.
  split; [|split].
  - intros os hs Hhs Hhome.
    assert (P2 : Forall (fun e => plainElement e = true) [".config"; "tanzu"])
      by (repeat constructor).
    assert (P1 : Forall (fun e => plainElement e = true) (hs ++ [".config"; "tanzu"]))
      by (apply List.Forall_app; auto).
    assert (T : GetTanzuConfigPath os
                = inl (String "/" (strings.Join (hs ++ [".config"; "tanzu"]) "/"))).
    { unfold GetTanzuConfigPath.
      rewrite (Getenv_HOME os _ Hhome) by discriminate.
      unfold configDir, tanzuConfigDir.
      now rewrite (filepath_Join_rooted_plain hs [".config"; "tanzu"] Hhs P2)
        by discriminate. }
    assert (K : GetTanzuTkgConfigPath os
                = inl (String "/" (strings.Join (hs ++ [".config"; "tanzu"; "tkg"]) "/"))).
    { unfold GetTanzuTkgConfigPath. rewrite T. unfold tkgConfigDir.
      rewrite (filepath_Join_rooted_plain (hs ++ [".config"; "tanzu"]) ["tkg"] P1)
        by (repeat constructor; discriminate).
      now rewrite <- app_assoc. }
    assert (U : GetUnmanagedConfigPath os
                = inl (String "/"
                         (strings.Join (hs ++ [".config"; "tanzu"; "tkg"; "unmanaged"]) "/"))).
    { unfold GetUnmanagedConfigPath. rewrite K. unfold unmanagedConfigDir.
      rewrite (filepath_Join_rooted_plain (hs ++ [".config"; "tanzu"; "tkg"]) ["unmanaged"])
        by (try (apply List.Forall_app; split; [exact Hhs|]); repeat constructor;
            discriminate).
      now rewrite <- app_assoc. }
    split; [exact T|]. split; [exact K|]. split; [exact U|].
    intros Hne. rewrite U. f_equal.
    rewrite (Join_app hs _ "/" Hne) by discriminate. rewrite append_String. reflexivity.
  - intros os Hhome.
    unfold GetUnmanagedConfigPath, GetTanzuTkgConfigPath, GetTanzuConfigPath, UserHomeDir.
    rewrite Hhome. simpl. repeat split.
  - intros os. unfold GetUnmanagedConfigPath, GetTanzuTkgConfigPath. split.
    + intros p ->. reflexivity.
    + intros p H. destruct (GetTanzuConfigPath os) as [q|e]; [|discriminate].
      injection H as <-. reflexivity.
Qed.

Lemma config_directories_witness :
  GetUnmanagedConfigPath (exampleOS [("HOME", "/home/user")])
  = inl "/home/user/.config/tanzu/tkg/unmanaged".
Proof.
  exact (proj2 (proj2 (proj2
    (proj1 config_directories (exampleOS [("HOME", "/home/user")]) ["home"; "user"]
       ltac:(repeat constructor) ltac:(vm_compute; reflexivity))))
    ltac:(discriminate)).
Defined.

(** Extra X16. [KubeConfigPath] names the file <cluster name>.yaml
    directly in .config/tanzu below $HOME, not in the tkg/unmanaged
    directory that [GetUnmanagedConfigPath] returns; a cluster name without
    '/' cannot leave that directory. When $HOME is unset or empty the error
    it returns has an empty text. *)
Theorem KubeConfigPath_location :
  (forall (os : OS) (scc : UnmanagedClusterConfig) (hs : list string),
     Forall (fun e => plainElement e = true) hs ->
     Getenv (environ os) "HOME" = String "/" (strings.Join hs "/") ->
     strings.count "/" (ClusterName scc) = 0%nat ->
     KubeConfigPath os scc
     = inl (String "/"
              (strings.Join (hs ++ [".config"; "tanzu"; ClusterName scc +:+ ".yaml"]) "/"))
     /\ (forall p, GetTanzuConfigPath os = inl p ->
           KubeConfigPath os scc = inl (p +:+ "/" +:+ ClusterName scc +:+ ".yaml")))
  /\ (forall (os : OS) (scc : UnmanagedClusterConfig),
        Getenv (environ os) "HOME" = "" -> KubeConfigPath os scc = inr "").
Proof.
  split.
  - intros os scc hs Hhs Hhome Hname.
    assert (P1 : Forall (fun e => plainElement e = true) (hs ++ [".config"; "tanzu"]))
      by (apply List.Forall_app; split; [exact Hhs|repeat constructor]).
    assert (T : GetTanzuConfigPath os
                = inl (String "/" (strings.Join (hs ++ [".config"; "tanzu"]) "/"))).
    { unfold GetTanzuConfigPath.
      rewrite (Getenv_HOME os _ Hhome) by discriminate.
      unfold configDir, tanzuConfigDir.
      now rewrite (filepath_Join_rooted_plain hs [".config"; "tanzu"] Hhs)
        by (repeat constructor; discriminate). }
    assert (K : KubeConfigPath os scc
     = inl (String "/"
              (strings.Join (hs ++ [".config"; "tanzu"; ClusterName scc +:+ ".yaml"]) "/"))).
    { unfold KubeConfigPath. rewrite T.
      rewrite (filepath_Join_rooted_plain (hs ++ [".config"; "tanzu"])
                 [ClusterName scc +:+ ".yaml"] P1)
        by (repeat constructor; try discriminate; now apply plainElement_yaml).
      now rewrite <- app_assoc. }
    split; [exact K|].
    intros p Hp. rewrite T in Hp. injection Hp as <-. rewrite K. f_equal.
    change (hs ++ [".config"; "tanzu"; ClusterName scc +:+ ".yaml"])
      with (hs ++ [".config"; "tanzu"] ++ [ClusterName scc +:+ ".yaml"]).
    rewrite app_assoc.
    rewrite (Join_app (hs ++ [".config"; "tanzu"]) [ClusterName scc +:+ ".yaml"] "/")
      by (try discriminate; destruct hs; discriminate).
    rewrite append_String. reflexivity.
  - intros os scc Hhome. unfold KubeConfigPath, GetTanzuConfigPath, UserHomeDir.
    now rewrite Hhome.
Qed.

Lemma KubeConfigPath_location_witness :
  KubeConfigPath (exampleOS [("HOME", "/home/user")])
    (reflect.storeString FClusterName "dev" zeroConfig)
  = inl "/home/user/.config/tanzu/dev.yaml".
Proof.
  exact (proj1 (proj1 KubeConfigPath_location (exampleOS [("HOME", "/home/user")])
     (reflect.storeString FClusterName "dev" zeroConfig) ["home"; "user"]
     ltac:(repeat constructor) ltac:(vm_compute; reflexivity) ltac:(reflexivity))).
Defined.

(** ** A configuration file alone *)

Lemma lookup_file_only (p : string) (f : field) :
  ({[ ClusterConfigFile := VString p ]} : gmap string value) !! canonicalName f = None.
Proof. apply lookup_singleton_ne. destruct f; discriminate. Qed.

Lemma sliceResolution_nothing {A} (file : list A) :
  sliceResolution [] [] file [] = file.
Proof. unfold sliceResolution. simpl. rewrite app_nil_r. now destruct file. Qed.

(** Extra X17. Initialising from a file alone, with no other argument and
    no variable of a field set, starts from the configuration that
    [RenderFileToConfig] reads from that file and fails as it fails: the
    result keeps every value of the file, fills in the registered default
    where a string field of the file is empty, and normalises the
    kubeconfig path; a file without cluster name is refused. *)
Theorem file_alone_gets_defaults :
  forall yaml_Unmarshal (os : OS) (p : string),
    p <> "" ->
    (forall f, Getenv (environ os) (fieldNameToEnvName (canonicalName f)) = "") ->
    let commandArgs : gmap string value := {[ ClusterConfigFile := VString p ]} in
    (RenderFileToConfig yaml_Unmarshal os p = (None, Some (ErrReadingConfigFile p)) ->
     InitializeConfiguration yaml_Unmarshal commandArgs os
     = Ok (None, Some (ErrReadFile p)))
    /\ (RenderFileToConfig yaml_Unmarshal os p
        = (None, Some (ErrInvalidConfiguration p)) ->
        InitializeConfiguration yaml_Unmarshal commandArgs os
        = Ok (None, Some (ErrUnmarshal p)))
    /\ (forall c,
          RenderFileToConfig yaml_Unmarshal os p = (Some c, None) ->
          (ClusterName c = "" ->
           InitializeConfiguration yaml_Unmarshal commandArgs os
           = Ok (None, Some ErrClusterName))
          /\ (ClusterName c <> "" ->
              forall path,
                sanatizeKubeconfigPath os (ExistingClusterKubeconfig c) = Ok path ->
                exists cfg,
                  InitializeConfiguration yaml_Unmarshal commandArgs os
                  = Ok (Some cfg, None)
                  /\ ExistingClusterKubeconfig cfg = path
                  /\ (forall f, isStringField f = true ->
                        f <> FExistingClusterKubeconfig ->
                        getString cfg f
                        = if String.eqb (getString c f) ""
                          then match defaultConfigValues !! canonicalName f with
                               | Some (VString d) => d
                               | _ => ""
                               end
                          else getString c f)
                  /\ (forall f, isStringField f = false ->
                        reflect.FieldByName cfg f = reflect.FieldByName c f))).
Proof.
  intros yaml_Unmarshal os p Hp Henv commandArgs.
  assert (Hfile : commandArgs !! ClusterConfigFile = Some (VString p))
    by apply lookup_singleton_eq.
  assert (Hload : loadConfigFile yaml_Unmarshal commandArgs os
                  = match RenderFileToConfig yaml_Unmarshal os p with
                    | (Some c, _) => inl c
                    | (None, Some (ErrInvalidConfiguration _)) => inr (ErrUnmarshal p)
                    | (None, _) => inr (ErrReadFile p)
                    end).
  { unfold loadConfigFile, RenderFileToConfig. rewrite Hfile, (eqb_empty_false p Hp).
    simpl. destruct (files os !! p) as [d|]; [|reflexivity].
    now destruct (yaml_Unmarshal d zeroConfig). }
  split; [|split].
  - intros H. unfold InitializeConfiguration. now rewrite Hload, H.
  - intros H. unfold InitializeConfiguration. now rewrite Hload, H.
  - intros c H. rewrite H in Hload.
    assert (Hwt : forall f, wellTyped commandArgs f = true).
    { intros f. unfold wellTyped. subst commandArgs. now rewrite lookup_file_only. }
    assert (Hunused : forall f, mappingEnvUnused commandArgs os f = true).
    { intros f. unfold mappingEnvUnused. now rewrite Henv. }
    pose proof (setFields_resolved commandArgs os c Hwt (Hunused _) (Hunused _)) as Hset.
    pose proof (InitializeConfiguration_merged _ _ _ _ _ Hload Hset) as Hinit.
    assert (Hstr : forall f, isStringField f = true ->
              getString (resolvedConfig commandArgs os c) f
              = if String.eqb (getString c f) ""
                then match defaultConfigValues !! canonicalName f with
                     | Some (VString d) => d
                     | _ => ""
                     end
                else getString c f).
    { intros f Hf. rewrite getString_resolvedConfig by exact Hf.
      subst commandArgs. rewrite lookup_file_only, Henv. simpl.
      now destruct (String.eqb (getString c f) ""). }
    assert (Hother : forall f, isStringField f = false ->
              reflect.FieldByName (resolvedConfig commandArgs os c) f
              = reflect.FieldByName c f).
    { intros f Hf. destruct f; try discriminate Hf; try reflexivity; simpl;
        unfold argStrings, argPortMaps, argInstallPackages, envStrings;
        subst commandArgs.
      - pose proof (Henv FAdditionalPackageRepos) as E.
        pose proof (lookup_file_only p FAdditionalPackageRepos) as L.
        compute_canonicalName. rewrite L, E. simpl.
        now rewrite sliceResolution_nothing.
      - pose proof (lookup_file_only p FPortsToForward) as L.
        compute_canonicalName. rewrite L. now rewrite sliceResolution_nothing.
      - pose proof (Henv FSkipPreflightChecks) as E.
        pose proof (lookup_file_only p FSkipPreflightChecks) as L.
        compute_canonicalName.
        change (fieldNameToEnvName "SkipPreflightChecks")
          with "TANZU_SKIP_PREFLIGHT_CHECKS" in E.
        rewrite L, E. reflexivity.
      - pose proof (lookup_file_only p FInstallPackages) as L.
        compute_canonicalName. rewrite L. now rewrite sliceResolution_nothing. }
    assert (Hname : ClusterName (resolvedConfig commandArgs os c) = ClusterName c).
    { pose proof (Hstr FClusterName eq_refl) as E.
      change (getString ?x FClusterName) with (ClusterName x) in E. rewrite E.
      change (defaultConfigValues !! canonicalName FClusterName) with (@None value).
      now destruct (String.eqb_spec (ClusterName c) ""). }
    assert (Hec : ExistingClusterKubeconfig (resolvedConfig commandArgs os c)
                  = ExistingClusterKubeconfig c).
    { pose proof (Hstr FExistingClusterKubeconfig eq_refl) as E.
      change (getString ?x FExistingClusterKubeconfig)
        with (ExistingClusterKubeconfig x) in E. rewrite E.
      change (defaultConfigValues !! canonicalName FExistingClusterKubeconfig)
        with (@None value).
      now destruct (String.eqb_spec (ExistingClusterKubeconfig c) ""). }
    rewrite Hname, Hec in Hinit. split.
    + intros E. now rewrite Hinit, E.
    + intros Hne path Hpath. rewrite Hinit, (eqb_empty_false _ Hne), Hpath. cbn [rbind].
      eexists. split; [reflexivity|]. split; [reflexivity|]. split.
      * intros f Hf Hfne. unfold getString at 1.
        rewrite FieldByName_storeString_other by exact Hfne. now apply Hstr.
      * intros f Hf. rewrite FieldByName_storeString_other by (intros ->; discriminate).
        now apply Hother.
Qed.

Lemma file_alone_gets_defaults_witness :
  exists cfg,
    InitializeConfiguration exampleUnmarshal
      ({[ ClusterConfigFile := VString "cluster.yaml" ]} : gmap string value)
      (exampleOSWithFile [] "ClusterName: from-file")
    = Ok (Some cfg, None)
    /\ ExistingClusterKubeconfig cfg = "".
Proof.
  pose (os := exampleOSWithFile [] "ClusterName: from-file").
  destruct (proj2 (proj2 (proj2 (file_alone_gets_defaults exampleUnmarshal os "cluster.yaml"
              ltac:(discriminate)
              ltac:(intros f; destruct f; vm_compute; reflexivity)))
              (reflect.storeString FClusterName "from-file" zeroConfig)
              ltac:(vm_compute; reflexivity))
              ltac:(vm_compute; discriminate) "" ltac:(vm_compute; reflexivity))
    as (cfg & Hinit & Hpath & _).
  exists cfg. split; [exact Hinit|exact Hpath].
Defined.

(** ** Kubeconfig paths that need no expansion *)

Lemma rooted_String (a : ascii) (r : string) :
  filepath.rooted (String a r) = Ascii.eqb a "/".
Proof. destruct a as [[] [] [] [] [] [] [] []]; reflexivity. Qed.

Lemma Join_plain_head (e : string) (es : list string) :
  plainElement e = true ->
  exists a r, strings.Join (e :: es) "/" = String a r /\ Ascii.eqb a "/" = false.
Proof.
  intros He. destruct (plainElement_spec e He) as (E0 & _ & _ & Hc).
  destruct e as [|a r]; [discriminate|].
  exists a. simpl in Hc. destruct (Ascii.eqb a "/") eqn:Ea; [discriminate|].
  destruct es as [|e' es]; [eauto|].
  rewrite Join_cons by discriminate. rewrite append_String. eauto.
Qed.

Lemma Clean_relative_plain (es : list string) :
  Forall (fun e => plainElement e = true) es -> es <> [] ->
  filepath.Clean (strings.Join es "/") = strings.Join es "/".
Proof.
  intros Hes Hne. destruct es as [|e es]; [congruence|].
  inversion Hes as [|? ? He Hes']; subst.
  destruct (Join_plain_head e es He) as (a & r & Hj & Ha).
  unfold filepath.Clean. rewrite Hj. change (String.eqb (String a r) "") with false.
  cbv iota. rewrite rooted_String, Ha. cbv zeta iota. rewrite <- Hj.
  assert (Hsep : Forall (fun x => strings.count "/" x = 0%nat) (e :: es)).
  { eapply List.Forall_impl; [|exact Hes]. intros x Hx. now apply plainElement_spec. }
  rewrite (Split_Join (e :: es) "/" ltac:(discriminate) Hsep).
  rewrite cleanElements_plain
    by (eapply List.Forall_impl; [|exact Hes]; auto).
  simpl rev. rewrite app_nil_l, (filter_plain (e :: es) Hes).
  now rewrite Hj.
Qed.

(** Extra X18. A kubeconfig path that does not start with "~/" is never
    expanded and never makes the function panic, with or without a current
    user: the empty path stays empty, and a path written with plain
    elements, rooted or relative, is returned as it is (a relative path
    stays relative). *)
Theorem kubeconfig_path_kept :
  (forall os, sanatizeKubeconfigPath os "" = Ok "")
  /\ (forall os path,
        strings.HasPrefix path "~/" = false ->
        exists p, sanatizeKubeconfigPath os path = Ok p)
  /\ (forall os es,
        Forall (fun e => plainElement e = true) es -> es <> [] ->
        sanatizeKubeconfigPath os (String "/" (strings.Join es "/"))
        = Ok (String "/" (strings.Join es "/"))
        /\ (strings.HasPrefix (strings.Join es "/") "~/" = false ->
            sanatizeKubeconfigPath os (strings.Join es "/") = Ok (strings.Join es "/"))).
Proof.
  split; [reflexivity|]. split.
  - intros os path H. apply sanatizeKubeconfigPath_returns. now right.
  - intros os es Hes Hne. split.
    + rewrite sanatizeKubeconfigPath_no_tilde by reflexivity.
      now rewrite (Join_home_plain es Hes).
    + intros H. rewrite (sanatizeKubeconfigPath_no_tilde os _ H).
      destruct es as [|e es]; [congruence|].
      destruct (Join_plain_head e es (Forall_inv Hes)) as (a & r & Hj & Ha).
      rewrite <- (Clean_relative_plain (e :: es) Hes Hne) at 2.
      rewrite Hj. reflexivity.
Qed.

Lemma kubeconfig_path_kept_witness :
  sanatizeKubeconfigPath (mkOS ∅ ∅ None) (strings.Join ["conf"; "kc.yaml"] "/")
  = Ok (strings.Join ["conf"; "kc.yaml"] "/").
Proof.
  exact (proj2 (proj2 (proj2 kubeconfig_path_kept) (mkOS ∅ ∅ None) ["conf"; "kc.yaml"]
                  ltac:(repeat constructor) ltac:(discriminate))
           ltac:(reflexivity)).
Defined.

(** ** A list in the environment *)

(** Extra X19. With no explicit argument and an empty field, a package
    repository variable that is not empty is stored as its comma-separated
    elements, without loss: there is one element more than commas, empty
    elements between commas are kept, and joining the stored elements with
    ',' gives the variable back. *)
Theorem repository_variable_stored_whole :
  forall (commandArgs : gmap string value) (os : OS) (c : UnmanagedClusterConfig)
         (v : string),
    commandArgs !! "AdditionalPackageRepos" = None ->
    AdditionalPackageRepos c = [] ->
    Getenv (environ os) "TANZU_ADDITIONAL_PACKAGE_REPOS" = v -> v <> "" ->
    setStringSliceValue commandArgs os c FAdditionalPackageRepos
    = Ok (reflect.storeRepos (strings.Split v ",") c)
    /\ strings.Join (strings.Split v ",") "," = v
    /\ length (strings.Split v ",") = S (strings.count "," v).
Proof.
  intros commandArgs os c v Harg Hfile Henv Hv.
  split; [|split; [apply Join_Split|apply Split_length]].
  rewrite setStringSliceValue_spec
    by (unfold wellTyped;
        change (canonicalName FAdditionalPackageRepos) with "AdditionalPackageRepos";
        now rewrite Harg).
  unfold argStrings, envStrings. rewrite Harg, Hfile.
  change (fieldNameToEnvName "AdditionalPackageRepos")
    with "TANZU_ADDITIONAL_PACKAGE_REPOS".
  rewrite Henv, (eqb_empty_false v Hv). unfold sliceResolution. simpl.
  destruct (strings.Split v ",") eqn:E; [now destruct (Split_not_nil v ",")|reflexivity].
Qed.

Lemma repository_variable_stored_whole_witness :
  setStringSliceValue ∅ (exampleOS [("TANZU_ADDITIONAL_PACKAGE_REPOS", "a,,b")])
    zeroConfig FAdditionalPackageRepos
  = Ok (reflect.storeRepos (strings.Split "a,,b" ",") zeroConfig).
Proof.
  refine (proj1 (repository_variable_stored_whole (∅ : gmap string value)
                   (exampleOS [("TANZU_ADDITIONAL_PACKAGE_REPOS", "a,,b")])
                   zeroConfig "a,,b" _ _ _ _)).
  - vm_compute. reflexivity.
  - reflexivity.
  - vm_compute. reflexivity.
  - discriminate.
Defined.

(** ** The earlier and the later parser *)

Lemma ParsePortMap_unfold (pm : string) :
  Previous.ParsePortMap pm =
    let slash := strings.Split pm "/" in
    let colon := strings.Split (part slash 0) ":" in
    let proto := strings.ToLower (part slash 1) in
    let rest (p : string) :=
      match strconv.Atoi (part colon 0) with
      | None => (Previous.mkPortMap 0 0 p, Some (Previous.ErrInvalidPort (part colon 0)))
      | Some c =>
          if (length colon =? 2)%nat then
            match strconv.Atoi (part colon 1) with
            | None =>
                (Previous.mkPortMap 0 c p, Some (Previous.ErrInvalidPort (part colon 1)))
            | Some h => (Previous.mkPortMap h c p, None)
            end
          else (Previous.mkPortMap 0 c p, None)
      end in
    if (length slash =? 2)%nat then
      if validProtocol proto then rest proto
      else (Previous.mkPortMap 0 0 "", Some (Previous.ErrProtocol proto))
    else rest "".
Proof.
  unfold Previous.ParsePortMap, validProtocol. cbv zeta.
  destruct (length (strings.Split pm "/") =? 2)%nat; [|reflexivity].
  destruct (String.eqb _ ProtocolTCP), (String.eqb _ ProtocolUDP),
    (String.eqb _ ProtocolSCTP); reflexivity.
Qed.

(** Extra X20. The earlier single-mapping parser [ParsePortMap] and the
    later one agree on every text with one or two colon-separated parts
    before the slash: both fail, or both succeed with the same ports and
    protocol. They differ on three parts or more. There the earlier parser
    knows no arity error: it accepts the text as soon as the first part is
    a number (and the protocol, if one is given, is valid), reads that part
    as the container port, leaves the host port at 0 and ignores the other
    parts; the only errors it returns are the protocol error and the
    invalid-port error of the first part. The later parser refuses four
    parts or more, and reads the first of three as the listen address. *)
Theorem earlier_parser_agreement :
  forall pm : string,
    let slash := strings.Split pm "/" in
    let colon := strings.Split (part slash 0) ":" in
    let proto := if (length slash =? 2)%nat then strings.ToLower (part slash 1) else "" in
    ((length colon <= 2)%nat ->
     forall r : PortMap,
       parsePortMapping pm = inl r
       <-> exists r0, Previous.ParsePortMap pm = (r0, None) /\ r = ofPrevious r0)
    /\ ((3 <= length colon)%nat ->
        (forall c,
           strconv.Atoi (part colon 0) = Some c ->
           length slash <> 2%nat \/ validProtocol proto = true ->
           Previous.ParsePortMap pm = (Previous.mkPortMap 0 c proto, None))
        /\ (forall r0,
              Previous.ParsePortMap pm = (r0, None) ->
              Previous.HostPort r0 = 0
              /\ strconv.Atoi (part colon 0) = Some (Previous.ContainerPort r0))
        /\ (forall r0 e,
              Previous.ParsePortMap pm = (r0, Some e) ->
              e = Previous.ErrProtocol proto
              \/ e = Previous.ErrInvalidPort (part colon 0))
        /\ ((4 <= length colon)%nat -> forall r, parsePortMapping pm <> inl r)
        /\ (length colon = 3%nat ->
            forall r, parsePortMapping pm = inl r ->
                      ListenAddress r = part colon 0
                      /\ strconv.Atoi (part colon 1) = Some (ContainerPort r))).
Proof.
  intros pm slash colon proto.
  pose proof (ParsePortMap_unfold pm) as U0. cbv zeta in U0.
  fold slash in U0. fold colon in U0.
  pose proof (parsePortMapping_unfold pm) as U1. cbv zeta in U1.
  unfold parseColonParts in U1. fold slash in U1. fold colon in U1.
  pose proof (Split_length_ge1 (part slash 0) ":") as L.
  fold colon in L.
  split.
  - intros Hle r. rewrite U0, U1. clear U0 U1.
    assert (Hrest : forall p,
      match colon with
      | [p0] =>
          match strconv.Atoi p0 with
          | Some c => inl (mkPortMap "" 0 c p)
          | None => inr (ErrContainerPort1 p0)
          end
      | [c; h] =>
          match strconv.Atoi c with
          | Some c' =>
              match strconv.Atoi h with
              | Some h' => inl (mkPortMap "" h' c' p)
              | None => inr (ErrHostPort2 h)
              end
          | None => inr (ErrContainerPort2 c)
          end
      | [a; c; h] =>
          match strconv.Atoi c with
          | Some c' =>
              match strconv.Atoi h with
              | Some h' => inl (mkPortMap a h' c' p)
              | None => inr (ErrHostPort3 h)
              end
          | None => inr (ErrContainerPort3 c)
          end
      | _ => inr (ErrInvalidPortMapping colon)
      end = inl r
      <-> exists r0,
            match strconv.Atoi (part colon 0) with
            | Some c =>
                if (length colon =? 2)%nat
                then match strconv.Atoi (part colon 1) with
                     | Some h => (Previous.mkPortMap h c p, None)
                     | None =>
                         (Previous.mkPortMap 0 c p,
                          Some (Previous.ErrInvalidPort (part colon 1)))
                     end
                else (Previous.mkPortMap 0 c p, None)
            | None =>
                (Previous.mkPortMap 0 0 p, Some (Previous.ErrInvalidPort (part colon 0)))
            end = (r0, None) /\ r = ofPrevious r0).
    { intros p. destruct colon as [|a [|b [|x l]]]; simpl in *; try lia; unfold part; simpl.
      - destruct (strconv.Atoi a) as [va|]; split.
        + intros [= <-]. eexists. split; reflexivity.
        + intros (r0 & [= <-] & ->). reflexivity.
        + discriminate.
        + intros (r0 & H & _). discriminate.
      - destruct (strconv.Atoi a) as [va|]; [destruct (strconv.Atoi b) as [vb|]|]; split;
          try discriminate; try (intros (r0 & H & _); discriminate).
        + intros [= <-]. eexists. split; reflexivity.
        + intros (r0 & [= <-] & ->). reflexivity. }
    destruct (length slash =? 2)%nat; [|apply Hrest].
    destruct (validProtocol _); [apply Hrest|].
    split; [discriminate|]. intros (r0 & H & _). discriminate.
  - intros Hge.
    assert (E : (length colon =? 2)%nat = false) by (apply Nat.eqb_neq; lia).
    rewrite E in U0. clear E.
    split; [|split; [|split; [|split]]].
    + intros c Hc Hp. rewrite U0, Hc. unfold proto in *.
      destruct (Nat.eqb_spec (length slash) 2) as [E2|E2]; [|reflexivity].
      destruct Hp as [Hp|Hp]; [congruence|]. now rewrite Hp.
    + intros r0. rewrite U0.
      destruct (length slash =? 2)%nat;
        [destruct (validProtocol _); [|discriminate]|];
        destruct (strconv.Atoi (part colon 0)); try discriminate;
        intros [= <-]; split; reflexivity.
    + intros r0 e. rewrite U0. unfold proto.
      destruct (length slash =? 2)%nat;
        [destruct (validProtocol _); [|intros [= _ <-]; now left]|];
        destruct (strconv.Atoi (part colon 0)); try discriminate;
        intros [= _ <-]; now right.
    + intros H4 r. rewrite U1.
      destruct colon as [|a [|b [|c [|d l]]]]; simpl in H4; try lia.
      destruct (length slash =? 2)%nat; [destruct (validProtocol _)|]; discriminate.
    + intros H3 r. rewrite U1.
      destruct colon as [|a [|b [|c [|d l]]]]; simpl in H3; try lia.
      unfold part; simpl.
      destruct (length slash =? 2)%nat; [destruct (validProtocol _); [|discriminate]|];
        destruct (strconv.Atoi b); try discriminate;
        destruct (strconv.Atoi c); try discriminate;
        intros [= <-]; split; reflexivity.
Qed.

Lemma earlier_parser_agreement_witness :
  Previous.ParsePortMap "1:2:3" = (Previous.mkPortMap 0 1 "", None)
  /\ Previous.ParsePortMap "80:x:y:z/TCP" = (Previous.mkPortMap 0 80 "tcp", None).
Proof.
  split.
  - refine (proj1 (proj2 (earlier_parser_agreement "1:2:3") _) 1 _ _).
    + vm_compute. lia.
    + vm_compute. reflexivity.
    + left. vm_compute. lia.
  - refine (proj1 (proj2 (earlier_parser_agreement "80:x:y:z/TCP") _) 80 _ _).
    + vm_compute. lia.
    + vm_compute. reflexivity.
    + right. vm_compute. reflexivity.
Defined.
